(** * AutoEq text preset -> FabFilter Pro-Q 4 preset: a model of [converter.py]

    The development embeds the converter shallowly.  Python values are
    modelled as follows.

    - [str] is a Rocq [string]; a character is a code point below 256.
    - an exception is a constructor of [pyexn]; a computation that can raise
      has type [pyresult A] and is sequenced with [x ← e; k].
    - [float] is kept abstract behind the class [PyFloat], which lists the
      float operations the converter performs.  Two platforms instantiate it:
      [ideal], exact real arithmetic (used for the numeric laws of the
      transforms that hold without rounding), and [binary64], IEEE doubles
      with the decimal conversions of CPython and the logarithms of the C
      library as parameters (used for the text that is finally written and
      for what holds of the doubles themselves).
    - a [dict] with string keys is a [gmap string string]. *)

From Stdlib Require Import ZArith NArith List String Ascii Reals Lra Lia.
From Stdlib Require Import Floats.
From stdpp Require Import base option list gmap strings sorting.

Local Open Scope string_scope.
Local Open Scope list_scope.

(** ** Exceptions *)

Inductive pyexn : Type :=
| ValueError
| ZeroDivisionError
| AttributeError
| IndexError
| KeyError.

Inductive pyresult (A : Type) : Type :=
| Ok (a : A)
| Raise (e : pyexn).
Arguments Ok {A} a.
Arguments Raise {A} e.

#[global] Instance pyresult_ret : MRet pyresult := fun A a => Ok a.
#[global] Instance pyresult_bind : MBind pyresult := fun A B k m =>
  match m with
  | Ok a => k a
  | Raise e => Raise e
  end.

(** ** Strings *)

Definition code (c : ascii) : nat := nat_of_ascii c.

Definition in_range (lo hi : nat) (c : ascii) : bool :=
  (lo <=? code c)%nat && (code c <=? hi)%nat.

(** [str.isspace] on the code points below 256; it is also the class [\s]
    of [re] on [str] patterns. *)
Definition py_isspace (c : ascii) : bool :=
  in_range 9 13 c || in_range 28 32 c || (code c =? 133)%nat || (code c =? 160)%nat.

(** The class [\d] below 256. *)
Definition py_isdigit (c : ascii) : bool := in_range 48 57 c.

(** The class [\w] below 256: alphanumeric code points and the underscore. *)
Definition py_isword (c : ascii) : bool :=
  in_range 48 57 c || in_range 65 90 c || (code c =? 95)%nat || in_range 97 122 c
  || (code c =? 170)%nat || in_range 178 179 c || (code c =? 181)%nat
  || in_range 185 186 c || in_range 188 190 c || in_range 192 214 c
  || in_range 216 246 c || in_range 248 255 c.

Fixpoint lstrip (s : string) : string :=
  match s with
  | String c s' => if py_isspace c then lstrip s' else s
  | EmptyString => EmptyString
  end.

Fixpoint rstrip (s : string) : string :=
  match s with
  | String c s' =>
      match rstrip s' with
      | EmptyString => if py_isspace c then EmptyString else String c EmptyString
      | t => String c t
      end
  | EmptyString => EmptyString
  end.

(** [s.strip()] *)
Definition strip (s : string) : string := rstrip (lstrip s).

Definition newline : ascii := ascii_of_nat 10.

(** [s.split('\n')] *)
Fixpoint split_newline (s : string) : list string :=
  match s with
  | EmptyString => [EmptyString]
  | String c s' =>
      if Ascii.eqb c newline then EmptyString :: split_newline s'
      else match split_newline s' with
           | x :: xs => String c x :: xs
           | [] => [String c EmptyString]
           end
  end.

(** [s.startswith(p)] *)
Fixpoint startswith (s p : string) : bool :=
  match p, s with
  | EmptyString, _ => true
  | String a p', String b s' => Ascii.eqb a b && startswith s' p'
  | String _ _, EmptyString => false
  end.

(** [sep.join(l)] *)
Fixpoint join (sep : string) (l : list string) : string :=
  match l with
  | [] => EmptyString
  | [x] => x
  | x :: xs => x +:+ sep +:+ join sep xs
  end.

(** [str(n)] for a non-negative [int]. *)
Definition digit_char (n : nat) : ascii := ascii_of_nat (48 + n).

Fixpoint str_int_go (fuel n : nat) (acc : string) : string :=
  match fuel with
  | O => acc
  | S fuel' =>
      let acc' := String (digit_char (n mod 10)) acc in
      if (n <? 10)%nat then acc' else str_int_go fuel' (n / 10) acc'
  end.

Definition str_int (n : nat) : string := str_int_go (S n) n EmptyString.

Definition digit_value (c : ascii) : N := N.of_nat (code c - 48).

(** The value of a string of decimal digits, most significant first. *)
Fixpoint digits_value (acc : N) (s : string) : N :=
  match s with
  | EmptyString => acc
  | String c s' => digits_value (10 * acc + digit_value c) s'
  end.

(** Every character of [w] is in the class [p]. *)
Fixpoint all_chars (p : ascii -> bool) (w : string) : bool :=
  match w with
  | EmptyString => true
  | String c w' => p c && all_chars p w'
  end.

Definition all_digits (s : string) : bool := all_chars py_isdigit s.

(** [int(s)] on a non-empty string of decimal digits; any other text is
    answered with [ValueError]. *)
Definition py_int (s : string) : pyresult nat :=
  match s with
  | EmptyString => Raise ValueError
  | _ => if all_digits s then Ok (N.to_nat (digits_value 0 s)) else Raise ValueError
  end.

(** ** The fragment of [re] the converter uses

    Literals, the classes [\s], [\d] and [\w], sequencing, alternation,
    the greedy quantifiers [?] on a sub-pattern and [*], [+] on a single
    character class, and numbered capturing groups.  Matching backtracks
    as [re] does: the first alternative, the optional part and the longest
    repetition are tried first. *)

Inductive regex : Type :=
| Eps
| Lit (c : ascii)
| Cls (p : ascii -> bool)
| Seq (r1 r2 : regex)
| Alt (r1 r2 : regex)
| Opt (r : regex)
| Star (p : ascii -> bool)
| Plus (p : ascii -> bool)
| Group (n : nat) (r : regex).

Fixpoint lit (s : string) : regex :=
  match s with
  | EmptyString => Eps
  | String c s' => Seq (Lit c) (lit s')
  end.

Fixpoint seqs (l : list regex) : regex :=
  match l with
  | [] => Eps
  | r :: l' => Seq r (seqs l')
  end.

(** The text of each group that took part in the match. *)
Abbreviation captures := (gmap nat string).

(** The part of [s] read before the rest [s'] was reached. *)
Definition consumed (s s' : string) : string :=
  String.substring 0 (String.length s - String.length s') s.

Fixpoint star_match (p : ascii -> bool) (s : string)
    (k : string -> option captures) : option captures :=
  match s with
  | String c s' =>
      if p c then
        match star_match p s' k with
        | Some m => Some m
        | None => k s
        end
      else k s
  | EmptyString => k EmptyString
  end.

Fixpoint re_match (r : regex) (s : string) (caps : captures)
    (k : string -> captures -> option captures) : option captures :=
  match r with
  | Eps => k s caps
  | Lit c =>
      match s with
      | String c' s' => if Ascii.eqb c c' then k s' caps else None
      | EmptyString => None
      end
  | Cls p =>
      match s with
      | String c' s' => if p c' then k s' caps else None
      | EmptyString => None
      end
  | Seq r1 r2 => re_match r1 s caps (fun s' caps' => re_match r2 s' caps' k)
  | Alt r1 r2 =>
      match re_match r1 s caps k with
      | Some m => Some m
      | None => re_match r2 s caps k
      end
  | Opt r' =>
      match re_match r' s caps k with
      | Some m => Some m
      | None => k s caps
      end
  | Star p => star_match p s (fun s' => k s' caps)
  | Plus p =>
      match s with
      | String c s' => if p c then star_match p s' (fun s'' => k s'' caps) else None
      | EmptyString => None
      end
  | Group n r' => re_match r' s caps (fun s' caps' => k s' (<[n := consumed s s']> caps'))
  end.

(** [re.search(r, s)]: the match at the leftmost position that has one. *)
Fixpoint re_search (r : regex) (s : string) : option captures :=
  match re_match r s ∅ (fun _ caps => Some caps) with
  | Some m => Some m
  | None =>
      match s with
      | String _ s' => re_search r s'
      | EmptyString => None
      end
  end.

(** [m.group(n)] of a successful match. *)
Definition group (m : captures) (n : nat) : pyresult string :=
  match m !! n with
  | Some s => Ok s
  | None => Raise IndexError
  end.

(** The numerals [\d+ \.? \d*] and [-? \d+ \.? \d*] (here and below a
    pattern is printed with blanks between its tokens). *)
Definition unsigned_number : regex :=
  seqs [Plus py_isdigit; Opt (Lit "."); Star py_isdigit].
Definition signed_number : regex :=
  Seq (Opt (Lit "-")) unsigned_number.

(** Line 37: [Preamp: \s* ( -? \d+ \.? \d* ) \s* dB] *)
Definition preamp_pattern : regex :=
  seqs [lit "Preamp:"; Star py_isspace; Group 1 signed_number; Star py_isspace; lit "dB"].

(** Line 44: [Filter \s+ \d+ : \s+ ( ON | OFF ) \s+ ( \w+ ) \s+ Fc \s+
    ( \d+ \.? \d* ) \s* Hz \s+ Gain \s+ ( -? \d+ \.? \d* ) \s* dB \s+ Q \s+
    ( \d+ \.? \d* )] *)
Definition filter_pattern : regex :=
  seqs [lit "Filter"; Plus py_isspace; Plus py_isdigit; Lit ":"; Plus py_isspace;
        Group 1 (Alt (lit "ON") (lit "OFF")); Plus py_isspace;
        Group 2 (Plus py_isword); Plus py_isspace;
        lit "Fc"; Plus py_isspace; Group 3 unsigned_number; Star py_isspace;
        lit "Hz"; Plus py_isspace; lit "Gain"; Plus py_isspace;
        Group 4 signed_number; Star py_isspace; lit "dB"; Plus py_isspace;
        lit "Q"; Plus py_isspace; Group 5 unsigned_number].

(** Line 159: [Band ( \d+ )], with one blank after [Band]. *)
Definition band_pattern : regex :=
  seqs [lit "Band "; Group 1 (Plus py_isdigit)].

(** ** Floats

    The operations of Python's [float] that the converter uses.  A platform
    fixes what a float is, how decimal text is read and written, and what
    the functions of the [math] module answer. *)

Class PyFloat : Type := {
  float : Type;
  (** The float nearest to [(-1)^neg * m / 10^k], the value of a decimal
      numeral with [k] digits after the point. *)
  float_of_decimal : bool -> N -> nat -> float;
  (** [str(x)] *)
  float_str : float -> string;
  (** [x < y] *)
  float_lt : float -> float -> bool;
  (** [x - y] *)
  float_sub : float -> float -> float;
  (** [x / y], which raises [ZeroDivisionError] on a zero divisor *)
  float_div : float -> float -> pyresult float;
  (** [math.log(x)] and [math.log2(x)], which raise [ValueError] outside
      their domain *)
  math_log : float -> pyresult float;
  math_log2 : float -> pyresult float;
}.

(** The integer part of a numeral and, after the first point, the rest. *)
Fixpoint split_at_dot (s : string) : string * option string :=
  match s with
  | EmptyString => (EmptyString, None)
  | String c s' =>
      if Ascii.eqb c "."%char then (EmptyString, Some s')
      else let '(a, b) := split_at_dot s' in (String c a, b)
  end.

(** The digits of a numeral after its sign. *)
Definition float_of_body `{PyFloat} (neg : bool) (body : string) : pyresult float :=
  let '(ip, fp) := split_at_dot body in
  let fp := default EmptyString fp in
  if all_digits ip && all_digits fp
     && negb (String.length ip + String.length fp =? 0)%nat
  then Ok (float_of_decimal neg (digits_value 0 (ip +:+ fp)) (String.length fp))
  else Raise ValueError.

(** [float(s)] on plain decimal numerals: an optional sign, digits, and at
    most one point, with a digit on at least one side of it.  The forms
    with an exponent, [inf], [nan], underscores or blanks around the
    numeral are not modelled (the model answers [ValueError]); the patterns
    of the parser cannot capture any of them. *)
Definition py_float `{PyFloat} (s : string) : pyresult float :=
  match s with
  | String c t =>
      if Ascii.eqb c "-"%char then float_of_body true t
      else if Ascii.eqb c "+"%char then float_of_body false t
      else float_of_body false s
  | EmptyString => float_of_body false s
  end.

(** [for x in l: st = body(st, x)] *)
Fixpoint for_each {S A : Type} (body : S -> A -> pyresult S) (st : S) (l : list A)
    : pyresult S :=
  match l with
  | [] => Ok st
  | x :: l' => st' ← body st x; for_each body st' l'
  end.

(** [l[i]] for [0 <= i] *)
Definition list_index {A : Type} (l : list A) (i : nat) : pyresult A :=
  match l !! i with
  | Some x => Ok x
  | None => Raise IndexError
  end.

(** [d[k]] *)
Definition dict_index (d : gmap string string) (k : string) : pyresult string :=
  match d !! k with
  | Some v => Ok v
  | None => Raise KeyError
  end.

Section Converter.
Context {F : PyFloat}.

(** ** Data model (lines 8-23) *)

Record Filter : Type := {
  enabled : bool;
  filter_type : string;
  frequency : float;
  gain : float;
  q : float;
}.

Record EQPreset : Type := {
  preamp : float;
  filters : list Filter;
  name : string;
  author : string;
  tags : string;
}.

(** ** Parser (lines 26-62) *)

(** The state of the loop: the local variables [preamp] and [filters]. *)
Definition parse_state : Type := float * list Filter.

(** A line that was recognised as a filter: the record appended at line 54. *)
Definition filter_of_match (m : captures) : pyresult Filter :=
  g1 ← group m 1;
  let enabled := String.eqb g1 "ON" in
  filter_type ← group m 2;
  g3 ← group m 3;
  frequency ← py_float g3;
  g4 ← group m 4;
  gain ← py_float g4;
  g5 ← group m 5;
  q ← py_float g5;
  Ok {| enabled := enabled; filter_type := filter_type;
        frequency := frequency; gain := gain; q := q |}.

(** The body of the loop of line 32. *)
Definition parse_line (st : parse_state) (line : string) : pyresult parse_state :=
  let line := strip line in
  if startswith line "Preamp:" then
    match re_search preamp_pattern line with
    | Some m =>
        g1 ← group m 1;
        preamp ← py_float g1;
        Ok (preamp, st.2)
    | None => Ok st
    end
  else if startswith line "Filter" then
    match re_search filter_pattern line with
    | Some m =>
        filt ← filter_of_match m;
        Ok (st.1, st.2 ++ [filt])
    | None => Ok st
    end
  else Ok st.

Definition parse_text_preset (text : string) : pyresult EQPreset :=
  let lines := split_newline (strip text) in
  let preamp := float_of_decimal false 0 1 in
  let filters := [] in
  st ← for_each parse_line (preamp, filters) lines;
  Ok {| preamp := st.1; filters := st.2;
        name := EmptyString; author := EmptyString; tags := EmptyString |}.

(** ** Unit transforms (lines 65-94) *)

Definition frequency_to_proq4 (freq_hz : float) : pyresult float :=
  math_log2 freq_hz.

(** [min(a, b)] and [max(a, b)]: the first argument is kept unless the
    second is strictly smaller (larger). *)
Definition py_min (a b : float) : float := if float_lt b a then b else a.
Definition py_max (a b : float) : float := if float_lt a b then b else a.

Definition Q_MIN : float := float_of_decimal false 25 3.
Definition Q_MAX : float := float_of_decimal false 400 1.

Definition q_to_proq4 (q : float) (filter_type : string) : pyresult float :=
  let q := py_max Q_MIN (py_min Q_MAX q) in
  a ← math_log q;
  b ← math_log Q_MIN;
  c ← math_log Q_MAX;
  d ← math_log Q_MIN;
  let normalized := float_div (float_sub a b) (float_sub c d) in
  normalized.

Definition shape_mapping : gmap string nat :=
  list_to_map [("PK", 0); ("LSC", 1); ("LP", 2); ("HSC", 3); ("HP", 4)]%nat.

Definition filter_type_to_shape (filter_type : string) : nat :=
  default 0%nat (shape_mapping !! filter_type).

Definition preamp_to_output_level (preamp : float) : pyresult float :=
  float_div preamp (float_of_decimal false 360 1).

End Converter.

Arguments Filter F : clear implicits.
Arguments EQPreset F : clear implicits.

(** ** Default band parameters (lines 97-123) *)

(** The key [f'Band {band_num} <field>'] *)
Definition band_key (band_num : nat) (field : string) : string :=
  "Band " +:+ str_int band_num +:+ " " +:+ field.

Definition generate_default_band_params (band_num : nat) (used : bool)
    : gmap string string :=
  list_to_map [
    (band_key band_num "Used", if used then "1" else "0");
    (band_key band_num "Enabled", "1");
    (band_key band_num "Frequency", "9.96578407287598");
    (band_key band_num "Gain", "0");
    (band_key band_num "Q", "0.5");
    (band_key band_num "Shape", "0");
    (band_key band_num "Slope", "2");
    (band_key band_num "Stereo Placement", "2");
    (band_key band_num "Speakers", "1");
    (band_key band_num "Dynamic Range", "0");
    (band_key band_num "Dynamics Enabled", "1");
    (band_key band_num "Dynamics Auto", "1");
    (band_key band_num "Threshold", if negb used then "0.666666686534882" else "1");
    (band_key band_num "Attack", "50");
    (band_key band_num "Release", "50");
    (band_key band_num "External Side Chain", "0");
    (band_key band_num "Side Chain Filtering", "0");
    (band_key band_num "Side Chain Low Frequency",
       if negb used then "3.32192802429199" else "6.64385604858398");
    (band_key band_num "Side Chain High Frequency",
       if negb used then "14.287712097168" else "11.5507469177246");
    (band_key band_num "Side Chain Audition", "0");
    (band_key band_num "Spectral Enabled", "0");
    (band_key band_num "Spectral Density", "50");
    (band_key band_num "Solo", "0")
  ].

(** ** Emitter (lines 126-199) *)

(** The sort key of line 159: the band number read back from the key, then
    the key itself.  [re.search] answering [None] makes [.group] raise
    [AttributeError]. *)
Definition sort_key (x : string) : pyresult (nat * string) :=
  match re_search band_pattern x with
  | Some m =>
      g1 ← group m 1;
      n ← py_int g1;
      Ok (n, x)
  | None => Raise AttributeError
  end.

(** Tuples compare lexicographically, strings by code point. *)
Definition sort_key_leb (a b : nat * string) : bool :=
  (a.1 <? b.1)%nat || ((a.1 =? b.1)%nat && String.leb a.2 b.2).

Definition sort_key_le (a b : nat * string) : Prop := Is_true (sort_key_leb a b).

Fixpoint map_result {A B : Type} (f : A -> pyresult B) (l : list A) : pyresult (list B) :=
  match l with
  | [] => Ok []
  | x :: l' => y ← f x; ys ← map_result f l'; Ok (y :: ys)
  end.

(** [sorted(params.keys(), key=...)].  The keys of a dict are distinct and
    the sort key orders them totally, so the result does not depend on the
    order in which the dict lists them. *)
Definition sorted_keys (params : gmap string string) : pyresult (list string) :=
  keyed ← map_result sort_key (map_to_list params).*1;
  Ok (merge_sort sort_key_le keyed).*2.

Section Emitter.
Context {F : PyFloat}.

(** Lines 142-156: the parameters of band [i]. *)
Definition band_params (preset : EQPreset F) (i : nat) : pyresult (gmap string string) :=
  if (i <=? length (filters preset))%nat then
    filt ← list_index (filters preset) (i - 1);
    let params := generate_default_band_params i true in
    let params := <[band_key i "Used" := "1"]> params in
    let params := <[band_key i "Enabled" := if enabled filt then "1" else "0"]> params in
    freq ← frequency_to_proq4 (frequency filt);
    let params := <[band_key i "Frequency" := float_str freq]> params in
    let params := <[band_key i "Gain" := float_str (gain filt)]> params in
    qv ← q_to_proq4 (q filt) (filter_type filt);
    let params := <[band_key i "Q" := float_str qv]> params in
    let params := <[band_key i "Shape" := str_int (filter_type_to_shape (filter_type filt))]> params in
    Ok params
  else
    Ok (generate_default_band_params i false).

(** Lines 159-160: the lines of one band, appended to [lines]. *)
Definition write_band (params : gmap string string) (lines : list string)
    : pyresult (list string) :=
  keys ← sorted_keys params;
  for_each (fun lines key => v ← dict_index params key; Ok (lines ++ [key +:+ "=" +:+ v]))
    lines keys.

(** The body of the loop of line 141. *)
Definition band_loop (preset : EQPreset F) (lines : list string) (i : nat)
    : pyresult (list string) :=
  params ← band_params preset i;
  write_band params lines.

(** The body of the loop of line 191. *)
Definition tilt_loop (preset : EQPreset F) (lines : list string) (i : nat)
    : pyresult (list string) :=
  if (i <=? length (filters preset))%nat
  then Ok (lines ++ ["Band " +:+ str_int i +:+ " Spectral Tilt=1"])
  else Ok (lines ++ ["Band " +:+ str_int i +:+ " Spectral Tilt=0"]).

(** Lines 130-138.  For a [str], [preset.author or ""] is [preset.author]. *)
Definition header_lines (preset : EQPreset F) : list string :=
  ["[Preset]"; "Signature=FQ4p"; "Version=4";
   "Author=" +:+ author preset; "Tags=" +:+ tags preset; "";
   "[Parameters]"].

(** Lines 163-188, with the computed output level. *)
Definition global_lines (output_level : float) : list string :=
  ["Processing Mode=0"; "Processing Resolution=1"; "Character=0"; "Gain Scale=1";
   "Output Level=" +:+ float_str output_level;
   "Output Pan=0"; "Output Pan Mode=0"; "Bypass=0"; "Output Invert Phase=0";
   "Auto Gain=0";
   "Analyzer Show Pre-Processing=1"; "Analyzer Show Post-Processing=1";
   "Analyzer Show External Spectrum=1"; "Analyzer External Spectrum=-1";
   "Analyzer Range=2"; "Analyzer Resolution=3"; "Analyzer Speed=2";
   "Analyzer Tilt=0"; "Analyzer Freeze=0"; "Analyzer Show Collisions=0";
   "Spectrum Grab=0"; "Display Range=2"; "Receive Midi=0"; "Solo Gain=0"].

(** The list [lines] as it stands at line 199, before it is joined. *)
Definition eq_preset_lines (preset : EQPreset F) : pyresult (list string) :=
  let lines := header_lines preset in
  lines ← for_each (band_loop preset) lines (seq 1 24);
  output_level ← preamp_to_output_level (preamp preset);
  let lines := lines ++ global_lines output_level in
  lines ← for_each (tilt_loop preset) lines (seq 1 24);
  Ok (lines ++ [EmptyString]).

Definition eq_preset_to_ffp (preset : EQPreset F) : pyresult string :=
  lines ← eq_preset_lines preset;
  Ok (join (String newline EmptyString) lines).

(** ** Conversion of one text (lines 202-217)

    The files written so far are a map from path to content.  This is the
    conversion when the write of line 210 and the prints of lines 213-215
    succeed: the write is the insertion into the map.
    [Run.convert_text_to_ffp] below has the write and the prints as steps
    that can fail. *)
Definition with_metadata (preset : EQPreset F) (author tags : string) : EQPreset F :=
  {| preamp := preamp preset; filters := filters preset; name := name preset;
     author := author; tags := tags |}.

Definition convert_text_to_ffp (input_text output_file author tags : string)
    (files : gmap string string) : pyresult (gmap string string) :=
  preset ← parse_text_preset input_text;
  let preset := with_metadata preset author tags in
  ffp_content ← eq_preset_to_ffp preset;
  Ok (<[output_file := ffp_content]> files).

End Emitter.

(** ** The names of the files (lines 247-248)

    Paths are POSIX strings.  A file that [rglob] found is given by its
    directory and its name. *)

(** [s.rfind('.')], [None] for -1 *)
Fixpoint rfind_dot (s : string) : option nat :=
  match s with
  | EmptyString => None
  | String c s' =>
      match rfind_dot s' with
      | Some i => Some (S i)
      | None => if Ascii.eqb c "." then Some 0 else None
      end
  end.

(** [PurePath.stem] for the final component [name]: the name without its
    last suffix. *)
Definition stem (name : string) : string :=
  match rfind_dot name with
  | Some i =>
      if (0 <? i)%nat && (i <? String.length name - 1)%nat
      then String.substring 0 i name else name
  | None => name
  end.

(** [s.replace(old, new)] for a non-empty [old]: the occurrences are
    replaced from left to right, [skip] characters of the one just
    replaced being passed over. *)
Fixpoint replace_go (old new : string) (skip : nat) (s : string) : string :=
  match s with
  | EmptyString => EmptyString
  | String c s' =>
      match skip with
      | S k => replace_go old new k s'
      | O =>
          if startswith s old then new +:+ replace_go old new (String.length old - 1) s'
          else String c (replace_go old new 0 s')
      end
  end.

Definition str_replace (s old new : string) : string := replace_go old new 0 s.

(** A path that [rglob] found. *)
Record found_file : Type := {
  file_dir : string;
  file_name : string;
}.

(** [str(input_file)] *)
Definition input_path (f : found_file) : string := file_dir f +:+ "/" +:+ file_name f.

(** Lines 247-248: [str(output_dir_path / output_filename)] *)
Definition output_path (f : found_file) : string :=
  let output_filename := str_replace (stem (file_name f)) " ParametricEQ" "" +:+ ".ffp" in
  "presets" +:+ "/" +:+ output_filename.

(** ** The script with its input and output (lines 202-217 and 239-264)

    The conversion of one text and the loop of the driver, with the
    operations on files and on the standard output as steps that can
    fail.  The file system is a map from path to content, the text that
    [read] returns and [write] is given; paths are POSIX strings.  The
    environment decides, for the k-th operation of the run, whether it
    fails, and what a failing write leaves in its file.  An operation
    that fails raises an exception that [except Exception] catches
    ([OSError], [UnicodeError], ...).  [rglob] is not modelled: the loop
    runs over the list of the files that were found.  What is printed is
    not modelled, only that printing is a step that can fail; directories
    and signals are not modelled. *)
Module Run.

Record io_env : Type := {
  (** the k-th operation of the run fails *)
  fails : nat -> bool;
  (** what a write that fails as the k-th operation leaves in its file;
      [None]: the file is as it was *)
  debris : nat -> option string;
}.

(** The files, the number of operations so far, and the two counters of
    lines 239-240. *)
Record run_state : Type := {
  disk : gmap string string;
  steps : nat;
  converted_count : nat;
  failed_count : nat;
}.

Inductive io_exn : Type :=
  | Computation (e : pyexn)
  | IOFailure.

Inductive io_result (A : Type) : Type :=
  | Returned (a : A) (s : run_state)
  | Raised (e : io_exn) (s : run_state).
Arguments Returned {A} a s.
Arguments Raised {A} e s.

Definition io (A : Type) : Type := run_state -> io_result A.

#[global] Instance io_ret : MRet io := fun A a s => Returned a s.
#[global] Instance io_bind : MBind io := fun A B k m s =>
  match m s with
  | Returned a s' => k a s'
  | Raised e s' => Raised e s'
  end.

(** A computation without input or output. *)
Definition lift {A : Type} (r : pyresult A) : io A := fun s =>
  match r with
  | Ok a => Returned a s
  | Raise e => Raised (Computation e) s
  end.

(** [try: body except Exception as e: handler(e)] *)
Definition try_except {A : Type} (body : io A) (handler : io_exn -> io A) : io A := fun s =>
  match body s with
  | Returned a s' => Returned a s'
  | Raised e s' => handler e s'
  end.

(** [for x in xs: body(x)] *)
Fixpoint for_loop {A : Type} (xs : list A) (body : A -> io unit) : io unit :=
  match xs with
  | [] => mret tt
  | x :: xs' => _ ← body x; for_loop xs' body
  end.

Definition tick (s : run_state) : run_state :=
  {| disk := disk s; steps := S (steps s);
     converted_count := converted_count s; failed_count := failed_count s |}.

Definition set_disk (d : gmap string string) (s : run_state) : run_state :=
  {| disk := d; steps := steps s;
     converted_count := converted_count s; failed_count := failed_count s |}.

(** [converted_count += 1] and [failed_count += 1] *)
Definition add_converted : io unit := fun s =>
  Returned tt {| disk := disk s; steps := steps s;
                 converted_count := S (converted_count s); failed_count := failed_count s |}.

Definition add_failed : io unit := fun s =>
  Returned tt {| disk := disk s; steps := steps s;
                 converted_count := converted_count s; failed_count := S (failed_count s) |}.

Section Script.
Context {F : PyFloat}.
Variable env : io_env.

(** [with open(path, 'r', encoding='utf-8') as f: f.read()] *)
Definition read_file (path : string) : io string := fun s =>
  if fails env (steps s) then Raised IOFailure (tick s)
  else match disk s !! path with
       | Some text => Returned text (tick s)
       | None => Raised IOFailure (tick s)
       end.

(** [with open(path, 'w', encoding='utf-8') as f: f.write(content)] *)
Definition write_file (path content : string) : io unit := fun s =>
  if fails env (steps s) then
    Raised IOFailure
      (tick match debris env (steps s) with
            | Some rest => set_disk (<[path := rest]> (disk s)) s
            | None => s
            end)
  else Returned tt (tick (set_disk (<[path := content]> (disk s)) s)).

(** [print(...)] *)
Definition print : io unit := fun s =>
  if fails env (steps s) then Raised IOFailure (tick s) else Returned tt (tick s).

(** Lines 202-217. *)
Definition convert_text_to_ffp (input_text output_file author tags : string) : io unit :=
  preset ← lift (parse_text_preset input_text);
  let preset := with_metadata preset author tags in
  ffp_content ← lift (eq_preset_to_ffp preset);
  _ ← write_file output_file ffp_content;
  _ ← print;
  _ ← print;
  print.

(** The body of the loop, lines 243-264. *)
Definition convert_file (input_file : found_file) : io unit :=
  try_except
    (input_text ← read_file (input_path input_file);
     _ ← convert_text_to_ffp input_text (output_path input_file) "JRoot3D" "Calibration";
     _ ← add_converted;
     print)
    (fun e => _ ← print; add_failed).

(** Lines 242-264 on the files that were found. *)
Definition convert_all (parametric_eq_files : list found_file) : io unit :=
  for_loop parametric_eq_files convert_file.

End Script.

(** The state before the loop, lines 239-240. *)
Definition initial (fs : gmap string string) : run_state :=
  {| disk := fs; steps := 0; converted_count := 0; failed_count := 0 |}.

End Run.

(** ** The ideal platform: exact real arithmetic

    Floats are real numbers, reading a numeral is exact, and [math.log],
    [math.log2] are the real logarithms on the positive reals.  How a float
    is written as text is left to the parameter [fmt]. *)

#[global] Instance Rlt_decision (x y : R) : Decision (x < y)%R := Rlt_dec x y.
#[global] Instance Req_decision : EqDecision R := Req_dec_T.

Definition decimal_value (neg : bool) (m : N) (k : nat) : R :=
  ((if neg then - IZR (Z.of_N m) else IZR (Z.of_N m)) / 10 ^ k)%R.

Definition ideal (fmt : R -> string) : PyFloat := {|
  float := R;
  float_of_decimal := decimal_value;
  float_str := fmt;
  float_lt x y := bool_decide (x < y)%R;
  float_sub x y := (x - y)%R;
  float_div x y := if decide (y = 0%R) then Raise ZeroDivisionError else Ok (x / y)%R;
  math_log x := if decide (0 < x)%R then Ok (ln x) else Raise ValueError;
  math_log2 x := if decide (0 < x)%R then Ok (ln x / ln 2)%R else Raise ValueError;
|}.

(** ** The binary64 platform: IEEE 754 doubles

    Floats are the kernel's binary64 numbers.  A numeral is read with
    correct rounding (to nearest, ties to even) and a float is written as
    [repr] writes it: the shortest decimal that reads back as the same
    float.  The logarithms of the C library are parameters. *)

Module Binary64.

(** The integer nearest to [n / d] for [d > 0], ties to even. *)
Definition round_half_even (n d : Z) : Z :=
  let q := (n / d)%Z in
  let r := (n mod d)%Z in
  if (2 * r <? d)%Z then q
  else if (d <? 2 * r)%Z then (q + 1)%Z
  else if Z.even q then q else (q + 1)%Z.

(** [n / (d * 2^e)] as a fraction of integers. *)
Definition scaled (n d e : Z) : Z * Z :=
  if (0 <=? e)%Z then (n, d * 2 ^ e)%Z else (n * 2 ^ (- e), d)%Z.

Definition of_Z (m : Z) : PrimFloat.float := PrimFloat.of_uint63 (Uint63.of_Z m).

(** The double nearest to [n / d], for [0 <= n] and [0 < d]. *)
Definition of_ratio (n d : Z) : PrimFloat.float :=
  if (n =? 0)%Z then PrimFloat.zero
  else
    let e0 := (Z.log2 n - Z.log2 d - 52)%Z in
    let '(n0, d0) := scaled n d e0 in
    let e1 := if (n0 / d0 <? 2 ^ 52)%Z then (e0 - 1)%Z else e0 in
    let e := Z.max e1 (-1074) in
    let '(n1, d1) := scaled n d e in
    Z.ldexp (of_Z (round_half_even n1 d1)) e.

Definition of_decimal (neg : bool) (m : N) (k : nat) : PrimFloat.float :=
  let x := of_ratio (Z.of_N m) (10 ^ Z.of_nat k) in
  if neg then PrimFloat.opp x else x.

(** Decimal digits of a non-negative integer, most significant first. *)
Fixpoint digits_go (fuel : nat) (n : Z) (acc : string) : string :=
  match fuel with
  | O => acc
  | S fuel' =>
      let acc' := String (digit_char (Z.to_nat (n mod 10))) acc in
      if (n <? 10)%Z then acc' else digits_go fuel' (n / 10)%Z acc'
  end.

Definition digits_of (n : Z) : string :=
  digits_go (S (Z.to_nat (Z.log2 n))) n EmptyString.

Fixpoint strip_zeros_rev (s : list ascii) : list ascii :=
  match s with
  | c :: s' => if Ascii.eqb c "0"%char then strip_zeros_rev s' else s
  | [] => []
  end.

Definition string_rev (s : string) : list ascii := rev (list_ascii_of_string s).

(** The text without its trailing zeros. *)
Definition strip_trailing_zeros (s : string) : string :=
  string_of_list_ascii (rev (strip_zeros_rev (string_rev s))).

Fixpoint zeros (n : nat) : string :=
  match n with
  | O => EmptyString
  | S n' => String "0"%char (zeros n')
  end.

(** [v >= 10^p] for [v = n / d]. *)
Definition ge_pow10 (n d p : Z) : bool :=
  if (0 <=? p)%Z then (d * 10 ^ p <=? n)%Z else (d <=? n * 10 ^ (- p))%Z.

Fixpoint decpt_search (fuel : nat) (n d p : Z) : Z :=
  match fuel with
  | O => p
  | S fuel' => if ge_pow10 n d p then decpt_search fuel' n d (p + 1) else p
  end.

(** The [p] with [10^(p-1) <= n / d < 10^p]. *)
Definition decpt_of (n d : Z) : Z :=
  let p0 := ((Z.log2 n - Z.log2 d) * 30103 / 100000 - 2)%Z in
  decpt_search 8 n d p0.

(** [v * 10^(k - p)] as a fraction, for [v = n / d]: [v] moved so that [k]
    digits stand before the point. *)
Definition shifted (n d p : Z) (k : nat) : Z * Z :=
  let s := (Z.of_nat k - p)%Z in
  if (0 <=? s)%Z then (n * 10 ^ s, d)%Z else (n, d * 10 ^ (- s))%Z.

(** The float that the [k]-digit decimal [c * 10^(p - k)] reads as. *)
Definition read_back (c p : Z) (k : nat) : PrimFloat.float :=
  let s := (p - Z.of_nat k)%Z in
  if (0 <=? s)%Z then of_ratio (c * 10 ^ s) 1 else of_ratio c (10 ^ (- s)).

(** The [k]-digit decimal that reads back as [x = n / d] and is nearest to
    it, if there is one: [(c, p)] stands for [c * 10^(p - k)]. *)
Definition candidate (x : PrimFloat.float) (n d p : Z) (k : nat) : option Z :=
  let '(a, b) := shifted n d p k in
  let lo := (a / b)%Z in
  let hi := if (a mod b =? 0)%Z then lo else (lo + 1)%Z in
  let ok c := PrimFloat.eqb (read_back c p k) x in
  match ok lo, ok hi with
  | true, true => Some (if (round_half_even a b =? lo)%Z then lo else hi)
  | true, false => Some lo
  | false, true => Some hi
  | false, false => None
  end.

Fixpoint shortest (fuel : nat) (x : PrimFloat.float) (n d p : Z) (k : nat) : Z * nat :=
  match fuel with
  | O => (round_half_even (shifted n d p k).1 (shifted n d p k).2, k)
  | S fuel' =>
      match candidate x n d p k with
      | Some c => (c, k)
      | None => shortest fuel' x n d p (S k)
      end
  end.

(** The digits and the position of the point, as [repr] lays them out:
    exponent notation when the point falls more than 16 digits to the
    right or 4 or more to the left of the first digit, and [.0] after an
    integer. *)
Definition layout (digits : string) (decpt : Z) : string :=
  let nd := Z.of_nat (String.length digits) in
  if ((decpt <=? -4) || (16 <? decpt))%Z then
    let e := (decpt - 1)%Z in
    let mant :=
      match digits with
      | String c EmptyString => String c EmptyString
      | String c rest => String c (String "."%char rest)
      | EmptyString => EmptyString
      end in
    let ae := digits_of (Z.abs e) in
    let ae := if (String.length ae <? 2)%nat then String "0"%char ae else ae in
    mant +:+ "e" +:+ (if (e <? 0)%Z then "-" else "+") +:+ ae
  else if (decpt <=? 0)%Z then
    "0." +:+ zeros (Z.to_nat (- decpt)) +:+ digits
  else if (decpt <? nd)%Z then
    String.substring 0 (Z.to_nat decpt) digits +:+ "." +:+
    String.substring (Z.to_nat decpt) (Z.to_nat (nd - decpt)) digits
  else
    digits +:+ zeros (Z.to_nat (decpt - nd)) +:+ ".0".

(** [repr] of the positive finite float [x = m * 2^e]. *)
Definition repr_finite (x : PrimFloat.float) (m : positive) (e : Z) : string :=
  let '(n, d) := scaled (Z.pos m) 1 (- e) in
  let p := decpt_of n d in
  let '(c, k) := shortest 17 x n d p 1 in
  (* [c] may have been rounded up to [10^k], one digit more *)
  let cs := digits_of c in
  let p' := (p + (Z.of_nat (String.length cs) - Z.of_nat k))%Z in
  layout (strip_trailing_zeros cs) p'.

(** [repr(x)], which is also [str(x)]. *)
Definition repr (x : PrimFloat.float) : string :=
  match Prim2SF x with
  | S754_nan => "nan"
  | S754_infinity false => "inf"
  | S754_infinity true => "-inf"
  | S754_zero false => "0.0"
  | S754_zero true => "-0.0"
  | S754_finite s m e =>
      (if s then "-" else "") +:+ repr_finite (PrimFloat.abs x) m e
  end.

(** The logarithms of the platform's C library. *)
Record Libm : Type := {
  libm_log : PrimFloat.float -> PrimFloat.float;
  libm_log2 : PrimFloat.float -> PrimFloat.float;
}.

(** CPython's wrapper of a logarithm ([m_log], [m_log2] and [math_1] of
    [mathmodule.c]): the C function is called on the positive finite
    floats only; [nan] and [inf] are passed through; zero, the negative
    floats and a result that is [nan] or infinite for a finite argument
    are a domain error. *)
Definition checked_log (f : PrimFloat.float -> PrimFloat.float) (x : PrimFloat.float)
    : pyresult PrimFloat.float :=
  if PrimFloat.is_finite x then
    if PrimFloat.ltb PrimFloat.zero x then
      let r := f x in
      if PrimFloat.is_nan r || PrimFloat.is_infinity r then Raise ValueError else Ok r
    else Raise ValueError
  else if PrimFloat.is_nan x then Ok x
  else if PrimFloat.ltb PrimFloat.zero x then Ok x
  else Raise ValueError.

End Binary64.

Definition binary64 (libm : Binary64.Libm) : PyFloat := {|
  float := PrimFloat.float;
  float_of_decimal := Binary64.of_decimal;
  float_str := Binary64.repr;
  float_lt := PrimFloat.ltb;
  float_sub := PrimFloat.sub;
  float_div x y :=
    if PrimFloat.is_zero y then Raise ZeroDivisionError else Ok (PrimFloat.div x y);
  math_log := Binary64.checked_log (Binary64.libm_log libm);
  math_log2 := Binary64.checked_log (Binary64.libm_log2 libm);
|}.

(** * Vocabulary of the statements

    Nothing below is part of the converter: these definitions name what
    the theorems talk about. *)

(** ** Patterns *)

(** The texts that a pattern matches, captures aside. *)
Fixpoint lang (r : regex) (w : string) : Prop :=
  match r with
  | Eps => w = ""
  | Lit c => w = String c ""
  | Cls p => exists c, p c = true /\ w = String c ""
  | Seq r1 r2 => exists w1 w2, w = w1 +:+ w2 /\ lang r1 w1 /\ lang r2 w2
  | Alt r1 r2 => lang r1 w \/ lang r2 w
  | Opt r' => lang r' w \/ w = ""
  | Star p => all_chars p w = true
  | Plus p => exists c w', w = String c w' /\ p c = true /\ all_chars p w' = true
  | Group _ r' => lang r' w
  end.

(** The groups that every match of the pattern sets. *)
Fixpoint sets_group (n : nat) (r : regex) : bool :=
  match r with
  | Seq r1 r2 => sets_group n r1 || sets_group n r2
  | Alt r1 r2 => sets_group n r1 && sets_group n r2
  | Group m r' => (n =? m)%nat || sets_group n r'
  | _ => false
  end.

(** Every group of the pattern holds a text with the property [P]. *)
Fixpoint groups_in (P : nat -> string -> Prop) (r : regex) : Prop :=
  match r with
  | Seq r1 r2 | Alt r1 r2 => groups_in P r1 /\ groups_in P r2
  | Opt r' => groups_in P r'
  | Group n r' => (forall w, lang r' w -> P n w) /\ groups_in P r'
  | _ => True
  end.

Definition caps_in (P : nat -> string -> Prop) (caps : captures) : Prop :=
  forall n w, caps !! n = Some w -> P n w.

(** What the groups of the two line patterns hold. *)
Definition filter_groups (n : nat) (w : string) : Prop :=
  match n with
  | 3 | 5 => lang unsigned_number w
  | 4 => lang signed_number w
  | _ => True
  end.

Definition preamp_groups (n : nat) (w : string) : Prop :=
  match n with
  | 1 => lang signed_number w
  | _ => True
  end.

(** The filter pattern after the colon that ends the filter number. *)
Definition filter_pattern_tail : regex :=
  seqs [Plus py_isspace;
        Group 1 (Alt (lit "ON") (lit "OFF")); Plus py_isspace;
        Group 2 (Plus py_isword); Plus py_isspace;
        lit "Fc"; Plus py_isspace; Group 3 unsigned_number; Star py_isspace;
        lit "Hz"; Plus py_isspace; lit "Gain"; Plus py_isspace;
        Group 4 signed_number; Star py_isspace; lit "dB"; Plus py_isspace;
        lit "Q"; Plus py_isspace; Group 5 unsigned_number].

(** ** Bands and lines *)

(** The field names of a band in the order in which they are written. *)
Definition band_fields : list string :=
  ["Attack"; "Dynamic Range"; "Dynamics Auto"; "Dynamics Enabled"; "Enabled";
   "External Side Chain"; "Frequency"; "Gain"; "Q"; "Release"; "Shape";
   "Side Chain Audition"; "Side Chain Filtering"; "Side Chain High Frequency";
   "Side Chain Low Frequency"; "Slope"; "Solo"; "Speakers"; "Spectral Density";
   "Spectral Enabled"; "Stereo Placement"; "Threshold"; "Used"].

(** The fields that lines 148-153 assign. *)
Definition overwritten_fields : list string :=
  ["Used"; "Enabled"; "Frequency"; "Gain"; "Q"; "Shape"].

(** The fields whose default depends on the [used] flag. *)
Definition flag_dependent_fields : list string :=
  ["Used"; "Threshold"; "Side Chain Low Frequency"; "Side Chain High Frequency"].

(** The default value of each field (lines 99-121), keyed by field name. *)
Definition default_fields (used : bool) : gmap string string :=
  list_to_map [
    ("Used", if used then "1" else "0");
    ("Enabled", "1");
    ("Frequency", "9.96578407287598");
    ("Gain", "0");
    ("Q", "0.5");
    ("Shape", "0");
    ("Slope", "2");
    ("Stereo Placement", "2");
    ("Speakers", "1");
    ("Dynamic Range", "0");
    ("Dynamics Enabled", "1");
    ("Dynamics Auto", "1");
    ("Threshold", if negb used then "0.666666686534882" else "1");
    ("Attack", "50");
    ("Release", "50");
    ("External Side Chain", "0");
    ("Side Chain Filtering", "0");
    ("Side Chain Low Frequency",
       if negb used then "3.32192802429199" else "6.64385604858398");
    ("Side Chain High Frequency",
       if negb used then "14.287712097168" else "11.5507469177246");
    ("Side Chain Audition", "0");
    ("Spectral Enabled", "0");
    ("Spectral Density", "50");
    ("Solo", "0")
  ].

(** The lines [key=value] of band [i], read off the dict [params]. *)
Definition block_lines (i : nat) (params : gmap string string) : list string :=
  (fun f => band_key i f +:+ "=" +:+ default "" (params !! band_key i f)) <$> band_fields.

(** The dict of a band that has a filter, after lines 148-153. *)
Definition used_band_params (i : nat) (en fr ga qv sh : string) : gmap string string :=
  <[band_key i "Shape" := sh]> (<[band_key i "Q" := qv]> (<[band_key i "Gain" := ga]>
  (<[band_key i "Frequency" := fr]> (<[band_key i "Enabled" := en]>
  (<[band_key i "Used" := "1"]> (generate_default_band_params i true)))))).

(** One line of line 160. *)
Definition band_line (params : gmap string string) (key : string) : pyresult string :=
  v ← dict_index params key; Ok (key +:+ "=" +:+ v).

(** The lines that [write_band] appends. *)
Definition block_of (params : gmap string string) : pyresult (list string) :=
  keys ← sorted_keys params; map_result (band_line params) keys.

(** The key of a line [key=value]: the text before the first [=]. *)
Fixpoint line_key (l : string) : string :=
  match l with
  | EmptyString => EmptyString
  | String c l' => if Ascii.eqb c "=" then EmptyString else String c (line_key l')
  end.

(** The lines of band [N] in the output: 23 lines after the 7 header lines
    and the blocks of the bands before it. *)
Definition band_block (L : list string) (N : nat) : list string :=
  take 23 (drop (7 + 23 * (N - 1)) L).

(** A line whose key is a parameter of a band, whatever its number: the
    key reads [Band n field] for the number [n] found in it and one of the
    23 fields. *)
Definition is_band_parameter_line (l : string) : bool :=
  match sort_key (line_key l) with
  | Ok (n, key) => bool_decide (key ∈ band_key n <$> band_fields)
  | Raise _ => false
  end.

(** A line whose key is the spectral tilt of a band, whatever its number. *)
Definition is_tilt_line (l : string) : bool :=
  match sort_key (line_key l) with
  | Ok (n, key) => String.eqb key (band_key n "Spectral Tilt")
  | Raise _ => false
  end.

(** Each text is smaller than the next one, in the order of [str]. *)
Fixpoint ascending (l : list string) : bool :=
  match l with
  | a :: (b :: _) as l' => String.ltb a b && ascending l'
  | _ => true
  end.

(** The clamped Q of line 74, as a real number. *)
Definition clamp_q (q : R) : R := Rmax 0.025 (Rmin 40 q).

(** A double that is not negative and not [nan]. *)
Definition sf_nonneg (x : spec_float) : Prop :=
  match x with
  | S754_zero _ => True
  | S754_infinity s | S754_finite s _ _ => s = false
  | S754_nan => False
  end.

(** ** Sample inputs *)

(** A preamp line, a filter that is ON, a line that is not recognised and
    a filter that is OFF. *)
Definition sample_text : string :=
  "Preamp: -2.5 dB
Filter 1: ON PK Fc 1000 Hz Gain 3.0 dB Q 1.0
# comment
Filter 2: OFF LSC Fc 105 Hz Gain -8.2 dB Q 0.70
".

(** A preamp line and one filter. *)
Definition round_trip_text : string :=
  "Preamp: -2.5 dB
Filter 1: ON PK Fc 1000 Hz Gain 3.0 dB Q 1.0
".

(** Twenty-four filters at 100 Hz and a twenty-fifth at 0 Hz. *)
Definition crowded_text : string :=
  join (String newline EmptyString)
    (replicate 24 "Filter 1: ON PK Fc 100 Hz Gain 1 dB Q 1"
     ++ ["Filter 25: ON PK Fc 0 Hz Gain 1 dB Q 1"]).

(** One filter at 0 Hz with a negative gain. *)
Definition silent_text : string := "Filter 1: ON PK Fc 0 Hz Gain -3 dB Q 1".

Section Vocabulary.
Context {F : PyFloat}.

(** A record whose numbers were read from numerals of the filter pattern:
    unsigned for the frequency and Q, optionally signed for the gain. *)
Definition parsed_filter (f : Filter F) : Prop :=
  (exists m k, frequency f = float_of_decimal false m k)
  /\ (exists neg m k, gain f = float_of_decimal neg m k)
  /\ (exists m k, q f = float_of_decimal false m k).

(** What a line contributes to the list of filters. *)
Definition filter_of_line (line : string) : option (Filter F) :=
  let line := strip line in
  if startswith line "Preamp:" then None
  else if startswith line "Filter" then
    match re_search filter_pattern line with
    | Some m =>
        match filter_of_match m with
        | Ok filt => Some filt
        | Raise _ => None
        end
    | None => None
    end
  else None.

(** What a line contributes to the preamp. *)
Definition preamp_of_line (line : string) : option float :=
  let line := strip line in
  if startswith line "Preamp:" then
    match re_search preamp_pattern line with
    | Some m =>
        match g1 ← group m 1; py_float g1 with
        | Ok x => Some x
        | Raise _ => None
        end
    | None => None
    end
  else None.

(** The line of band [i] in the last part of the output. *)
Definition tilt_line (preset : EQPreset F) (i : nat) : string :=
  "Band " +:+ str_int i +:+ " Spectral Tilt="
    +:+ (if (i <=? length (filters preset))%nat then "1" else "0").

(** The preset without the filters that have no band. *)
Definition drop_extra_filters (preset : EQPreset F) : EQPreset F :=
  {| preamp := preamp preset; filters := take 24 (filters preset);
     name := name preset; author := author preset; tags := tags preset |}.

(** The dict of band [i] when the band has the filter [filt], with the
    transformed frequency [fr] and Q [qv]. *)
Definition filter_band_params (i : nat) (filt : Filter F) (fr qv : float)
    : gmap string string :=
  used_band_params i (if enabled filt then "1" else "0") (float_str fr)
    (float_str (gain filt)) (float_str qv)
    (str_int (filter_type_to_shape (filter_type filt))).

(** The presets that the sample inputs parse to. *)
Definition sample_preset : EQPreset F :=
  {| preamp := float_of_decimal true 25 1;
     filters :=
       [ {| enabled := true; filter_type := "PK";
            frequency := float_of_decimal false 1000 0;
            gain := float_of_decimal false 30 1;
            q := float_of_decimal false 10 1 |};
         {| enabled := false; filter_type := "LSC";
            frequency := float_of_decimal false 105 0;
            gain := float_of_decimal true 82 1;
            q := float_of_decimal false 70 2 |} ];
     name := ""; author := ""; tags := "" |}.

Definition round_trip_preset : EQPreset F :=
  {| preamp := float_of_decimal true 25 1;
     filters :=
       [ {| enabled := true; filter_type := "PK";
            frequency := float_of_decimal false 1000 0;
            gain := float_of_decimal false 30 1;
            q := float_of_decimal false 10 1 |} ];
     name := ""; author := ""; tags := "" |}.

Definition crowded_filter (m : N) : Filter F :=
  {| enabled := true; filter_type := "PK";
     frequency := float_of_decimal false m 0;
     gain := float_of_decimal false 1 0;
     q := float_of_decimal false 1 0 |}.

Definition crowded_preset : EQPreset F :=
  {| preamp := float_of_decimal false 0 1;
     filters := replicate 24 (crowded_filter 100) ++ [crowded_filter 0];
     name := ""; author := ""; tags := "" |}.

Definition silent_filter : Filter F :=
  {| enabled := true; filter_type := "PK";
     frequency := float_of_decimal false 0 0;
     gain := float_of_decimal true 3 0;
     q := float_of_decimal false 1 0 |}.

Definition silent_preset : EQPreset F :=
  {| preamp := float_of_decimal false 0 1; filters := [silent_filter];
     name := ""; author := ""; tags := "" |}.

(** The preset of an input without a preamp line and without filters. *)
Definition empty_preset : EQPreset F :=
  {| preamp := float_of_decimal false 0 1; filters := [];
     name := ""; author := ""; tags := "" |}.

End Vocabulary.

(** A stand-in for the C library, to run the binary64 platform on sample
    inputs: [log2] answers the double written 9.965784284662087, which is
    what [math.log2(1000.0)] prints, and [log] answers its argument. *)
Definition table_libm : Binary64.Libm :=
  {| Binary64.libm_log := fun x => x;
     Binary64.libm_log2 := fun _ => Binary64.of_decimal false 9965784284662087 15 |}.

(** ** Lines, blanks and found files *)

(** The text is empty or starts outside the class [p]. *)
Definition no_start (p : ascii -> bool) (s : string) : Prop :=
  match s with
  | String c _ => p c = false
  | EmptyString => True
  end.

(** A numeral is read whole when what follows is neither a digit nor a
    point. *)
Definition numeral_char (c : ascii) : bool := py_isdigit c || Ascii.eqb "." c.

(** The captures of a filter line: the five groups of the pattern. *)
Definition filter_captures (onoff T f g q : string) : captures :=
  <[5 := q]> (<[4 := g]> (<[3 := f]> (<[2 := T]> (<[1 := onoff]> ∅)))).

(** No blank in the text. *)
Definition no_space (a : string) : bool := all_chars (fun c => negb (py_isspace c)) a.

(** A filter line as AutoEq writes it, with one blank between the fields
    and any text [rest] after the Q value. *)
Definition filter_line (n : string) (on : bool) (T f g q rest : string) : string :=
  "Filter " +:+ n +:+ ": " +:+ (if on then "ON" else "OFF") +:+ " " +:+ T +:+ " Fc " +:+ f
  +:+ " Hz Gain " +:+ g +:+ " dB Q " +:+ q +:+ rest.

(** Only blanks. *)
Definition blank (w : string) : bool := all_chars py_isspace w.

(** The lines of [a ++ b] from those of [a] and of [b]: the last line of
    [a] and the first of [b] are one line. *)
Fixpoint glue (l1 l2 : list string) : list string :=
  match l1 with
  | [] => l2
  | [x] => match l2 with
           | y :: ys => (x +:+ y) :: ys
           | [] => [x]
           end
  | x :: xs => x :: glue xs l2
  end.

(** The text with a carriage return before every line feed. *)
Fixpoint crlf (s : string) : string :=
  match s with
  | EmptyString => EmptyString
  | String c s' =>
      if Ascii.eqb c newline then String (ascii_of_nat 13) (String newline (crlf s'))
      else String c (crlf s')
  end.

(** No line feed in the text. *)
Definition one_line (l : string) : bool := all_chars (fun c => negb (Ascii.eqb c newline)) l.

(** A carriage return at the end of every line but the last. *)
Fixpoint add_cr (l : list string) : list string :=
  match l with
  | [] => []
  | [x] => [x]
  | x :: l' => (x +:+ String (ascii_of_nat 13) "") :: add_cr l'
  end.

(** The preset that a list of lines gives. *)
Definition preset_of_lines {F : PyFloat} (ls : list string) : EQPreset F :=
  {| preamp := default (float_of_decimal false 0 1) (last (omap preamp_of_line ls));
     filters := omap filter_of_line ls;
     name := ""; author := ""; tags := "" |}.

(** The two transforms of a filter in the order of lines 150-152: the
    frequency first, then Q. *)
Definition transforms {F : PyFloat} (filt : Filter F) : pyresult (float * float) :=
  fr ← frequency_to_proq4 (frequency filt);
  qv ← q_to_proq4 (q filt) (filter_type filt);
  Ok (fr, qv).

(** [log] answers a finite double for every positive finite double. *)
Definition finite_log (libm : Binary64.Libm) : Prop :=
  forall x, PrimFloat.is_finite x = true -> PrimFloat.ltb PrimFloat.zero x = true ->
    PrimFloat.is_finite (Binary64.libm_log libm x) = true.

(** The clamped Q of line 74. *)
Definition clamped {F : PyFloat} (q : float) : float := py_max Q_MIN (py_min Q_MAX q).

(** The known filter types. *)
Definition known_types : list string := ["PK"; "LSC"; "LP"; "HSC"; "HP"].

(** [p] occurs in [s]. *)
Fixpoint occurs (p s : string) : bool :=
  startswith s p ||
  match s with
  | String _ s' => occurs p s'
  | EmptyString => false
  end.

(** The text written for a found file, when it can be read and converted. *)
Definition conversion {F : PyFloat} (fs : gmap string string) (f : found_file)
    : option string :=
  match fs !! input_path f with
  | Some input_text =>
      match parse_text_preset input_text with
      | Ok preset =>
          match eq_preset_to_ffp (with_metadata preset "JRoot3D" "Calibration") with
          | Ok content => Some content
          | Raise _ => None
          end
      | Raise _ => None
      end
  | None => None
  end.

(** What the files hold after the found files [l] were handled, when the
    inputs are read from [fs]. *)
Definition write_all {F : PyFloat} (fs : gmap string string) (l : list found_file)
    (m : gmap string string) : gmap string string :=
  foldl (fun m f => match conversion fs f with
                    | Some c => <[output_path f := c]> m
                    | None => m
                    end) m l.

(** The inputs are read as they were at the start when none of them lies
    under [presets/]. *)
Definition agree (m fs : gmap string string) : Prop :=
  forall p, startswith p "presets/" = false -> m !! p = fs !! p.

(** Two found files for the driver: the first holds a filter at
    0 Hz, the second the round trip input. *)
Definition sample_found : list found_file :=
  [ {| file_dir := "results/a"; file_name := "A ParametricEQ.txt" |};
    {| file_dir := "results/b"; file_name := "B ParametricEQ.txt" |} ].

(** The files of the two inputs. *)
Definition sample_disk : gmap string string :=
  {[ "results/a/A ParametricEQ.txt" := silent_text;
     "results/b/B ParametricEQ.txt" := round_trip_text ]}.

(** ** Doubles in their order, and the run of the script *)

(** The power of two of an exponent, as a real number. *)
Definition b2 (e : Z) : R := powerRZ 2 e.

(** The real number that a double stands for in the order of the doubles:
    its value when it is finite, the power of two above every finite double
    for an infinity. *)
Definition SF2R (x : spec_float) : R :=
  match x with
  | S754_finite s m e => ((if s then - IZR (Zpos m) else IZR (Zpos m)) * b2 e)%R
  | S754_infinity s => if s then (- b2 1024)%R else b2 1024
  | _ => 0%R
  end.

(** [X] lies in the interval that starts at [m * 2^e] and is [2^e] long,
    at the place that [l] tells. *)
Definition located (X : R) (m e : Z) (l : location) : Prop :=
  match l with
  | loc_Exact => (X = IZR m * b2 e)%R
  | loc_Inexact Lt => (IZR m * b2 e < X < (IZR m + /2) * b2 e)%R
  | loc_Inexact Eq => (X = (IZR m + /2) * b2 e)%R
  | loc_Inexact Gt => ((IZR m + /2) * b2 e < X < (IZR m + 1) * b2 e)%R
  end.

(** The exponent of the doubles of a magnitude. *)
Definition fexp64 (e : Z) : Z := SpecFloat.fexp prec emax e.

(** What [binary_round_aux] answers once the mantissa is rounded to [m] at
    the exponent [e]: one more shift when the rounding carried into a
    54th bit, an infinity above the largest exponent. *)
Definition finish (m e : Z) : spec_float :=
  if (m =? 0)%Z then S754_zero false
  else if (m <? 2 ^ 53)%Z then
    if (e <=? 971)%Z then S754_finite false (Z.to_pos m) e else S754_infinity false
  else
    if (e + 1 <=? 971)%Z then S754_finite false (Z.to_pos (2 ^ 52)) (e + 1)
    else S754_infinity false.

(** [f] is what rounding the positive real [X] to a double gives. *)
Definition rounded (X : R) (f : spec_float) : Prop :=
  exists m l e,
    (-1074 <= e)%Z /\ (0 <= m < 2 ^ 53)%Z /\ located X m e l
    /\ ((-1074 < e)%Z -> (2 ^ 52 <= m)%Z)
    /\ f = finish (round_nearest_even m l) e.

(** [f] is what an operation answers whose exact result is [X >= 0]. *)
Definition approx (X : R) (f : spec_float) : Prop :=
  (X = 0%R /\ exists s, f = S754_zero s) \/ ((0 < X)%R /\ rounded X f).

(** A double that is a zero or finite. *)
Definition sf_finite (x : spec_float) : Prop :=
  match x with
  | S754_zero _ | S754_finite _ _ _ => True
  | _ => False
  end.

(** [log] does not decrease on the finite positive doubles. *)
Definition monotone_log (libm : Binary64.Libm) : Prop :=
  forall x y, PrimFloat.is_finite x = true -> PrimFloat.ltb PrimFloat.zero x = true ->
    PrimFloat.is_finite y = true -> PrimFloat.leb x y = true ->
    PrimFloat.leb (Binary64.libm_log libm x) (Binary64.libm_log libm y) = true.

(** The place of a double in the order, as a real number. *)
Definition float_value (x : PrimFloat.float) : R := SF2R (Prim2SF x).

(** The state in which a run ends. *)
Definition state_of {A : Type} (r : Run.io_result A) : Run.run_state :=
  match r with
  | Run.Returned _ s => s
  | Run.Raised _ s => s
  end.

(** The run came to its end: no exception escaped. *)
Definition finished {A : Type} (r : Run.io_result A) : Prop :=
  match r with
  | Run.Returned _ _ => True
  | Run.Raised _ _ => False
  end.

(** No operation of the run fails. *)
Definition reliable (env : Run.io_env) : Prop := forall k, Run.fails env k = false.

(** What one found file does to a state. *)
Definition file_step (env : Run.io_env) (f : found_file) (s s' : Run.run_state)
    (done : Prop) : Prop :=
  (forall p, p <> output_path f -> Run.disk s' !! p = Run.disk s !! p)
  /\ (forall p, is_Some (Run.disk s !! p) -> is_Some (Run.disk s' !! p))
  /\ Run.converted_count s <= Run.converted_count s' <= S (Run.converted_count s)
  /\ Run.failed_count s <= Run.failed_count s' <= S (Run.failed_count s)
  /\ Run.steps s <= Run.steps s'
  /\ (done -> S (Run.converted_count s + Run.failed_count s)
              <= Run.converted_count s' + Run.failed_count s')
  /\ (~ done -> exists k, Run.steps s <= k < Run.steps s' /\ Run.fails env k = true).

(** An environment in which no operation fails. *)
Definition reliable_env : Run.io_env :=
  {| Run.fails := fun _ => false; Run.debris := fun _ => None |}.

(** * Facts about the run-time model *)

Lemma bind_Ok {A B : Type} (m : pyresult A) (k : A -> pyresult B) (b : B) :
  m ≫= k = Ok b <-> exists a, m = Ok a /\ k a = Ok b.
Proof.
  destruct m as [a|e]; simpl.
  - split; [eauto | intros (a' & [= ->] & H); exact H].
  - split; [discriminate | intros (a' & [=] & _)].
Qed.

Lemma Ok_inj {A : Type} (a b : A) : Ok a = Ok b -> a = b.
Proof. now intros [= ->]. Qed.

Lemma string_app_cons (c : ascii) (a b : string) : String c a +:+ b = String c (a +:+ b).
Proof. reflexivity. Qed.

Lemma string_app_nil_l (a : string) : "" +:+ a = a.
Proof. reflexivity. Qed.

Lemma string_app_assoc (a b c : string) : (a +:+ b) +:+ c = a +:+ (b +:+ c).
Proof.
  induction a as [|x a IH]; [reflexivity|].
  rewrite !string_app_cons. now rewrite IH.
Qed.

Lemma string_app_nil_r (a : string) : a +:+ "" = a.
Proof.
  induction a as [|x a IH]; [reflexivity|].
  rewrite string_app_cons. now rewrite IH.
Qed.

Lemma string_app_length (a b : string) :
  String.length (a +:+ b) = String.length a + String.length b.
Proof.
  induction a as [|x a IH]; [reflexivity|].
  rewrite string_app_cons. simpl. now rewrite IH.
Qed.

Lemma substring_0_app (w s : string) :
  String.substring 0 (String.length w) (w +:+ s) = w.
Proof.
  induction w as [|c w IH].
  - rewrite string_app_nil_l. destruct s; reflexivity.
  - rewrite string_app_cons. simpl. now rewrite IH.
Qed.

Lemma consumed_app (w s : string) : consumed (w +:+ s) s = w.
Proof.
  unfold consumed. rewrite string_app_length.
  replace (String.length w + String.length s - String.length s) with (String.length w) by lia.
  apply substring_0_app.
Qed.

(** ** The language of a pattern and the soundness of the matcher *)

Lemma star_match_sound p s k m :
  star_match p s k = Some m ->
  exists w s', s = w +:+ s' /\ all_chars p w = true /\ k s' = Some m.
Proof.
  revert k m. induction s as [|c s IH]; intros k m; simpl.
  - intros H. exists "", "". auto.
  - destruct (p c) eqn:Hc.
    + destruct (star_match p s k) as [m'|] eqn:Hs.
      * intros [= <-]. destruct (IH _ _ Hs) as (w & s' & -> & Hw & Hk).
        exists (String c w), s'. rewrite string_app_cons. simpl. rewrite Hc, Hw. auto.
      * intros H. exists "", (String c s). auto.
    + intros H. exists "", (String c s). auto.
Qed.

Lemma re_match_sound P r : groups_in P r ->
  forall s caps k m, caps_in P caps -> re_match r s caps k = Some m ->
  exists w s' caps', s = w +:+ s' /\ lang r w /\ caps_in P caps'
    /\ (forall n, is_Some (caps !! n) \/ sets_group n r = true -> is_Some (caps' !! n))
    /\ k s' caps' = Some m.
Proof.
  induction r as [|c|p|r1 IH1 r2 IH2|r1 IH1 r2 IH2|r IH|p|p|n r IH];
    simpl; intros HP s caps k m Hcaps Hm.
  - exists "", s, caps. repeat split; auto. intros n [H|H]; [auto | discriminate].
  - destruct s as [|c' s]; [discriminate|].
    destruct (Ascii.eqb_spec c c') as [<-|]; [|discriminate].
    exists (String c ""), s, caps. repeat split; auto. intros n [H|H]; [auto | discriminate].
  - destruct s as [|c' s]; [discriminate|].
    destruct (p c') eqn:Hc; [|discriminate].
    exists (String c' ""), s, caps. repeat split; eauto. intros n [H|H]; [auto | discriminate].
  - destruct HP as [HP1 HP2].
    destruct (IH1 HP1 _ _ _ _ Hcaps Hm) as (w1 & s1 & caps1 & -> & Hw1 & Hc1 & Hd1 & Hk1).
    destruct (IH2 HP2 _ _ _ _ Hc1 Hk1) as (w2 & s2 & caps2 & -> & Hw2 & Hc2 & Hd2 & Hk2).
    exists (w1 +:+ w2), s2, caps2. rewrite string_app_assoc. repeat split; eauto.
    intros n [H|H]; apply Hd2.
    + left. apply Hd1. auto.
    + apply orb_true_iff in H as [H|H]; [left; apply Hd1|]; auto.
  - destruct HP as [HP1 HP2].
    destruct (re_match r1 s caps k) as [m'|] eqn:H1.
    + injection Hm as <-.
      destruct (IH1 HP1 _ _ _ _ Hcaps H1) as (w & s' & caps' & -> & Hw & Hc & Hd & Hk).
      exists w, s', caps'. repeat split; auto.
      intros n [H|H]; apply Hd; [auto|]. apply andb_true_iff in H as [H _]. auto.
    + destruct (IH2 HP2 _ _ _ _ Hcaps Hm) as (w & s' & caps' & -> & Hw & Hc & Hd & Hk).
      exists w, s', caps'. repeat split; auto.
      intros n [H|H]; apply Hd; [auto|]. apply andb_true_iff in H as [_ H]. auto.
  - destruct (re_match r s caps k) as [m'|] eqn:H1.
    + injection Hm as <-.
      destruct (IH HP _ _ _ _ Hcaps H1) as (w & s' & caps' & -> & Hw & Hc & Hd & Hk).
      exists w, s', caps'. repeat split; auto.
      intros n [H|H]; [|discriminate]. apply Hd; auto.
    + exists "", s, caps. repeat split; auto. intros n [H|H]; [auto | discriminate].
  - apply star_match_sound in Hm as (w & s' & -> & Hw & Hk).
    exists w, s', caps. repeat split; auto. intros n [H|H]; [auto | discriminate].
  - destruct s as [|c s]; [discriminate|].
    destruct (p c) eqn:Hc; [|discriminate].
    apply star_match_sound in Hm as (w & s' & -> & Hw & Hk).
    exists (String c w), s', caps. repeat split; eauto. intros n [H|H]; [auto | discriminate].
  - destruct HP as [HPn HP].
    destruct (IH HP _ _ _ _ Hcaps Hm) as (w & s' & caps' & -> & Hw & Hc & Hd & Hk).
    rewrite consumed_app in Hk.
    exists w, s', (<[n := w]> caps'). repeat split; auto.
    + intros n' w'. destruct (decide (n = n')) as [<-|Hne].
      * rewrite lookup_insert_eq. intros [= <-]. auto.
      * rewrite lookup_insert_ne by done. apply Hc.
    + intros n' H. destruct (decide (n = n')) as [<-|Hne].
      * rewrite lookup_insert_eq. eauto.
      * rewrite lookup_insert_ne by done. apply Hd.
        destruct H as [H|H]; [auto|]. right.
        apply orb_true_iff in H as [H|H]; [|auto].
        apply Nat.eqb_eq in H. congruence.
Qed.

Lemma re_search_sound P r s m : groups_in P r -> re_search r s = Some m ->
  caps_in P m /\ forall n, sets_group n r = true -> is_Some (m !! n).
Proof.
  intros HP. induction s as [|c s IH]; simpl.
  - destruct (re_match r "" ∅ _) as [m'|] eqn:H; [|discriminate].
    intros [= <-].
    apply (re_match_sound P r HP) in H as (w & s' & caps' & _ & _ & Hc & Hd & [= <-]).
    + split; [exact Hc | intros n Hn; apply Hd; auto].
    + intros n w'. rewrite lookup_empty. discriminate.
  - destruct (re_match r (String c s) ∅ _) as [m'|] eqn:H.
    + intros [= <-].
      apply (re_match_sound P r HP) in H as (w & s' & caps' & _ & _ & Hc & Hd & [= <-]).
      * split; [exact Hc | intros n Hn; apply Hd; auto].
      * intros n w'. rewrite lookup_empty. discriminate.
    + exact IH.
Qed.

(** ** Numerals *)

Lemma digit_not_sign c : py_isdigit c = true ->
  Ascii.eqb c "-" = false /\ Ascii.eqb c "+" = false /\ Ascii.eqb c "." = false.
Proof.
  intros H. repeat split; destruct (Ascii.eqb_spec c "-"), (Ascii.eqb_spec c "+"),
    (Ascii.eqb_spec c "."); subst; try reflexivity; vm_compute in H; discriminate.
Qed.

Lemma all_chars_app p a b :
  all_chars p (a +:+ b) = all_chars p a && all_chars p b.
Proof.
  induction a as [|c a IH]; [reflexivity|].
  rewrite string_app_cons. simpl. rewrite IH. now rewrite andb_assoc.
Qed.

Lemma split_at_dot_digits w : all_digits w = true -> split_at_dot w = (w, None).
Proof.
  induction w as [|c w IH]; [reflexivity|]. unfold all_digits. simpl.
  intros [Hc Hw]%andb_true_iff.
  destruct (digit_not_sign c Hc) as (_ & _ & ->). now rewrite (IH Hw).
Qed.

Lemma split_at_dot_point a b : all_digits a = true ->
  split_at_dot (a +:+ "." +:+ b) = (a, Some b).
Proof.
  induction a as [|c a IH].
  - reflexivity.
  - unfold all_digits. simpl. intros [Hc Ha]%andb_true_iff.
    destruct (digit_not_sign c Hc) as (_ & _ & ->). now rewrite (IH Ha).
Qed.

Lemma float_of_body_unsigned {F : PyFloat} neg w : lang unsigned_number w ->
  exists m k, float_of_body neg w = Ok (float_of_decimal neg m k).
Proof.
  simpl. intros (w1 & r1 & -> & (c & w1' & -> & Hc & Hw1) & (w2 & r2 & -> & Hdot & (w3 & r3 & -> & Hw3 & ->))).
  rewrite string_app_nil_r.
  assert (Hd1 : all_digits (String c w1') = true).
  { unfold all_digits. simpl. now rewrite Hc, Hw1. }
  unfold float_of_body.
  destruct Hdot as [->| ->].
  - rewrite split_at_dot_point by exact Hd1.
    unfold all_digits in *. simpl. rewrite Hc, Hw1, Hw3. simpl. eauto.
  - rewrite string_app_nil_l.
    assert (Hall : all_digits (String c w1' +:+ w3) = true).
    { unfold all_digits. rewrite all_chars_app. fold (all_digits (String c w1')).
      now rewrite Hd1, Hw3. }
    rewrite split_at_dot_digits by exact Hall.
    simpl. rewrite Hall. simpl. eauto.
Qed.

Lemma unsigned_starts_with_digit w : lang unsigned_number w ->
  exists c w', w = String c w' /\ py_isdigit c = true.
Proof.
  simpl. intros (w1 & r1 & -> & (c & w1' & -> & Hc & Hw1) & _).
  rewrite string_app_cons. eauto.
Qed.

Lemma py_float_unsigned {F : PyFloat} w : lang unsigned_number w ->
  exists m k, py_float w = Ok (float_of_decimal false m k).
Proof.
  intros Hw. destruct (unsigned_starts_with_digit w Hw) as (c & w' & -> & Hc).
  unfold py_float. destruct (digit_not_sign c Hc) as (-> & -> & _).
  now apply float_of_body_unsigned.
Qed.

Lemma py_float_signed {F : PyFloat} w : lang signed_number w ->
  exists neg m k, py_float w = Ok (float_of_decimal neg m k).
Proof.
  intros (w1 & w2 & -> & Hsign & Hw2).
  destruct Hsign as [->| ->].
  - destruct (float_of_body_unsigned true w2 Hw2) as (m & k & Hf).
    exists true, m, k. exact Hf.
  - rewrite string_app_nil_l. destruct (py_float_unsigned _ Hw2) as (m & k & Hf). eauto.
Qed.

(** ** The parser *)

Lemma filter_pattern_groups : groups_in filter_groups filter_pattern.
Proof. cbn. repeat split; auto. Qed.

Lemma preamp_pattern_groups : groups_in preamp_groups preamp_pattern.
Proof. cbn. repeat split; auto. Qed.

Section ParserFacts.
Context {F : PyFloat}.

Lemma filter_of_match_ok line m : re_search filter_pattern line = Some m ->
  exists filt, filter_of_match m = Ok filt /\ parsed_filter filt.
Proof.
  intros Hm.
  destruct (re_search_sound _ _ _ _ filter_pattern_groups Hm) as [Hc Hd].
  destruct (Hd 1 eq_refl) as [g1 H1], (Hd 2 eq_refl) as [g2 H2],
    (Hd 3 eq_refl) as [g3 H3], (Hd 4 eq_refl) as [g4 H4], (Hd 5 eq_refl) as [g5 H5].
  destruct (py_float_unsigned g3 (Hc 3 g3 H3)) as (m3 & k3 & E3).
  destruct (py_float_signed g4 (Hc 4 g4 H4)) as (n4 & m4 & k4 & E4).
  destruct (py_float_unsigned g5 (Hc 5 g5 H5)) as (m5 & k5 & E5).
  eexists. unfold filter_of_match, group.
  rewrite H1, H2, H3, H4, H5. simpl. rewrite E3. simpl. rewrite E4. simpl.
  rewrite E5. simpl. split; [reflexivity|].
  unfold parsed_filter. simpl. eauto 10.
Qed.

Lemma preamp_of_match_ok line m : re_search preamp_pattern line = Some m ->
  exists neg n k, (g1 ← group m 1; py_float g1) = Ok (float_of_decimal neg n k).
Proof.
  intros Hm.
  destruct (re_search_sound _ _ _ _ preamp_pattern_groups Hm) as [Hc Hd].
  destruct (Hd 1 eq_refl) as [g1 H1].
  destruct (py_float_signed g1 (Hc 1 g1 H1)) as (n & m1 & k & E).
  exists n, m1, k. unfold group. rewrite H1. simpl. exact E.
Qed.

Lemma parse_line_spec (st : parse_state) line :
  parse_line st line =
  Ok (default st.1 (preamp_of_line line), st.2 ++ option_list (filter_of_line line)).
Proof.
  unfold parse_line, preamp_of_line, filter_of_line.
  destruct st as [pre fs]. cbn [fst snd].
  destruct (startswith (strip line) "Preamp:").
  - destruct (re_search preamp_pattern (strip line)) as [m|] eqn:Hm.
    + destruct (preamp_of_match_ok _ _ Hm) as (neg & n & k & E).
      unfold mbind, pyresult_bind in E |- *.
      destruct (group m 1) as [g1|]; [|discriminate].
      rewrite E. simpl. now rewrite app_nil_r.
    + simpl. now rewrite app_nil_r.
  - destruct (startswith (strip line) "Filter").
    + destruct (re_search filter_pattern (strip line)) as [m|] eqn:Hm.
      * destruct (filter_of_match_ok _ _ Hm) as (filt & -> & _). reflexivity.
      * simpl. now rewrite app_nil_r.
    + simpl. now rewrite app_nil_r.
Qed.

Lemma filter_of_line_parsed line filt :
  filter_of_line line = Some filt -> parsed_filter filt.
Proof.
  unfold filter_of_line.
  destruct (startswith _ "Preamp:"); [discriminate|].
  destruct (startswith _ "Filter"); [|discriminate].
  destruct (re_search _ _) as [m|] eqn:Hm; [|discriminate].
  destruct (filter_of_match_ok _ _ Hm) as (f & -> & Hf). now intros [= <-].
Qed.

Lemma for_each_parse_line lines (st : parse_state) :
  for_each parse_line st lines =
  Ok (foldl (fun x l => default x (preamp_of_line l)) st.1 lines,
      st.2 ++ omap filter_of_line lines).
Proof.
  revert st. induction lines as [|l lines IH]; intros [pre fs].
  - simpl. now rewrite app_nil_r.
  - cbn [for_each]. rewrite parse_line_spec. cbn [mbind pyresult_bind].
    rewrite IH. cbn [fst snd foldl omap]. f_equal. f_equal.
    rewrite <- app_assoc. f_equal.
    unfold omap, list_omap, option_list.
    destruct (filter_of_line l); reflexivity.
Qed.

(** The parser as a function of the lines of its input: the last preamp
    line that matches wins, and the filters are those of the matching
    filter lines, in the order of the lines. *)
Lemma parse_text_preset_spec text :
  parse_text_preset text =
  Ok {| preamp := foldl (fun x l => default x (preamp_of_line l))
                    (float_of_decimal false 0 1) (split_newline (strip text));
        filters := omap filter_of_line (split_newline (strip text));
        name := ""; author := ""; tags := "" |}.
Proof.
  unfold parse_text_preset. rewrite for_each_parse_line. reflexivity.
Qed.

End ParserFacts.

Lemma foldl_default_last {A B : Type} (f : B -> option A) (x : A) (ls : list B) :
  foldl (fun x l => default x (f l)) x ls = default x (last (omap f ls)).
Proof.
  revert x. induction ls as [|l ls IH]; intros x; [reflexivity|].
  cbn [foldl omap list_omap]. rewrite IH.
  destruct (f l) as [a|]; [|reflexivity].
  rewrite last_cons. fold (omap f ls). now destruct (last (omap f ls)).
Qed.

(** ** The emitter *)

Lemma for_each_band_line params keys lines :
  for_each (fun lines key => v ← dict_index params key; Ok (lines ++ [key +:+ "=" +:+ v]))
    lines keys
  = (vs ← map_result (band_line params) keys; Ok (lines ++ vs)).
Proof.
  unfold band_line. revert lines. induction keys as [|k keys IH]; intros lines.
  - simpl. now rewrite app_nil_r.
  - cbn [for_each map_result].
    destruct (dict_index params k) as [v|e]; [|reflexivity].
    cbn [mbind pyresult_bind]. rewrite IH.
    destruct (map_result _ keys); [|reflexivity].
    cbn [mbind pyresult_bind]. now rewrite <- app_assoc.
Qed.

Lemma write_band_block params lines :
  write_band params lines = (vs ← block_of params; Ok (lines ++ vs)).
Proof.
  unfold write_band, block_of. destruct (sorted_keys params) as [keys|e]; simpl; [|reflexivity].
  apply for_each_band_line.
Qed.

(** Case analysis on a band index between 1 and 24. *)
Ltac each_band_by i tac :=
  do 25 (destruct i as [|i]; [first [lia | solve [tac]]|]); lia.
Ltac each_band i := each_band_by i ltac:(vm_compute; reflexivity).

Lemma block_of_default i : 1 <= i <= 24 ->
  block_of (generate_default_band_params i false)
  = Ok (block_lines i (generate_default_band_params i false)).
Proof. intros Hi. each_band i. Qed.

Lemma block_of_used i en fr ga qv sh : 1 <= i <= 24 ->
  block_of (used_band_params i en fr ga qv sh)
  = Ok (block_lines i (used_band_params i en fr ga qv sh)).
Proof. intros Hi. each_band i. Qed.

Section EmitterFacts.
Context {F : PyFloat}.

Lemma band_params_spec (preset : EQPreset F) i params :
  band_params preset i = Ok params <->
  (exists filt fr qv,
      (i <= length (filters preset))%nat /\
      filters preset !! (i - 1) = Some filt /\
      frequency_to_proq4 (frequency filt) = Ok fr /\
      q_to_proq4 (q filt) (filter_type filt) = Ok qv /\
      params = used_band_params i (if enabled filt then "1" else "0") (float_str fr)
                 (float_str (gain filt)) (float_str qv)
                 (str_int (filter_type_to_shape (filter_type filt))))
  \/ ((length (filters preset) < i)%nat /\ params = generate_default_band_params i false).
Proof.
  unfold band_params, list_index.
  destruct (Nat.leb_spec i (length (filters preset))) as [Hle|Hgt].
  - destruct (filters preset !! (i - 1)) as [filt|] eqn:Hf; cbn [mbind pyresult_bind].
    + destruct (frequency_to_proq4 (frequency filt)) as [fr|e] eqn:Hfr; cbn [mbind pyresult_bind].
      * destruct (q_to_proq4 (q filt) (filter_type filt)) as [qv|e] eqn:Hq; cbn [mbind pyresult_bind].
        -- split.
           ++ intros H%Ok_inj. left. exists filt, fr, qv.
              split; [exact Hle|]. split; [reflexivity|]. split; [exact Hfr|].
              split; [exact Hq|]. symmetry. exact H.
           ++ intros [(filt' & fr' & qv' & _ & Hf' & Hfr' & Hq' & ->)|[Hlt _]]; [|lia].
              apply (inj Some) in Hf'. subst filt'.
              rewrite Hfr in Hfr'. rewrite Hq in Hq'.
              apply Ok_inj in Hfr'. apply Ok_inj in Hq'. subst. reflexivity.
        -- split; [discriminate|].
           intros [(filt' & fr' & qv' & _ & Hf' & Hfr' & Hq' & _)|[Hlt _]]; [|lia].
           apply (inj Some) in Hf'. subst filt'. rewrite Hq in Hq'. discriminate.
      * split; [discriminate|].
        intros [(filt' & fr' & qv' & _ & Hf' & Hfr' & _)|[Hlt _]]; [|lia].
        apply (inj Some) in Hf'. subst filt'. rewrite Hfr in Hfr'. discriminate.
    + split; [discriminate|].
      intros [(filt' & fr' & qv' & _ & Hf' & _)|[Hlt _]]; [discriminate|lia].
  - split.
    + intros H%Ok_inj. right. split; [lia | symmetry; exact H].
    + intros [(filt' & fr' & qv' & Hle & _)|[_ ->]]; [lia | reflexivity].
Qed.

Lemma band_params_block (preset : EQPreset F) i params : 1 <= i <= 24 ->
  band_params preset i = Ok params -> block_of params = Ok (block_lines i params).
Proof.
  intros Hi [(filt & fr & qv & _ & _ & _ & _ & ->)|[_ ->]]%band_params_spec.
  - now apply block_of_used.
  - now apply block_of_default.
Qed.

Lemma for_each_band_loop (preset : EQPreset F) l lines :
  Forall (fun i => 1 <= i <= 24) l ->
  for_each (band_loop preset) lines l
  = (pars ← map_result (band_params preset) l;
     Ok (lines ++ concat (zip_with block_lines l pars))).
Proof.
  intros Hl. revert lines. induction Hl as [|i l Hi Hl IH]; intros lines.
  - simpl. now rewrite app_nil_r.
  - cbn [for_each map_result].
    change (band_loop preset lines i)
      with (params ← band_params preset i; write_band params lines).
    destruct (band_params preset i) as [params|e] eqn:Hp; [|reflexivity].
    cbn [mbind pyresult_bind]. rewrite write_band_block.
    rewrite (band_params_block _ _ _ Hi Hp). cbn [mbind pyresult_bind].
    rewrite IH. destruct (map_result (band_params preset) l) as [pars|e]; [|reflexivity].
    cbn [mbind pyresult_bind zip_with concat]. now rewrite <- app_assoc.
Qed.

Lemma for_each_tilt_loop (preset : EQPreset F) l lines :
  for_each (tilt_loop preset) lines l = Ok (lines ++ (tilt_line preset <$> l)).
Proof.
  revert lines. induction l as [|i l IH]; intros lines.
  - simpl. now rewrite app_nil_r.
  - cbn [for_each fmap list_fmap].
    replace (tilt_loop preset lines i) with (Ok (lines ++ [tilt_line preset i])).
    + cbn [mbind pyresult_bind]. rewrite IH, <- app_assoc. reflexivity.
    + unfold tilt_loop, tilt_line.
      destruct (i <=? length (filters preset))%nat; reflexivity.
Qed.

Lemma bands_in_range : Forall (fun i => 1 <= i <= 24) (seq 1 24).
Proof. apply Forall_forall. intros i Hi%elem_of_seq. lia. Qed.

(** The emitted lines in closed form: the header, the 24 band blocks, the
    global parameters, the 24 spectral tilt lines and the closing empty
    line.  The only steps that can raise are the transforms of the bands
    and the output level, in this order. *)
Lemma eq_preset_lines_spec (preset : EQPreset F) :
  eq_preset_lines preset
  = (pars ← map_result (band_params preset) (seq 1 24);
     output_level ← preamp_to_output_level (preamp preset);
     Ok (header_lines preset
         ++ concat (zip_with block_lines (seq 1 24) pars)
         ++ global_lines output_level
         ++ (tilt_line preset <$> seq 1 24)
         ++ [""])).
Proof.
  unfold eq_preset_lines. rewrite (for_each_band_loop _ _ _ bands_in_range).
  destruct (map_result (band_params preset) (seq 1 24)) as [pars|e]; [|reflexivity].
  cbn [mbind pyresult_bind].
  destruct (preamp_to_output_level (preamp preset)) as [lvl|e]; [|reflexivity].
  cbn [mbind pyresult_bind]. rewrite for_each_tilt_loop. cbn [mbind pyresult_bind].
  now rewrite <- !app_assoc.
Qed.

End EmitterFacts.

(** ** The transforms on the ideal platform *)

Section IdealFacts.
Variable fmt : R -> string.
Local Open Scope R_scope.

Lemma ideal_Q_MIN : @Q_MIN (ideal fmt) = 0.025.
Proof. unfold Q_MIN. cbn. unfold decimal_value. simpl. lra. Qed.

Lemma ideal_Q_MAX : @Q_MAX (ideal fmt) = 40.
Proof. unfold Q_MAX. cbn. unfold decimal_value. simpl. lra. Qed.

Lemma ideal_py_min (a b : R) : @py_min (ideal fmt) a b = Rmin a b.
Proof.
  unfold py_min. cbn. unfold Rmin.
  destruct (bool_decide_reflect (b < a)); destruct (Rle_dec a b); lra.
Qed.

Lemma ideal_py_max (a b : R) : @py_max (ideal fmt) a b = Rmax a b.
Proof.
  unfold py_max. cbn. unfold Rmax.
  destruct (bool_decide_reflect (a < b)); destruct (Rle_dec a b); lra.
Qed.

Lemma ideal_math_log (x : R) : 0 < x -> @math_log (ideal fmt) x = Ok (ln x).
Proof. intros H. cbn. destruct (decide (0 < x)); [reflexivity | contradiction]. Qed.

Lemma ideal_math_log2_pos (x : R) : 0 < x -> @math_log2 (ideal fmt) x = Ok (ln x / ln 2).
Proof. intros H. cbn. destruct (decide (0 < x)); [reflexivity | contradiction]. Qed.

Lemma ideal_math_log2_nonpos (x : R) : x <= 0 -> @math_log2 (ideal fmt) x = Raise ValueError.
Proof. intros H. cbn. destruct (decide (0 < x)); [lra | reflexivity]. Qed.

Lemma ideal_float_div (x y : R) : y <> 0 -> @float_div (ideal fmt) x y = Ok (x / y).
Proof. intros H. cbn. destruct (decide (y = 0)); [contradiction | reflexivity]. Qed.

Lemma clamp_q_range q : 0.025 <= clamp_q q <= 40.
Proof.
  unfold clamp_q, Rmax, Rmin.
  destruct (Rle_dec 40 q); destruct (Rle_dec _ _); lra.
Qed.

Lemma ln_span_pos : 0 < ln 40 - ln 0.025.
Proof.
  assert (ln 0.025 < ln 40) by (apply ln_increasing; lra). lra.
Qed.

Lemma ideal_q_to_proq4 (q : R) (t : string) :
  @q_to_proq4 (ideal fmt) q t = Ok ((ln (clamp_q q) - ln 0.025) / (ln 40 - ln 0.025)).
Proof.
  unfold q_to_proq4. rewrite ideal_py_min, ideal_py_max.
  rewrite ideal_Q_MIN, ideal_Q_MAX. fold (clamp_q q).
  pose proof (clamp_q_range q) as Hq.
  rewrite !ideal_math_log by lra. cbn [mbind pyresult_bind].
  rewrite ideal_float_div; [reflexivity|].
  change (@float_sub (ideal fmt) (ln 40) (ln 0.025)) with (ln 40 - ln 0.025).
  pose proof ln_span_pos. lra.
Qed.

Lemma ln_le_mono (x y : R) : 0 < x -> x <= y -> ln x <= ln y.
Proof.
  intros Hx [Hlt| ->]; [|lra]. left. now apply ln_increasing.
Qed.

Lemma clamp_q_mono q1 q2 : q1 <= q2 -> clamp_q q1 <= clamp_q q2.
Proof.
  intros H. unfold clamp_q, Rmax, Rmin.
  repeat (destruct (Rle_dec _ _)); lra.
Qed.

Lemma ideal_frequency_pos (x : R) :
  0 < x -> @frequency_to_proq4 (ideal fmt) x = Ok (ln x / ln 2).
Proof. apply ideal_math_log2_pos. Qed.

Lemma ln2_pos : 0 < ln 2.
Proof. rewrite <- ln_1. apply ln_increasing; lra. Qed.

Lemma ideal_output_level (x : R) :
  @preamp_to_output_level (ideal fmt) x = Ok (x / 36).
Proof.
  unfold preamp_to_output_level.
  assert (E : @float_of_decimal (ideal fmt) false 360 1 = 36).
  { cbn. unfold decimal_value. simpl. lra. }
  rewrite E. rewrite ideal_float_div by lra. reflexivity.
Qed.

Lemma decimal_value_nonneg m k : 0 <= decimal_value false m k.
Proof.
  unfold decimal_value.
  assert (0 <= IZR (Z.of_N m)) by (apply IZR_le; lia).
  assert (0 < 10 ^ k) by (apply pow_lt; lra).
  apply Rmult_le_pos; [assumption|]. left. now apply Rinv_0_lt_compat.
Qed.

End IdealFacts.

Lemma map_result_Forall2 {A B : Type} (f : A -> pyresult B) l ys :
  map_result f l = Ok ys -> Forall2 (fun x y => f x = Ok y) l ys.
Proof.
  revert ys. induction l as [|x l IH]; intros ys; cbn [map_result].
  - intros H%Ok_inj. subst. constructor.
  - destruct (f x) as [y|e] eqn:Hx; [|discriminate]. cbn [mbind pyresult_bind].
    destruct (map_result f l) as [ys'|e]; [|discriminate]. cbn [mbind pyresult_bind].
    intros H%Ok_inj. subst. constructor; auto.
Qed.

Lemma Forall2_map_result {A B : Type} (f : A -> pyresult B) l ys :
  Forall2 (fun x y => f x = Ok y) l ys -> map_result f l = Ok ys.
Proof.
  induction 1 as [|x y l ys Hx _ IH]; cbn [map_result]; [reflexivity|].
  rewrite Hx. cbn [mbind pyresult_bind]. rewrite IH. reflexivity.
Qed.

Lemma nth_block {A : Type} (blocks : list (list A)) (rest : list A) n j b :
  Forall (fun b => length b = n) blocks -> blocks !! j = Some b ->
  take n (drop (n * j) (concat blocks ++ rest)) = b.
Proof.
  intros Hall. revert j. induction Hall as [|b0 blocks Hb0 Hall IH]; intros j Hj.
  - discriminate.
  - destruct j as [|j]; cbn [concat].
    + injection Hj as ->. rewrite Nat.mul_0_r, drop_0.
      rewrite <- app_assoc. rewrite take_app_length' by (symmetry; exact Hb0). reflexivity.
    + replace (n * S j) with (n + n * j) by lia.
      rewrite <- app_assoc. rewrite drop_app_add' by (symmetry; exact Hb0). now apply IH.
Qed.

Ltac split_24 pars Hlen :=
  do 24 (destruct pars as [|? pars]; [discriminate Hlen|]);
  destruct pars; [clear Hlen | discriminate Hlen].

Section OutputFacts.
Context {F : PyFloat}.

(** The output as the closed form of [eq_preset_lines_spec] gives it. *)
Lemma eq_preset_lines_Ok (preset : EQPreset F) L :
  eq_preset_lines preset = Ok L <->
  exists pars lvl,
    Forall2 (fun i params => band_params preset i = Ok params) (seq 1 24) pars
    /\ preamp_to_output_level (preamp preset) = Ok lvl
    /\ L = header_lines preset ++ concat (zip_with block_lines (seq 1 24) pars)
           ++ global_lines lvl ++ (tilt_line preset <$> seq 1 24) ++ [""].
Proof.
  rewrite eq_preset_lines_spec. split.
  - destruct (map_result _ _) as [pars|e] eqn:Hp; [|discriminate]. cbn [mbind pyresult_bind].
    destruct (preamp_to_output_level _) as [lvl|e]; [|discriminate]. cbn [mbind pyresult_bind].
    intros H%Ok_inj. exists pars, lvl. split; [now apply map_result_Forall2|]. auto.
  - intros (pars & lvl & Hp%Forall2_map_result & -> & ->). rewrite Hp. reflexivity.
Qed.

Lemma emitted_length (preset : EQPreset F) L :
  eq_preset_lines preset = Ok L -> length L = 608.
Proof.
  intros (pars & lvl & Hp & _ & ->)%eq_preset_lines_Ok.
  pose proof (Forall2_length _ _ _ Hp) as Hlen. cbn in Hlen. symmetry in Hlen.
  split_24 pars Hlen. reflexivity.
Qed.

Lemma zip_with_block_lines_lookup l (pars : list (gmap string string)) j i params :
  l !! j = Some i -> pars !! j = Some params ->
  zip_with block_lines l pars !! j = Some (block_lines i params).
Proof.
  intros Hl Hp. rewrite lookup_zip_with, Hl. cbn. rewrite Hp. reflexivity.
Qed.

Lemma emitted_band_block (preset : EQPreset F) L N :
  eq_preset_lines preset = Ok L -> 1 <= N <= 24 ->
  exists params, band_params preset N = Ok params /\ band_block L N = block_lines N params.
Proof.
  intros (pars & lvl & Hp & _ & ->)%eq_preset_lines_Ok HN.
  assert (HlN : seq 1 24 !! (N - 1) = Some N).
  { rewrite lookup_seq. split; [f_equal|]; lia. }
  destruct (Forall2_lookup_l _ _ _ _ _ Hp HlN) as (params & Hpar & HpN).
  exists params. split; [exact HpN|].
  unfold band_block.
  rewrite drop_app_add' by reflexivity.
  apply nth_block with (blocks := zip_with block_lines (seq 1 24) pars).
  - apply Forall_forall. intros b Hb.
    apply list_elem_of_lookup in Hb as [j Hb].
    apply lookup_zip_with_Some in Hb as (i & P & -> & _ & _). reflexivity.
  - now apply zip_with_block_lines_lookup.
Qed.

Lemma map_result_ext {A B : Type} (f g : A -> pyresult B) l :
  Forall (fun x => f x = g x) l -> map_result f l = map_result g l.
Proof.
  induction 1 as [|x l Hx _ IH]; cbn [map_result]; [reflexivity|].
  now rewrite Hx, IH.
Qed.

Lemma band_params_drop_extra (preset : EQPreset F) i : 1 <= i <= 24 ->
  band_params (drop_extra_filters preset) i = band_params preset i.
Proof.
  intros Hi. unfold band_params, list_index, drop_extra_filters. cbn [filters].
  rewrite length_take.
  rewrite lookup_take_lt by lia.
  destruct (Nat.leb_spec i (length (filters preset)));
    destruct (Nat.leb_spec i (24 `min` length (filters preset))); try lia; reflexivity.
Qed.

Lemma tilt_line_drop_extra (preset : EQPreset F) i : 1 <= i <= 24 ->
  tilt_line (drop_extra_filters preset) i = tilt_line preset i.
Proof.
  intros Hi. unfold tilt_line, drop_extra_filters. cbn [filters].
  rewrite length_take.
  destruct (Nat.leb_spec i (length (filters preset)));
    destruct (Nat.leb_spec i (24 `min` length (filters preset))); try lia; reflexivity.
Qed.

Lemma eq_preset_lines_drop_extra (preset : EQPreset F) :
  eq_preset_lines (drop_extra_filters preset) = eq_preset_lines preset.
Proof.
  rewrite !eq_preset_lines_spec.
  rewrite (map_result_ext (band_params (drop_extra_filters preset)) (band_params preset)).
  2:{ eapply Forall_impl; [apply bands_in_range|]. intros i Hi.
      now apply band_params_drop_extra. }
  replace (tilt_line (drop_extra_filters preset) <$> seq 1 24)
    with (tilt_line preset <$> seq 1 24).
  2:{ apply Forall_fmap_ext_1. eapply Forall_impl; [apply bands_in_range|].
      intros i Hi. symmetry. now apply tilt_line_drop_extra. }
  reflexivity.
Qed.

Lemma block_lines_keys i params : 1 <= i <= 24 ->
  line_key <$> block_lines i params = band_key i <$> band_fields.
Proof. intros Hi. each_band i. Qed.

Lemma emitted_tilt_lines (preset : EQPreset F) L :
  eq_preset_lines preset = Ok L -> take 24 (drop 583 L) = tilt_line preset <$> seq 1 24.
Proof.
  intros (pars & lvl & Hp & _ & ->)%eq_preset_lines_Ok.
  pose proof (Forall2_length _ _ _ Hp) as Hlen. cbn in Hlen. symmetry in Hlen.
  split_24 pars Hlen. reflexivity.
Qed.

Lemma emitted_counts (preset : EQPreset F) L :
  eq_preset_lines preset = Ok L ->
  length (List.filter is_band_parameter_line L) = 24 * 23
  /\ length (List.filter is_tilt_line L) = 24.
Proof.
  intros (pars & lvl & Hp & _ & ->)%eq_preset_lines_Ok.
  pose proof (Forall2_length _ _ _ Hp) as Hlen. cbn in Hlen. symmetry in Hlen.
  split_24 pars Hlen. clear Hp.
  split; vm_compute; reflexivity.
Qed.

End OutputFacts.

(** ** The dict of a band *)

#[global] Instance band_key_inj i : Inj (=) (=) (band_key i).
Proof.
  intros f g H. unfold band_key in H.
  now repeat apply String.app_inj in H.
Qed.

Lemma generate_default_band_params_kmap i used :
  generate_default_band_params i used = kmap (band_key i) (default_fields used).
Proof.
  unfold generate_default_band_params, default_fields. cbn [list_to_map foldr curry uncurry fst snd].
  rewrite !kmap_insert, kmap_empty by apply band_key_inj. reflexivity.
Qed.

Lemma lookup_default_field i used f :
  generate_default_band_params i used !! band_key i f = default_fields used !! f.
Proof. rewrite generate_default_band_params_kmap. apply lookup_kmap, _. Qed.

Lemma default_fields_dom used f :
  is_Some (default_fields used !! f) <-> f ∈ band_fields.
Proof.
  split.
  - intros [v Hv]. unfold default_fields in Hv.
    apply elem_of_list_to_map_2 in Hv.
    apply (list_elem_of_fmap_2 fst) in Hv. cbn [fst] in Hv.
    revert Hv. generalize f. apply Forall_forall.
    destruct used; compute_done.
  - intros Hf. unfold band_fields in Hf.
    repeat (apply elem_of_cons in Hf as [->|Hf]; [destruct used; vm_compute; eauto|]).
    now apply elem_of_nil in Hf.
Qed.

Lemma flag_dependent_fields_check :
  Forall (fun f => bool_decide (default_fields true !! f <> default_fields false !! f)
                   = bool_decide (f ∈ flag_dependent_fields)) band_fields.
Proof. repeat (constructor; [vm_compute; reflexivity|]). constructor. Qed.

Lemma flag_dependent_fields_spec f :
  default_fields true !! f <> default_fields false !! f <-> f ∈ flag_dependent_fields.
Proof.
  destruct (decide (f ∈ band_fields)) as [Hf|Hf].
  - pose proof flag_dependent_fields_check as H.
    rewrite Forall_forall in H. specialize (H f Hf).
    split; intros Hx.
    + apply (bool_decide_unpack _). rewrite <- H. now apply bool_decide_pack.
    + apply (bool_decide_unpack _). rewrite H. now apply bool_decide_pack.
  - assert (H1 : default_fields true !! f = None).
    { apply eq_None_not_Some. now rewrite default_fields_dom. }
    assert (H2 : default_fields false !! f = None).
    { apply eq_None_not_Some. now rewrite default_fields_dom. }
    rewrite H1, H2. split; [congruence|].
    intros Hd. exfalso. apply Hf.
    assert (Hsub : Forall (fun x => x ∈ band_fields) flag_dependent_fields) by compute_done.
    rewrite Forall_forall in Hsub. now apply Hsub.
Qed.

Lemma band_key_ne i f g : f <> g -> band_key i f <> band_key i g.
Proof. intros Hne H. apply Hne. now apply (inj (band_key i)). Qed.

Ltac band_lookup :=
  unfold used_band_params;
  repeat first
    [ rewrite lookup_insert_eq; reflexivity
    | rewrite lookup_insert_ne by (apply band_key_ne; discriminate) ].

Lemma used_band_params_lookup i en fr ga qv sh :
  let params := used_band_params i en fr ga qv sh in
  params !! band_key i "Used" = Some "1"
  /\ params !! band_key i "Enabled" = Some en
  /\ params !! band_key i "Frequency" = Some fr
  /\ params !! band_key i "Gain" = Some ga
  /\ params !! band_key i "Q" = Some qv
  /\ params !! band_key i "Shape" = Some sh.
Proof. cbv zeta. repeat split; band_lookup. Qed.

Lemma used_band_params_frame i en fr ga qv sh k :
  k ∉ band_key i <$> overwritten_fields ->
  used_band_params i en fr ga qv sh !! k = generate_default_band_params i true !! k.
Proof.
  intros Hk. unfold used_band_params.
  rewrite !lookup_insert_ne; [reflexivity|..];
    intros <-; apply Hk; apply list_elem_of_fmap_2; compute_done.
Qed.

Lemma block_lines_elem i params f v :
  f ∈ band_fields -> params !! band_key i f = Some v ->
  band_key i f +:+ "=" +:+ v ∈ block_lines i params.
Proof.
  intros Hf Hv. unfold block_lines.
  apply list_elem_of_fmap. exists f. rewrite Hv. auto.
Qed.

Section BandFacts.
Context {F : PyFloat}.

(** The block of a band that has a filter. *)
Lemma emitted_used_band (preset : EQPreset F) L N filt :
  eq_preset_lines preset = Ok L -> 1 <= N <= 24 ->
  filters preset !! (N - 1) = Some filt ->
  exists fr qv,
    frequency_to_proq4 (frequency filt) = Ok fr
    /\ q_to_proq4 (q filt) (filter_type filt) = Ok qv
    /\ band_params preset N = Ok (filter_band_params N filt fr qv)
    /\ band_block L N = block_lines N (filter_band_params N filt fr qv).
Proof.
  intros HL HN Hf.
  destruct (emitted_band_block preset L N HL HN) as (params & Hp & Hb).
  pose proof Hp as Hp'.
  apply band_params_spec in Hp
    as [(filt' & fr & qv & _ & Hf' & Hfr & Hq & ->)|[Hlt _]].
  - rewrite Hf in Hf'. apply (inj Some) in Hf'. subst filt'.
    exists fr, qv. auto.
  - apply lookup_lt_Some in Hf. lia.
Qed.

(** The block of a band that has no filter. *)
Lemma emitted_unused_band (preset : EQPreset F) L N :
  eq_preset_lines preset = Ok L -> 1 <= N <= 24 ->
  length (filters preset) < N ->
  band_block L N = block_lines N (generate_default_band_params N false).
Proof.
  intros HL HN Hlen.
  destruct (emitted_band_block preset L N HL HN) as (params & Hp & Hb).
  apply band_params_spec in Hp
    as [(filt' & fr & qv & Hle & _)|[_ ->]]; [lia | exact Hb].
Qed.

End BandFacts.

Lemma default_sets_differ N k :
  generate_default_band_params N true !! k <> generate_default_band_params N false !! k
  <-> k ∈ band_key N <$> flag_dependent_fields.
Proof.
  rewrite !generate_default_band_params_kmap.
  destruct (kmap (band_key N) (default_fields true) !! k) as [v|] eqn:E1.
  - apply (lookup_kmap_Some _) in E1 as (f & -> & Hf).
    rewrite (lookup_kmap _), <- Hf, flag_dependent_fields_spec.
    split.
    + intros H. now apply list_elem_of_fmap_2.
    + intros (g & Hg%(inj _) & H)%list_elem_of_fmap. now subst.
  - destruct (kmap (band_key N) (default_fields false) !! k) as [v|] eqn:E2.
    + apply (lookup_kmap_Some _) in E2 as (f & -> & Hf).
      rewrite (lookup_kmap _) in E1.
      assert (Hs : is_Some (default_fields true !! f)).
      { apply default_fields_dom. apply (default_fields_dom false). eauto. }
      rewrite E1 in Hs. now destruct Hs.
    + split; [congruence|].
      intros (f & -> & Hf)%list_elem_of_fmap. rewrite (lookup_kmap _) in E1.
      apply flag_dependent_fields_spec in Hf. exfalso. apply Hf.
      rewrite (lookup_kmap _) in E2. congruence.
Qed.

(** ** When the ideal platform emits *)

Lemma map_result_Ok {A B : Type} (f : A -> pyresult B) l :
  Forall (fun x => exists y, f x = Ok y) l -> exists ys, map_result f l = Ok ys.
Proof.
  induction 1 as [|x l [y Hx] _ [ys IH]]; cbn [map_result].
  - eauto.
  - rewrite Hx, IH. cbn. eauto.
Qed.

Lemma map_result_Raise {A B : Type} (f : A -> pyresult B) l e x :
  x ∈ l -> f x = Raise e ->
  Forall (fun x => (exists y, f x = Ok y) \/ f x = Raise e) l ->
  map_result f l = Raise e.
Proof.
  intros Hx Hfx Hall. induction Hall as [|x0 l H0 Hall IH]; [now apply elem_of_nil in Hx|].
  cbn [map_result]. destruct H0 as [[y Hy]|Hr].
  - rewrite Hy. cbn [mbind pyresult_bind].
    apply elem_of_cons in Hx as [->|Hx]; [congruence|].
    rewrite (IH Hx). reflexivity.
  - rewrite Hr. reflexivity.
Qed.

Section IdealEmits.
Variable fmt : R -> string.

Lemma ideal_band_params (preset : EQPreset (ideal fmt)) i : 1 <= i ->
  match filters preset !! (i - 1) with
  | Some filt =>
      if (i <=? length (filters preset))%nat then
        if decide (0 < frequency filt)%R
        then exists params, band_params preset i = Ok params
        else band_params preset i = Raise ValueError
      else exists params, band_params preset i = Ok params
  | None => exists params, band_params preset i = Ok params
  end.
Proof.
  intros Hi. unfold band_params, list_index.
  destruct (filters preset !! (i - 1)) as [filt|] eqn:Hf.
  - destruct (i <=? length (filters preset))%nat; [|eauto].
    cbn [mbind pyresult_bind]. unfold frequency_to_proq4.
    destruct (decide (0 < frequency filt)%R) as [Hpos|Hneg].
    + rewrite ideal_math_log2_pos by exact Hpos. cbn [mbind pyresult_bind].
      rewrite ideal_q_to_proq4. cbn [mbind pyresult_bind]. eauto.
    + rewrite ideal_math_log2_nonpos by lra. reflexivity.
  - destruct (Nat.leb_spec i (length (filters preset))) as [Hle|Hgt]; [|eauto].
    apply lookup_ge_None in Hf. lia.
Qed.

(** On the ideal platform the lines are emitted when every filter that has
    a band has a positive frequency. *)
Lemma ideal_emits (preset : EQPreset (ideal fmt)) :
  (forall j filt, j < 24 -> filters preset !! j = Some filt -> (0 < frequency filt)%R) ->
  exists L, eq_preset_lines preset = Ok L.
Proof.
  intros Hpos. rewrite eq_preset_lines_spec.
  destruct (map_result_Ok (band_params preset) (seq 1 24)) as [pars Hpars].
  { eapply Forall_impl; [apply bands_in_range|]. intros i Hi. cbv beta in Hi.
    pose proof (ideal_band_params preset i (proj1 Hi)) as H.
    destruct (filters preset !! (i - 1)) as [filt|] eqn:Hf; [|exact H].
    destruct (i <=? length (filters preset))%nat; [|exact H].
    destruct (decide (0 < frequency filt)%R) as [|Hn]; [exact H|].
    exfalso. apply Hn. apply (Hpos (i - 1)); [lia | exact Hf]. }
  rewrite Hpars. cbn [mbind pyresult_bind].
  rewrite ideal_output_level. cbn [mbind pyresult_bind]. eauto.
Qed.

(** It raises [ValueError] when one of them has not. *)
Lemma ideal_raises (preset : EQPreset (ideal fmt)) j filt :
  j < 24 -> filters preset !! j = Some filt -> (frequency filt <= 0)%R ->
  eq_preset_lines preset = Raise ValueError.
Proof.
  intros Hj Hf Hneg. rewrite eq_preset_lines_spec.
  rewrite (map_result_Raise (band_params preset) (seq 1 24) ValueError (S j)).
  - reflexivity.
  - apply elem_of_seq. lia.
  - pose proof (ideal_band_params preset (S j) ltac:(lia)) as H.
    replace (S j - 1) with j in H by lia. rewrite Hf in H.
    apply lookup_lt_Some in Hf.
    destruct (Nat.leb_spec (S j) (length (filters preset))); [|lia].
    destruct (decide (0 < frequency filt)%R); [lra | exact H].
  - apply Forall_forall. intros i Hi%elem_of_seq.
    pose proof (ideal_band_params preset i ltac:(lia)) as H.
    destruct (filters preset !! (i - 1)) as [filt'|]; [|auto].
    destruct (i <=? length (filters preset))%nat; [|auto].
    destruct (decide (0 < frequency filt')%R); auto.
Qed.

End IdealEmits.

(** ** A band that fails, on any platform *)

Lemma map_result_raises {A B : Type} (f : A -> pyresult B) l x e :
  x ∈ l -> f x = Raise e -> exists e', map_result f l = Raise e'.
Proof.
  intros Hx Hfx. induction l as [|x0 l IH]; [now apply elem_of_nil in Hx|].
  cbn [map_result]. destruct (f x0) as [y|e0] eqn:H0; [|eauto].
  cbn [mbind pyresult_bind].
  apply elem_of_cons in Hx as [->|Hx]; [congruence|].
  destruct (IH Hx) as [e' ->]. eauto.
Qed.

Lemma band_params_raises {F : PyFloat} (preset : EQPreset F) j filt e :
  filters preset !! j = Some filt ->
  frequency_to_proq4 (frequency filt) = Raise e ->
  band_params preset (S j) = Raise e.
Proof.
  intros Hf He. unfold band_params, list_index.
  replace (S j - 1) with j by lia. rewrite Hf.
  pose proof (lookup_lt_Some _ _ _ Hf) as Hlt.
  destruct (Nat.leb_spec (S j) (length (filters preset))) as [_|Hgt]; [|lia].
  cbn [mbind pyresult_bind]. rewrite He. reflexivity.
Qed.

(** When the frequency of a filter that has a band cannot be transformed,
    no lines are emitted. *)
Lemma failing_band_raises {F : PyFloat} (preset : EQPreset F) j filt e :
  j < 24 -> filters preset !! j = Some filt ->
  frequency_to_proq4 (frequency filt) = Raise e ->
  exists e', eq_preset_lines preset = Raise e'.
Proof.
  intros Hj Hf He. rewrite eq_preset_lines_spec.
  destruct (map_result_raises (band_params preset) (seq 1 24) (S j) e) as [e' ->].
  - apply elem_of_seq. lia.
  - now apply band_params_raises with filt.
  - eauto.
Qed.

(** ** The logarithms of the binary64 platform *)

Lemma SFcompare_refl x : x <> S754_nan -> SFcompare x x = Some Eq.
Proof.
  destruct x as [s|s| |s m e]; intros H; try congruence; try (destruct s; reflexivity).
  unfold SFcompare. destruct s; rewrite Z.compare_refl, Pos.compare_cont_refl; reflexivity.
Qed.

Lemma binary64_nonpositive x : PrimFloat.leb x PrimFloat.zero = true ->
  PrimFloat.ltb PrimFloat.zero x = false /\ PrimFloat.is_nan x = false.
Proof.
  rewrite FloatAxioms.leb_spec, FloatAxioms.ltb_spec.
  unfold PrimFloat.is_nan. rewrite FloatAxioms.eqb_spec.
  change (Prim2SF PrimFloat.zero) with (S754_zero false).
  unfold SFleb, SFltb, SFeqb.
  destruct (Prim2SF x) as [s|s| |s m e] eqn:Hx.
  - intros _. split; [reflexivity|]. now destruct s.
  - destruct s; [|discriminate]. intros _. split; reflexivity.
  - discriminate.
  - destruct s; [|discriminate]. intros _. split; [reflexivity|].
    rewrite SFcompare_refl by discriminate. reflexivity.
Qed.

Lemma binary64_checked_log_nonpositive f x :
  PrimFloat.leb x PrimFloat.zero = true -> Binary64.checked_log f x = Raise ValueError.
Proof.
  intros [Hlt Hnan]%binary64_nonpositive. unfold Binary64.checked_log.
  rewrite Hlt, Hnan. now destruct (PrimFloat.is_finite x).
Qed.

(** ** Signs, comparisons and exact quotients of doubles *)

Lemma iter_pos_invariant {A : Type} (P : A -> Prop) (f : A -> A) n x :
  (forall y, P y -> P (f y)) -> P x -> P (SpecFloat.iter_pos f n x).
Proof.
  intros Hf. revert x. induction n as [n IH|n IH|]; intros x Hx; simpl; auto.
Qed.

Lemma shr_1_nonneg mrs : (0 <= shr_m mrs)%Z -> (0 <= shr_m (shr_1 mrs))%Z.
Proof.
  destruct mrs as [m r s]. simpl. intros Hm.
  destruct m as [|p|p]; [simpl; lia | | lia].
  destruct p; simpl; lia.
Qed.

Lemma shr_nonneg mrs e n : (0 <= shr_m mrs)%Z -> (0 <= shr_m (fst (shr mrs e n)))%Z.
Proof.
  intros Hm. unfold shr. destruct n as [|p|p]; simpl; auto.
  apply (iter_pos_invariant (fun y => (0 <= shr_m y)%Z)); [apply shr_1_nonneg | exact Hm].
Qed.

Lemma shr_record_of_loc_m m l : shr_m (shr_record_of_loc m l) = m.
Proof. destruct l as [|[| |]]; reflexivity. Qed.

Lemma shr_fexp_nonneg prec emax m e l :
  (0 <= m)%Z -> (0 <= shr_m (fst (shr_fexp prec emax m e l)))%Z.
Proof.
  intros Hm. unfold shr_fexp. apply shr_nonneg. now rewrite shr_record_of_loc_m.
Qed.

Lemma round_nearest_even_nonneg m l : (0 <= m)%Z -> (0 <= round_nearest_even m l)%Z.
Proof.
  intros Hm. unfold round_nearest_even.
  destruct l as [|[| |]]; try lia. destruct (Z.even m); lia.
Qed.

Lemma binary_round_aux_nonneg prec emax m e l :
  (0 <= m)%Z -> sf_nonneg (binary_round_aux prec emax false m e l).
Proof.
  intros Hm. unfold binary_round_aux.
  pose proof (shr_fexp_nonneg prec emax m e l Hm) as H1.
  destruct (shr_fexp prec emax m e l) as [mrs' e']. cbn [fst] in H1.
  pose proof (shr_fexp_nonneg prec emax
                (round_nearest_even (shr_m mrs') (loc_of_shr_record mrs')) e' loc_Exact
                (round_nearest_even_nonneg _ _ H1)) as H2.
  destruct (shr_fexp prec emax _ e' loc_Exact) as [mrs'' e'']. cbn [fst] in H2.
  destruct (shr_m mrs'') as [|p|p]; [exact I | | lia].
  destruct (Z.leb e'' (Z.sub emax prec)); reflexivity.
Qed.

Lemma binary_round_nonneg prec emax m e : sf_nonneg (binary_round prec emax false m e).
Proof.
  unfold binary_round. destruct (shl_align _ _ _) as [mz ez].
  apply binary_round_aux_nonneg. lia.
Qed.

Lemma of_uint63_nonneg n : sf_nonneg (Prim2SF (PrimFloat.of_uint63 n)).
Proof.
  rewrite of_uint63_spec. unfold binary_normalize.
  pose proof (Uint63.to_Z_bounded n) as Hn.
  destruct (Uint63.to_Z n) as [|p|p]; [exact I | apply binary_round_nonneg | lia].
Qed.

Lemma ldshiftexp_nonneg f e :
  sf_nonneg (Prim2SF f) -> sf_nonneg (Prim2SF (PrimFloat.ldshiftexp f e)).
Proof.
  rewrite ldshiftexp_spec. unfold SFldexp.
  destruct (Prim2SF f) as [s|s| |s m ex]; try (intros H; exact H).
  simpl. intros ->. apply binary_round_nonneg.
Qed.

Lemma sf_nonneg_leb x : sf_nonneg (Prim2SF x) -> PrimFloat.leb PrimFloat.zero x = true.
Proof.
  rewrite FloatAxioms.leb_spec. change (Prim2SF PrimFloat.zero) with (S754_zero false).
  destruct (Prim2SF x) as [s|s| |s m e]; simpl; try (intros ->); try reflexivity.
  intros [].
Qed.

Lemma binary64_of_ratio_nonneg n d : sf_nonneg (Prim2SF (Binary64.of_ratio n d)).
Proof.
  unfold Binary64.of_ratio. destruct (n =? 0)%Z; [vm_compute; exact I|].
  destruct (Binary64.scaled n d _) as [n0 d0].
  destruct (Binary64.scaled n d _) as [n1 d1].
  unfold Z.ldexp. apply ldshiftexp_nonneg. apply of_uint63_nonneg.
Qed.

Lemma binary64_of_decimal_nonneg m k :
  PrimFloat.leb PrimFloat.zero (Binary64.of_decimal false m k) = true.
Proof. apply sf_nonneg_leb. unfold Binary64.of_decimal. apply binary64_of_ratio_nonneg. Qed.

Lemma leb_not_ltb_zero x :
  PrimFloat.leb PrimFloat.zero x = true -> PrimFloat.ltb PrimFloat.zero x = false ->
  PrimFloat.eqb x PrimFloat.zero = true.
Proof.
  rewrite FloatAxioms.leb_spec, FloatAxioms.ltb_spec, FloatAxioms.eqb_spec.
  change (Prim2SF PrimFloat.zero) with (S754_zero false).
  unfold SFleb, SFltb, SFeqb, SFcompare.
  destruct (Prim2SF x) as [s|s| |s m e]; try destruct s; intros; congruence.
Qed.

(** Where the frequency transform fails on a float that is not negative. *)
Lemma binary64_frequency_raises libm x e :
  PrimFloat.leb PrimFloat.zero x = true ->
  @frequency_to_proq4 (binary64 libm) x = Raise e ->
  PrimFloat.eqb x PrimFloat.zero = true
  \/ (PrimFloat.ltb PrimFloat.zero x = true
      /\ PrimFloat.is_nan (Binary64.libm_log2 libm x)
         || PrimFloat.is_infinity (Binary64.libm_log2 libm x) = true).
Proof.
  intros Hle. unfold frequency_to_proq4. cbn [math_log2 binary64].
  unfold Binary64.checked_log.
  destruct (PrimFloat.ltb PrimFloat.zero x) eqn:Hlt.
  - destruct (PrimFloat.is_finite x).
    + cbv zeta. destruct (_ || _); [auto | discriminate].
    + destruct (PrimFloat.is_nan x); discriminate.
  - intros _. left. now apply leb_not_ltb_zero.
Qed.

Lemma binary64_below_range libm q :
  PrimFloat.ltb q (@Q_MIN (binary64 libm)) = true ->
  PrimFloat.ltb q (@Q_MAX (binary64 libm)) = true
  /\ PrimFloat.ltb (@Q_MIN (binary64 libm)) q = false.
Proof.
  rewrite !FloatAxioms.ltb_spec.
  destruct (Prim2SF (@Q_MIN (binary64 libm))) as [| | |s1 m1 e1] eqn:E1; try (vm_compute in E1; discriminate E1).
  destruct (Prim2SF (@Q_MAX (binary64 libm))) as [| | |s2 m2 e2] eqn:E2; try (vm_compute in E2; discriminate E2).
  assert (Hs : s1 = false /\ s2 = false /\ (e1 < e2)%Z).
  { vm_compute in E1, E2. injection E1 as <- _ <-. injection E2 as <- _ <-. repeat split. }
  destruct Hs as (-> & -> & He). clear E1 E2.
  unfold SFltb, SFcompare.
  destruct (Prim2SF q) as [s|s| |s m e]; try destruct s; try (intros; split; congruence).
  destruct (Z.compare_spec e e1) as [->|Hlt|Hgt]; try discriminate.
  - rewrite (proj2 (Z.compare_lt_iff e1 e2)) by exact He. rewrite Z.compare_refl.
    change (Pos.compare_cont Eq m m1) with (Pos.compare m m1).
    change (Pos.compare_cont Eq m1 m) with (Pos.compare m1 m).
    rewrite (Pos.compare_antisym m m1).
    destruct (Pos.compare m m1); simpl; try discriminate. auto.
  - intros _. rewrite (proj2 (Z.compare_lt_iff e e2)) by lia.
    rewrite (proj2 (Z.compare_gt_iff e1 e)) by lia. auto.
Qed.

Lemma binary64_above_range libm q :
  PrimFloat.ltb (@Q_MAX (binary64 libm)) q = true ->
  PrimFloat.ltb q (@Q_MAX (binary64 libm)) = false.
Proof.
  rewrite !FloatAxioms.ltb_spec.
  destruct (Prim2SF (@Q_MAX (binary64 libm))) as [| | |s2 m2 e2] eqn:E2; try (vm_compute in E2; discriminate E2).
  assert (Hs : s2 = false) by (vm_compute in E2; now injection E2 as <- _ _).
  subst s2. clear E2.
  unfold SFltb, SFcompare.
  destruct (Prim2SF q) as [s|s| |s m e]; try destruct s; try congruence.
  destruct (Z.compare_spec e2 e) as [->|Hlt|Hgt]; try discriminate.
  - rewrite Z.compare_refl.
    change (Pos.compare_cont Eq m m2) with (Pos.compare m m2).
    change (Pos.compare_cont Eq m2 m) with (Pos.compare m2 m).
    rewrite (Pos.compare_antisym m2 m).
    destruct (Pos.compare m2 m); simpl; congruence.
  - intros _. rewrite (proj2 (Z.compare_gt_iff e e2)) by lia. reflexivity.
Qed.

Lemma binary64_q_below libm q t :
  PrimFloat.ltb q (@Q_MIN (binary64 libm)) = true ->
  @q_to_proq4 (binary64 libm) q t = @q_to_proq4 (binary64 libm) Q_MIN t.
Proof.
  intros Hq. destruct (binary64_below_range libm q Hq) as [H1 H2].
  unfold q_to_proq4, py_max, py_min. cbn [float_lt binary64].
  rewrite H1, H2.
  change (PrimFloat.ltb (@Q_MIN (binary64 libm)) (@Q_MAX (binary64 libm))) with true.
  cbv iota.
  change (PrimFloat.ltb (@Q_MIN (binary64 libm)) (@Q_MIN (binary64 libm))) with false.
  reflexivity.
Qed.

Lemma binary64_q_above libm q t :
  PrimFloat.ltb (@Q_MAX (binary64 libm)) q = true ->
  @q_to_proq4 (binary64 libm) q t = @q_to_proq4 (binary64 libm) Q_MAX t.
Proof.
  intros Hq. pose proof (binary64_above_range libm q Hq) as H1.
  unfold q_to_proq4, py_max, py_min. cbn [float_lt binary64].
  rewrite H1.
  change (PrimFloat.ltb (@Q_MAX (binary64 libm)) (@Q_MAX (binary64 libm))) with false.
  cbv iota.
  change (PrimFloat.ltb (@Q_MIN (binary64 libm)) (@Q_MAX (binary64 libm))) with true.
  reflexivity.
Qed.

Lemma div_eucl_shifted (m : positive) (k : Z) : (0 <= k)%Z ->
  Z.div_eucl (Z.shiftl (Z.pos m) k) (Z.pos m) = (2 ^ k, 0)%Z.
Proof.
  intros Hk. rewrite Z.shiftl_mul_pow2 by exact Hk.
  pose proof (Z.div_mul (2 ^ k) (Z.pos m) ltac:(lia)) as Hq.
  pose proof (Z.mod_mul (2 ^ k) (Z.pos m) ltac:(lia)) as Hr.
  rewrite (Z.mul_comm (Z.pos m)).
  unfold Z.div, Z.modulo in Hq, Hr.
  destruct (Z.div_eucl (2 ^ k * Z.pos m) (Z.pos m)) as [q r].
  now subst.
Qed.

(** A finite float divided by itself is 1. *)
Lemma SF64div_diag s m e :
  SF64div (S754_finite s m e) (S754_finite s m e) = Prim2SF 1.
Proof.
  unfold SF64div, SFdiv, SFdiv_core_binary.
  rewrite !Z.sub_diag.
  change (Z.min (fexp prec emax 0) 0) with (-53)%Z.
  change (0 - -53)%Z with 53%Z. cbv iota.
  rewrite div_eucl_shifted by lia.
  replace (new_location (Z.pos m) 0) with loc_Exact.
  - rewrite xorb_nilpotent. vm_compute. reflexivity.
  - unfold new_location, new_location_even, new_location_odd.
    destruct (Z.even (Z.pos m)); reflexivity.
Qed.

Lemma finite_nonzero_float (y : PrimFloat.float) :
  PrimFloat.is_finite y = true -> PrimFloat.is_zero y = false ->
  exists s m e, Prim2SF y = S754_finite s m e.
Proof.
  unfold PrimFloat.is_finite, PrimFloat.is_nan, PrimFloat.is_infinity, PrimFloat.is_zero.
  rewrite !FloatAxioms.eqb_spec, abs_spec.
  change (Prim2SF PrimFloat.zero) with (S754_zero false).
  change (Prim2SF PrimFloat.infinity) with (S754_infinity false).
  destruct (Prim2SF y) as [s|s| |s m e]; try destruct s; try discriminate; eauto.
Qed.

Lemma finite_float (y : PrimFloat.float) :
  PrimFloat.is_nan y || PrimFloat.is_infinity y = false ->
  (exists s, Prim2SF y = S754_zero s) \/ (exists s m e, Prim2SF y = S754_finite s m e).
Proof.
  unfold PrimFloat.is_nan, PrimFloat.is_infinity.
  rewrite !FloatAxioms.eqb_spec, abs_spec.
  change (Prim2SF PrimFloat.infinity) with (S754_infinity false).
  destruct (Prim2SF y) as [s|s| |s m e]; try destruct s; try discriminate; eauto.
Qed.

Lemma div_diag (y : PrimFloat.float) :
  PrimFloat.is_finite y = true -> PrimFloat.is_zero y = false ->
  PrimFloat.div y y = 1%float.
Proof.
  intros Hfin Hz. apply Prim2SF_inj. rewrite div_spec.
  destruct (finite_nonzero_float y Hfin Hz) as (s & m & e & ->).
  apply SF64div_diag.
Qed.

(** The difference of a finite float and itself is [+0]. *)
Lemma sub_diag (x : PrimFloat.float) :
  PrimFloat.is_nan x || PrimFloat.is_infinity x = false ->
  Prim2SF (PrimFloat.sub x x) = S754_zero false.
Proof.
  intros Hx. rewrite sub_spec.
  destruct (finite_float x Hx) as [[s ->]|(s & m & e & ->)].
  - now destruct s.
  - unfold SF64sub, SFsub. rewrite Z.sub_diag. reflexivity.
Qed.

(** [+0] divided by a finite float other than zero is a zero. *)
Lemma div_zero_l (x y : PrimFloat.float) :
  Prim2SF x = S754_zero false ->
  PrimFloat.is_finite y = true -> PrimFloat.is_zero y = false ->
  PrimFloat.eqb (PrimFloat.div x y) PrimFloat.zero = true.
Proof.
  intros Hx Hfin Hz. rewrite FloatAxioms.eqb_spec, div_spec, Hx.
  destruct (finite_nonzero_float y Hfin Hz) as (s & m & e & ->).
  reflexivity.
Qed.

Lemma checked_log_finite f x r :
  Binary64.checked_log f x = Ok r -> PrimFloat.is_finite x = true ->
  PrimFloat.is_nan r || PrimFloat.is_infinity r = false.
Proof.
  unfold Binary64.checked_log. intros H Hx. rewrite Hx in H.
  destruct (PrimFloat.ltb PrimFloat.zero x); [|discriminate].
  cbv zeta in H. destruct (_ || _) eqn:E; [discriminate|].
  apply Ok_inj in H. now subst r.
Qed.

(** On binary64, with any C library whose two logarithms are a finite
    distance apart, the ends of the Q range map to 0.0 and to 1.0. *)
Lemma binary64_q_boundaries libm t lo hi :
  @math_log (binary64 libm) Q_MIN = Ok lo ->
  @math_log (binary64 libm) Q_MAX = Ok hi ->
  PrimFloat.is_finite (PrimFloat.sub hi lo) = true ->
  PrimFloat.is_zero (PrimFloat.sub hi lo) = false ->
  (exists z, @q_to_proq4 (binary64 libm) Q_MIN t = Ok z
             /\ PrimFloat.eqb z PrimFloat.zero = true)
  /\ @q_to_proq4 (binary64 libm) Q_MAX t = Ok 1%float.
Proof.
  intros Hlo Hhi Hfin Hz.
  assert (Hlo' : PrimFloat.is_nan lo || PrimFloat.is_infinity lo = false).
  { cbn [math_log binary64] in Hlo. apply (checked_log_finite _ _ _ Hlo). reflexivity. }
  unfold q_to_proq4.
  change (py_max (@Q_MIN (binary64 libm)) (py_min Q_MAX Q_MIN)) with (@Q_MIN (binary64 libm)).
  change (py_max (@Q_MIN (binary64 libm)) (py_min Q_MAX Q_MAX)) with (@Q_MAX (binary64 libm)).
  rewrite Hlo, Hhi. cbn [mbind pyresult_bind float_div float_sub binary64].
  rewrite Hz. split.
  - eexists. split; [reflexivity|]. apply div_zero_l; [now apply sub_diag | exact Hfin | exact Hz].
  - f_equal. now apply div_diag.
Qed.

(** ** The sample inputs, parsed *)

Lemma parse_sample_text {F : PyFloat} : parse_text_preset sample_text = Ok sample_preset.
Proof. vm_compute. reflexivity. Qed.

Lemma parse_crowded_text {F : PyFloat} : parse_text_preset crowded_text = Ok crowded_preset.
Proof. vm_compute. reflexivity. Qed.

Lemma parse_silent_text {F : PyFloat} : parse_text_preset silent_text = Ok silent_preset.
Proof. vm_compute. reflexivity. Qed.

Lemma parse_empty_text {F : PyFloat} : parse_text_preset "" = Ok empty_preset.
Proof. vm_compute. reflexivity. Qed.

Lemma parse_round_trip_text {F : PyFloat} :
  parse_text_preset round_trip_text = Ok round_trip_preset.
Proof. vm_compute. reflexivity. Qed.

Lemma sample_frequencies_positive fmt j (filt : Filter (ideal fmt)) :
  filters sample_preset !! j = Some filt -> (0 < frequency filt)%R.
Proof.
  destruct j as [|[|j]]; cbn; intros [= <-]; cbn; unfold decimal_value; simpl; lra.
Qed.

Lemma crowded_frequencies_positive fmt j (filt : Filter (ideal fmt)) :
  j < 24 -> filters crowded_preset !! j = Some filt -> (0 < frequency filt)%R.
Proof.
  intros Hj Hf. unfold crowded_preset in Hf. cbn [filters] in Hf.
  rewrite lookup_app_l in Hf by (rewrite length_replicate; lia).
  apply lookup_replicate in Hf as [-> _].
  cbn. unfold decimal_value. simpl. lra.
Qed.

Lemma convert_text_to_ffp_spec {F : PyFloat} text out a t files :
  convert_text_to_ffp text out a t files =
  (preset ← parse_text_preset text;
   lines ← eq_preset_lines (with_metadata preset a t);
   Ok (<[out := join (String newline EmptyString) lines]> files)).
Proof.
  unfold convert_text_to_ffp, eq_preset_to_ffp.
  destruct (parse_text_preset text) as [preset|e]; [|reflexivity].
  cbn [mbind pyresult_bind].
  destruct (eq_preset_lines _) as [lines|e]; reflexivity.
Qed.

Lemma convert_of_parsed {F : PyFloat} text (preset : EQPreset F) out a t files L :
  parse_text_preset text = Ok preset ->
  eq_preset_lines (with_metadata preset a t) = Ok L ->
  convert_text_to_ffp text out a t files
  = Ok (<[out := join (String newline EmptyString) L]> files).
Proof.
  intros Hp HL. rewrite convert_text_to_ffp_spec, Hp. cbn [mbind pyresult_bind].
  rewrite HL. reflexivity.
Qed.

Lemma emitted_output_level {F : PyFloat} (preset : EQPreset F) L :
  eq_preset_lines preset = Ok L ->
  exists lvl, preamp_to_output_level (preamp preset) = Ok lvl
    /\ L !! 563 = Some ("Output Level=" +:+ float_str lvl).
Proof.
  intros (pars & lvl & Hp & Hlvl & ->)%eq_preset_lines_Ok.
  exists lvl. split; [exact Hlvl|].
  pose proof (Forall2_length _ _ _ Hp) as Hlen. cbn in Hlen. symmetry in Hlen.
  split_24 pars Hlen. reflexivity.
Qed.

Lemma binary64_output_level libm (x : PrimFloat.float) :
  @preamp_to_output_level (binary64 libm) x = Ok (PrimFloat.div x 36%float).
Proof. reflexivity. Qed.

(** An input in which no line is recognised parses to [empty_preset]. *)
Lemma parse_unrecognised {F : PyFloat} text :
  omap preamp_of_line (split_newline (strip text)) = [] ->
  omap filter_of_line (split_newline (strip text)) = [] ->
  parse_text_preset text = Ok empty_preset.
Proof.
  intros Hpre Hfil. rewrite parse_text_preset_spec, Hfil. unfold empty_preset.
  do 2 f_equal. clear Hfil. revert Hpre. generalize (float_of_decimal false 0 1).
  induction (split_newline (strip text)) as [|l ls IH]; intros x Hpre; [reflexivity|].
  cbn [omap list_omap] in Hpre. cbn [foldl].
  destruct (preamp_of_line l); [discriminate|]. now apply IH.
Qed.

Lemma binary64_empty_preset_lines libm a t :
  exists L, @eq_preset_lines (binary64 libm) (with_metadata empty_preset a t) = Ok L
    /\ L !! 563 = Some "Output Level=0.0".
Proof. eexists. split; [vm_compute; reflexivity | reflexivity]. Qed.

(** ** The number written in a filter line is not read *)

Lemma filter_pattern_split :
  filter_pattern
  = Seq (lit "Filter") (Seq (Plus py_isspace) (Seq (Plus py_isdigit)
      (Seq (Lit ":") filter_pattern_tail))).
Proof. reflexivity. Qed.

Lemma rstrip_app_nonempty a t : rstrip t <> "" -> rstrip (a +:+ t) = a +:+ rstrip t.
Proof.
  intros Ht. induction a as [|c a IH]; [reflexivity|].
  rewrite !string_app_cons. cbn [rstrip]. rewrite IH.
  destruct (a +:+ rstrip t) eqn:E; [|reflexivity].
  destruct a; [|discriminate]. now rewrite string_app_nil_l in E.
Qed.

Lemma rstrip_colon rest : rstrip (String ":" rest) = String ":" (rstrip rest).
Proof. cbn [rstrip]. destruct (rstrip rest); reflexivity. Qed.

Lemma strip_filter_line n rest :
  strip ("Filter " +:+ n +:+ ":" +:+ rest) = "Filter " +:+ n +:+ ":" +:+ rstrip rest.
Proof.
  unfold strip. change (lstrip ("Filter " +:+ n +:+ ":" +:+ rest))
    with ("Filter " +:+ n +:+ ":" +:+ rest).
  rewrite <- (string_app_assoc "Filter " n (":" +:+ rest)).
  change (":" +:+ rest) with (String ":" rest).
  rewrite rstrip_app_nonempty; rewrite rstrip_colon; [|discriminate].
  now rewrite string_app_assoc.
Qed.

(** Greedy digits before a colon: the continuation sees the colon, and no
    shorter run of digits can be followed by one. *)
Lemma star_digits_colon n s (k : string -> option captures) :
  all_digits n = true ->
  (forall c t, py_isdigit c = true -> k (String c t) = None) ->
  star_match py_isdigit (n +:+ String ":" s) k = k (String ":" s).
Proof.
  intros Hn Hk. induction n as [|c n IH]; [reflexivity|].
  unfold all_digits in Hn. cbn [all_chars] in Hn. apply andb_true_iff in Hn as [Hc Hn].
  rewrite string_app_cons. cbn [star_match]. rewrite Hc, (IH Hn).
  destruct (k (String ":" s)); [reflexivity|]. now apply Hk.
Qed.

Lemma digit_not_space c : py_isdigit c = true -> py_isspace c = false.
Proof.
  unfold py_isdigit, py_isspace, in_range.
  intros [H1 H2]%andb_true_iff. apply Nat.leb_le in H1, H2.
  repeat (apply orb_false_iff; split); try apply andb_false_iff;
    try (apply Nat.eqb_neq; lia).
  - right. apply Nat.leb_gt. lia.
  - right. apply Nat.leb_gt. lia.
Qed.

Lemma digit_not_colon_or_F c : py_isdigit c = true ->
  Ascii.eqb ":" c = false /\ Ascii.eqb "F" c = false.
Proof.
  intros H. split; [destruct (Ascii.eqb_spec ":" c) | destruct (Ascii.eqb_spec "F" c)];
    subst; try reflexivity; vm_compute in H; discriminate.
Qed.

(** The match of the filter pattern at the start of a numbered line. *)
Lemma filter_match_at_start c n s k :
  py_isdigit c = true -> all_digits n = true ->
  re_match filter_pattern ("Filter " +:+ String c n +:+ String ":" s) ∅ k
  = re_match filter_pattern_tail s ∅ k.
Proof.
  intros Hc Hn. rewrite filter_pattern_split.
  change ("Filter " +:+ String c n +:+ String ":" s)
    with (String "F" (String "i" (String "l" (String "t" (String "e" (String "r"
           (String " " (String c (n +:+ String ":" s))))))))).
  do 6 (cbn [re_match lit]; rewrite Ascii.eqb_refl).
  cbn [re_match lit star_match].
  change (py_isspace " ") with true. cbv iota.
  rewrite (digit_not_space c Hc), Hc.
  rewrite star_digits_colon; [|exact Hn|].
  - reflexivity.
  - intros c' t Hc'. cbn [re_match].
    destruct (digit_not_colon_or_F c' Hc') as [-> _]. reflexivity.
Qed.

Lemma filter_no_match_off_F c s k :
  Ascii.eqb "F" c = false -> re_match filter_pattern (String c s) ∅ k = None.
Proof. intros H. rewrite filter_pattern_split. cbn [re_match lit]. now rewrite H. Qed.

Lemma filter_search_skip w s :
  all_chars (fun c => negb (Ascii.eqb "F" c)) w = true ->
  re_search filter_pattern (w +:+ s) = re_search filter_pattern s.
Proof.
  induction w as [|c w IH]; [reflexivity|]. cbn [all_chars].
  intros [Hc Hw]%andb_true_iff. apply negb_true_iff in Hc.
  rewrite string_app_cons. cbn [re_search].
  rewrite (filter_no_match_off_F c _ _ Hc). now apply IH.
Qed.

Lemma digits_not_F n : all_digits n = true ->
  all_chars (fun c => negb (Ascii.eqb "F" c)) n = true.
Proof.
  induction n as [|c n IH]; [reflexivity|]. unfold all_digits. cbn [all_chars].
  intros [Hc Hn]%andb_true_iff. destruct (digit_not_colon_or_F c Hc) as [_ ->].
  now apply IH.
Qed.

(** [re.search] on a numbered filter line does not depend on the number. *)
Lemma filter_search_numbered c n s :
  py_isdigit c = true -> all_digits n = true ->
  re_search filter_pattern ("Filter " +:+ String c n +:+ String ":" s)
  = match re_match filter_pattern_tail s ∅ (fun _ caps => Some caps) with
    | Some m => Some m
    | None => re_search filter_pattern s
    end.
Proof.
  intros Hc Hn.
  assert (E : "Filter " +:+ String c n +:+ String ":" s
              = String "F" ("ilter " +:+ String c n +:+ String ":" s)) by reflexivity.
  rewrite E at 1. cbn [re_search]. rewrite <- E.
  rewrite (filter_match_at_start c n s _ Hc Hn).
  destruct (re_match filter_pattern_tail s ∅ _); [reflexivity|].
  replace ("ilter " +:+ String c n +:+ String ":" s)
    with (("ilter " +:+ String c n +:+ ":") +:+ s)
    by (now rewrite !string_app_assoc).
  apply filter_search_skip.
  rewrite !all_chars_app. rewrite andb_true_iff. split; [reflexivity|].
  rewrite andb_true_iff. split; [|reflexivity].
  apply (digits_not_F (String c n)). unfold all_digits in *. cbn [all_chars].
  now rewrite Hc, Hn.
Qed.

(** What a filter line contributes does not depend on the number written
    after [Filter]. *)
Lemma filter_number_irrelevant {F : PyFloat} n1 n2 rest :
  n1 <> "" -> all_digits n1 = true -> n2 <> "" -> all_digits n2 = true ->
  filter_of_line ("Filter " +:+ n1 +:+ ":" +:+ rest)
  = filter_of_line ("Filter " +:+ n2 +:+ ":" +:+ rest).
Proof.
  intros H1 D1 H2 D2. unfold filter_of_line. rewrite !strip_filter_line.
  destruct n1 as [|c1 n1]; [congruence|]. destruct n2 as [|c2 n2]; [congruence|].
  unfold all_digits in D1, D2. cbn [all_chars] in D1, D2.
  apply andb_true_iff in D1 as [C1 D1]. apply andb_true_iff in D2 as [C2 D2].
  change (startswith ("Filter " +:+ String c1 n1 +:+ ":" +:+ rstrip rest) "Preamp:") with false.
  change (startswith ("Filter " +:+ String c2 n2 +:+ ":" +:+ rstrip rest) "Preamp:") with false.
  change (startswith ("Filter " +:+ String c1 n1 +:+ ":" +:+ rstrip rest) "Filter") with true.
  change (startswith ("Filter " +:+ String c2 n2 +:+ ":" +:+ rstrip rest) "Filter") with true.
  cbv iota.
  change (":" +:+ rstrip rest) with (String ":" (rstrip rest)).
  rewrite (filter_search_numbered c1 n1 _ C1 D1), (filter_search_numbered c2 n2 _ C2 D2).
  reflexivity.
Qed.

Lemma filter_band_lines {F : PyFloat} N (filt : Filter F) fr qv :
  let block := block_lines N (filter_band_params N filt fr qv) in
  band_key N "Used" +:+ "=1" ∈ block
  /\ band_key N "Enabled" +:+ "=" +:+ (if enabled filt then "1" else "0") ∈ block
  /\ band_key N "Frequency" +:+ "=" +:+ float_str fr ∈ block
  /\ band_key N "Gain" +:+ "=" +:+ float_str (gain filt) ∈ block
  /\ band_key N "Q" +:+ "=" +:+ float_str qv ∈ block
  /\ band_key N "Shape" +:+ "=" +:+ str_int (filter_type_to_shape (filter_type filt)) ∈ block.
Proof.
  cbv zeta. unfold filter_band_params.
  pose proof (used_band_params_lookup N (if enabled filt then "1" else "0")
    (float_str fr) (float_str (gain filt)) (float_str qv)
    (str_int (filter_type_to_shape (filter_type filt)))) as H.
  cbv zeta in H. destruct H as (H1 & H2 & H3 & H4 & H5 & H6).
  assert (Hin : Forall (fun f => f ∈ band_fields) overwritten_fields) by compute_done.
  rewrite Forall_forall in Hin.
  split; [apply (block_lines_elem N _ "Used" "1"); [apply Hin; compute_done | exact H1]|].
  split; [apply block_lines_elem; [apply Hin; compute_done | exact H2]|].
  split; [apply block_lines_elem; [apply Hin; compute_done | exact H3]|].
  split; [apply block_lines_elem; [apply Hin; compute_done | exact H4]|].
  split; [apply block_lines_elem; [apply Hin; compute_done | exact H5]|].
  apply block_lines_elem; [apply Hin; compute_done | exact H6].
Qed.

Lemma sample_emits fmt a t :
  exists L, @eq_preset_lines (ideal fmt) (with_metadata sample_preset a t) = Ok L.
Proof.
  apply ideal_emits. intros j filt _ Hf. now apply (sample_frequencies_positive fmt j).
Qed.

Lemma band_block_subseteq (L : list string) N : band_block L N ⊆ L.
Proof.
  unfold band_block. etransitivity; [apply subseteq_take | apply subseteq_drop].
Qed.

(** ** Matches that succeed at the first try *)

Lemma star_match_longest p w s k m :
  all_chars p w = true -> no_start p s -> k s = Some m ->
  star_match p (w +:+ s) k = Some m.
Proof.
  intros Hw Hs Hk. induction w as [|c w IH].
  - rewrite string_app_nil_l. destruct s as [|c s]; [exact Hk|].
    cbn [star_match]. cbn in Hs. rewrite Hs. exact Hk.
  - cbn [all_chars] in Hw. apply andb_true_iff in Hw as [Hc Hw].
    rewrite string_app_cons. cbn [star_match]. rewrite Hc, (IH Hw). reflexivity.
Qed.

Lemma match_lit w s caps k : re_match (lit w) (w +:+ s) caps k = k s caps.
Proof.
  induction w as [|c w IH]; [reflexivity|].
  rewrite string_app_cons. cbn [lit re_match]. rewrite Ascii.eqb_refl. exact IH.
Qed.

Lemma match_plus p w s caps k m :
  w <> "" -> all_chars p w = true -> no_start p s -> k s caps = Some m ->
  re_match (Plus p) (w +:+ s) caps k = Some m.
Proof.
  intros Hne Hw Hs Hk. destruct w as [|c w]; [congruence|].
  cbn [all_chars] in Hw. apply andb_true_iff in Hw as [Hc Hw].
  rewrite string_app_cons. cbn [re_match]. rewrite Hc.
  now apply star_match_longest.
Qed.

Lemma match_star p w s caps k m :
  all_chars p w = true -> no_start p s -> k s caps = Some m ->
  re_match (Star p) (w +:+ s) caps k = Some m.
Proof. intros Hw Hs Hk. cbn [re_match]. now apply star_match_longest. Qed.

Lemma match_group n r w s caps k m :
  re_match r (w +:+ s) caps (fun s' caps' => k s' (<[n := consumed (w +:+ s) s']> caps'))
    = Some m ->
  re_match (Group n r) (w +:+ s) caps k = Some m.
Proof. intros H. exact H. Qed.

Lemma no_start_digit s : no_start numeral_char s -> no_start py_isdigit s.
Proof. destruct s as [|c s]; [auto|]. cbn. unfold numeral_char. now intros [? _]%orb_false_iff. Qed.

Lemma match_unsigned f s caps k m :
  lang unsigned_number f -> no_start numeral_char s -> k s caps = Some m ->
  re_match unsigned_number (f +:+ s) caps k = Some m.
Proof.
  simpl lang.
  intros (w1 & r1 & -> & (c & w1' & -> & Hc & Hw1)
            & (w2 & r2 & -> & Hdot & (w3 & r3 & -> & Hw3 & ->))) Hs Hk.
  rewrite string_app_nil_r.
  unfold unsigned_number. cbn [seqs]. cbn [re_match].
  destruct Hdot as [->| ->].
  - rewrite !string_app_assoc. rewrite (string_app_cons c w1').
    rewrite Hc.
    apply star_match_longest; [exact Hw1 | reflexivity |].
    change ("." +:+ w3 +:+ s) with (String "." (w3 +:+ s)).
    cbv beta iota. change (Ascii.eqb "." ".") with true. cbv iota.
    rewrite (star_match_longest py_isdigit w3 s _ m Hw3 (no_start_digit s Hs) Hk).
    reflexivity.
  - rewrite string_app_nil_l.
    replace ((String c w1' +:+ w3) +:+ s) with (String c ((w1' +:+ w3) +:+ s))
      by (now rewrite !string_app_cons).
    cbv iota. rewrite Hc.
    apply star_match_longest.
    + rewrite all_chars_app. now rewrite Hw1, Hw3.
    + now apply no_start_digit.
    + assert (Hk' : star_match py_isdigit s (fun s' => k s' caps) = Some m).
      { apply (star_match_longest py_isdigit "" s);
          [reflexivity | now apply no_start_digit | exact Hk]. }
      destruct s as [|c' s']; [exact Hk'|].
      cbn in Hs. unfold numeral_char in Hs. apply orb_false_iff in Hs as [_ Hs].
      rewrite Hs. exact Hk'.
Qed.

Lemma digit_not_minus c : py_isdigit c = true -> Ascii.eqb "-" c = false.
Proof.
  intros H. destruct (Ascii.eqb_spec "-" c); [|reflexivity].
  subst. vm_compute in H. discriminate.
Qed.

Lemma match_signed g s caps k m :
  lang signed_number g -> no_start numeral_char s -> k s caps = Some m ->
  re_match signed_number (g +:+ s) caps k = Some m.
Proof.
  intros (w1 & w2 & -> & Hsign & Hw2) Hs Hk.
  unfold signed_number. cbn [re_match].
  pose proof (match_unsigned w2 s caps k m Hw2 Hs Hk) as Hu.
  destruct Hsign as [->| ->].
  - change (("-" +:+ w2) +:+ s) with (String "-" (w2 +:+ s)).
    cbv iota. change (Ascii.eqb "-" "-") with true. cbv iota.
    rewrite Hu. reflexivity.
  - rewrite string_app_nil_l.
    destruct (unsigned_starts_with_digit w2 Hw2) as (c & w' & -> & Hc).
    rewrite string_app_cons in Hu |- *. cbv iota.
    rewrite (digit_not_minus c Hc). exact Hu.
Qed.

Lemma match_seq r1 r2 s caps k :
  re_match (Seq r1 r2) s caps k
  = re_match r1 s caps (fun s' caps' => re_match r2 s' caps' k).
Proof. reflexivity. Qed.

Lemma match_alt_first r1 r2 s caps k m :
  re_match r1 s caps k = Some m -> re_match (Alt r1 r2) s caps k = Some m.
Proof. intros H. cbn [re_match]. now rewrite H. Qed.

Lemma match_alt_second r1 r2 s caps k m :
  re_match r1 s caps k = None -> re_match r2 s caps k = Some m ->
  re_match (Alt r1 r2) s caps k = Some m.
Proof. intros H1 H2. cbn [re_match]. now rewrite H1. Qed.

Lemma space_not_numeral s : no_start numeral_char (String " " s).
Proof. reflexivity. Qed.

Lemma unsigned_no_space f s : lang unsigned_number f -> no_start py_isspace (f +:+ s).
Proof.
  intros (c & w & -> & Hc)%unsigned_starts_with_digit.
  rewrite string_app_cons. cbn. now apply digit_not_space.
Qed.

Lemma signed_no_space g s : lang signed_number g -> no_start py_isspace (g +:+ s).
Proof.
  intros (w1 & w2 & -> & [->| ->] & Hw2).
  - reflexivity.
  - rewrite string_app_nil_l. now apply unsigned_no_space.
Qed.

Ltac next_token := rewrite match_seq; cbv beta.

Lemma filter_tail_match (on : bool) T f g q rest :
  T <> "" -> all_chars py_isword T = true ->
  lang unsigned_number f -> lang signed_number g -> lang unsigned_number q ->
  no_start numeral_char rest ->
  re_match filter_pattern_tail
    (" " +:+ (if on then "ON" else "OFF") +:+ " " +:+ T +:+ " " +:+ "Fc" +:+ " " +:+ f
     +:+ " " +:+ "Hz" +:+ " " +:+ "Gain" +:+ " " +:+ g +:+ " " +:+ "dB" +:+ " " +:+ "Q"
     +:+ " " +:+ q +:+ rest) ∅ (fun _ caps => Some caps)
  = Some (filter_captures (if on then "ON" else "OFF") T f g q).
Proof.
  intros HT HTw Hf Hg Hq Hrest.
  unfold filter_pattern_tail. cbn [seqs].
  next_token. apply match_plus; [discriminate | reflexivity | now destruct on |].
  next_token. apply match_group.
  assert (Hon : forall s k m,
            k s ∅ = Some m ->
            re_match (Alt (lit "ON") (lit "OFF")) ((if on then "ON" else "OFF") +:+ s) ∅ k
            = Some m).
  { intros s k m Hk. destruct on.
    - apply match_alt_first. now rewrite match_lit.
    - apply match_alt_second; [reflexivity|]. now rewrite match_lit. }
  apply Hon. rewrite consumed_app.
  next_token. apply match_plus; [discriminate | reflexivity | |].
  { destruct T as [|c T]; [congruence|]. rewrite string_app_cons. cbn.
    cbn [all_chars] in HTw. apply andb_true_iff in HTw as [Hc _].
    destruct (py_isspace c) eqn:E; [|reflexivity].
    exfalso. revert Hc E. clear.
    destruct c as [[] [] [] [] [] [] [] []]; vm_compute; congruence. }
  next_token. apply match_group. apply match_plus; [exact HT | exact HTw | reflexivity |].
  rewrite consumed_app.
  next_token. apply match_plus; [discriminate | reflexivity | reflexivity |].
  next_token. rewrite match_lit.
  next_token. apply match_plus; [discriminate | reflexivity | now apply unsigned_no_space |].
  next_token. apply match_group. apply match_unsigned; [exact Hf | reflexivity |].
  rewrite consumed_app.
  next_token. apply match_star; [reflexivity | reflexivity |].
  next_token. rewrite match_lit.
  next_token. apply match_plus; [discriminate | reflexivity | reflexivity |].
  next_token. rewrite match_lit.
  next_token. apply match_plus; [discriminate | reflexivity | now apply signed_no_space |].
  next_token. apply match_group. apply match_signed; [exact Hg | reflexivity |].
  rewrite consumed_app.
  next_token. apply match_star; [reflexivity | reflexivity |].
  next_token. rewrite match_lit.
  next_token. apply match_plus; [discriminate | reflexivity | reflexivity |].
  next_token. rewrite match_lit.
  next_token. apply match_plus; [discriminate | reflexivity | now apply unsigned_no_space |].
  next_token. apply match_group. apply match_unsigned; [exact Hq | exact Hrest |].
  rewrite consumed_app. reflexivity.
Qed.

(** ** Numerals of the patterns *)

Lemma unsigned_digits w : w <> "" -> all_digits w = true -> lang unsigned_number w.
Proof.
  intros Hne Hw. destruct w as [|c w]; [congruence|].
  unfold all_digits in Hw. cbn [all_chars] in Hw. apply andb_true_iff in Hw as [Hc Hw].
  exists (String c w), "". split; [now rewrite string_app_nil_r|].
  split; [exists c, w; auto|].
  exists "", "". split; [reflexivity|]. split; [now right|].
  exists "", "". repeat split.
Qed.

Lemma unsigned_point a b : a <> "" -> all_digits a = true -> all_digits b = true ->
  lang unsigned_number (a +:+ "." +:+ b).
Proof.
  intros Hne Ha Hb. destruct a as [|c a]; [congruence|].
  unfold all_digits in Ha. cbn [all_chars] in Ha. apply andb_true_iff in Ha as [Hc Ha].
  exists (String c a), ("." +:+ b). split; [reflexivity|].
  split; [exists c, a; auto|].
  exists ".", b. split; [reflexivity|]. split; [now left|].
  exists b, "". split; [now rewrite string_app_nil_r|]. split; [exact Hb | reflexivity].
Qed.

Lemma signed_plain w : lang unsigned_number w -> lang signed_number w.
Proof. intros H. exists "", w. split; [reflexivity|]. split; [now right | exact H]. Qed.

Lemma signed_minus w : lang unsigned_number w -> lang signed_number ("-" +:+ w).
Proof. intros H. exists "-", w. split; [reflexivity|]. split; [now left | exact H]. Qed.

(** ** Blanks at the end of a line *)

Lemma rstrip_app_no_space a t : a <> "" -> no_space a = true ->
  rstrip (a +:+ t) = a +:+ rstrip t.
Proof.
  intros Hne Ha. induction a as [|c a IH]; [congruence|].
  unfold no_space in Ha. cbn [all_chars] in Ha. apply andb_true_iff in Ha as [Hc Ha].
  apply negb_true_iff in Hc.
  rewrite !string_app_cons. cbn [rstrip].
  destruct a as [|c' a].
  - rewrite !string_app_nil_l. rewrite Hc. now destruct (rstrip t).
  - rewrite IH by (discriminate || exact Ha). now rewrite string_app_cons.
Qed.

Lemma no_start_rstrip p s : no_start p s -> no_start p (rstrip s).
Proof.
  destruct s as [|c s]; [auto|]. cbn [rstrip no_start]. intros Hc.
  destruct (rstrip s); [destruct (py_isspace c)|]; cbn; auto.
Qed.

Lemma digits_no_space w : all_digits w = true -> no_space w = true.
Proof.
  induction w as [|c w IH]; [reflexivity|]. unfold all_digits, no_space. cbn [all_chars].
  intros [Hc Hw]%andb_true_iff. rewrite (digit_not_space c Hc). now apply IH.
Qed.

Lemma no_space_app a b : no_space (a +:+ b) = no_space a && no_space b.
Proof. apply all_chars_app. Qed.

Lemma unsigned_no_space_chars f : lang unsigned_number f -> no_space f = true.
Proof.
  simpl lang.
  intros (w1 & r1 & -> & (c & w1' & -> & Hc & Hw1)
            & (w2 & r2 & -> & Hdot & (w3 & r3 & -> & Hw3 & ->))).
  rewrite !no_space_app.
  rewrite (digits_no_space (String c w1')) by (unfold all_digits; cbn; now rewrite Hc, Hw1).
  rewrite (digits_no_space w3 Hw3). now destruct Hdot as [->| ->].
Qed.

Lemma group_filter_captures a b c d e :
  group (filter_captures a b c d e) 1 = Ok a
  /\ group (filter_captures a b c d e) 2 = Ok b
  /\ group (filter_captures a b c d e) 3 = Ok c
  /\ group (filter_captures a b c d e) 4 = Ok d
  /\ group (filter_captures a b c d e) 5 = Ok e.
Proof.
  unfold group, filter_captures.
  repeat split;
    repeat (rewrite lookup_insert_ne by lia); now rewrite lookup_insert_eq.
Qed.

Lemma strip_filter_line_fields n (on : bool) T f g q rest :
  lang unsigned_number q ->
  strip (filter_line n on T f g q rest)
  = "Filter " +:+ n +:+ ":" +:+
    (" " +:+ (if on then "ON" else "OFF") +:+ " " +:+ T +:+ " " +:+ "Fc" +:+ " " +:+ f
     +:+ " " +:+ "Hz" +:+ " " +:+ "Gain" +:+ " " +:+ g +:+ " " +:+ "dB" +:+ " " +:+ "Q"
     +:+ " " +:+ q +:+ rstrip rest).
Proof.
  intros Hq. unfold filter_line.
  change (": " +:+ (if on then "ON" else "OFF") +:+ " " +:+ T +:+ " Fc " +:+ f
          +:+ " Hz Gain " +:+ g +:+ " dB Q " +:+ q +:+ rest)
    with (":" +:+ (" " +:+ (if on then "ON" else "OFF") +:+ " " +:+ T +:+ " " +:+ "Fc"
          +:+ " " +:+ f +:+ " " +:+ "Hz" +:+ " " +:+ "Gain" +:+ " " +:+ g +:+ " " +:+ "dB"
          +:+ " " +:+ "Q" +:+ " " +:+ q +:+ rest)).
  rewrite strip_filter_line. do 3 f_equal.
  assert (Hq' : rstrip (q +:+ rest) = q +:+ rstrip rest).
  { apply rstrip_app_no_space; [|now apply unsigned_no_space_chars].
    destruct (unsigned_starts_with_digit q Hq) as (c & w & -> & _). discriminate. }
  assert (Hne : rstrip (q +:+ rest) <> "").
  { rewrite Hq'. destruct (unsigned_starts_with_digit q Hq) as (c & w & -> & _). discriminate. }
  set (P := " " +:+ (if on then "ON" else "OFF") +:+ " " +:+ T +:+ " " +:+ "Fc" +:+ " " +:+ f
            +:+ " " +:+ "Hz" +:+ " " +:+ "Gain" +:+ " " +:+ g +:+ " " +:+ "dB" +:+ " " +:+ "Q"
            +:+ " ").
  transitivity (rstrip (P +:+ (q +:+ rest))).
  { f_equal. unfold P. now rewrite !string_app_assoc. }
  rewrite rstrip_app_nonempty by exact Hne. rewrite Hq'.
  unfold P. now rewrite !string_app_assoc.
Qed.

(** ** Stripping *)

Lemma lstrip_blank_app w s : blank w = true -> lstrip (w +:+ s) = lstrip s.
Proof.
  induction w as [|c w IH]; [reflexivity|]. unfold blank. cbn [all_chars].
  intros [Hc Hw]%andb_true_iff. rewrite string_app_cons. cbn [lstrip]. rewrite Hc.
  now apply IH.
Qed.

Lemma rstrip_blank w : blank w = true -> rstrip w = "".
Proof.
  induction w as [|c w IH]; [reflexivity|]. unfold blank. cbn [all_chars].
  intros [Hc Hw]%andb_true_iff. cbn [rstrip]. rewrite (IH Hw), Hc. reflexivity.
Qed.

Lemma rstrip_app_blank s w : blank w = true -> rstrip (s +:+ w) = rstrip s.
Proof.
  intros Hw. induction s as [|c s IH].
  - rewrite string_app_nil_l. now apply rstrip_blank.
  - rewrite string_app_cons. cbn [rstrip]. now rewrite IH.
Qed.

Lemma lstrip_blank w : blank w = true -> lstrip w = "".
Proof.
  intros Hw. rewrite <- (string_app_nil_r w). now rewrite lstrip_blank_app.
Qed.

Lemma lstrip_app_not_blank s w : blank s = false -> lstrip (s +:+ w) = lstrip s +:+ w.
Proof.
  induction s as [|c s IH]; [discriminate|]. unfold blank. cbn [all_chars].
  rewrite string_app_cons. cbn [lstrip].
  destruct (py_isspace c); [|reflexivity]. cbn. exact IH.
Qed.

Lemma strip_blank w : blank w = true -> strip w = "".
Proof. intros Hw. unfold strip. now rewrite lstrip_blank. Qed.

(** Blanks around a text do not change what [strip] answers. *)
Lemma strip_around w1 s w2 : blank w1 = true -> blank w2 = true ->
  strip (w1 +:+ s +:+ w2) = strip s.
Proof.
  intros H1 H2. unfold strip. rewrite lstrip_blank_app by exact H1.
  destruct (blank s) eqn:Hs.
  - rewrite lstrip_blank.
    + now rewrite lstrip_blank.
    + unfold blank in *. rewrite all_chars_app. now rewrite Hs, H2.
  - rewrite lstrip_app_not_blank by exact Hs. now apply rstrip_app_blank.
Qed.

Lemma lstrip_decompose s : exists w, blank w = true /\ s = w +:+ lstrip s.
Proof.
  induction s as [|c s (w & Hw & E)]; [now exists ""|].
  cbn [lstrip]. destruct (py_isspace c) eqn:Hc.
  - exists (String c w). split; [unfold blank in *; cbn; now rewrite Hc|].
    rewrite string_app_cons. now f_equal.
  - now exists "".
Qed.

Lemma rstrip_decompose s : exists w, blank w = true /\ s = rstrip s +:+ w.
Proof.
  induction s as [|c s (w & Hw & E)]; [now exists ""|].
  cbn [rstrip]. destruct (rstrip s) as [|c' r] eqn:Hr.
  - rewrite string_app_nil_l in E. subst w. destruct (py_isspace c) eqn:Hc.
    + exists (String c s). split; [unfold blank in *; cbn; now rewrite Hc|]. reflexivity.
    + exists s. split; [exact Hw | reflexivity].
  - exists w. split; [exact Hw|]. rewrite string_app_cons. now f_equal.
Qed.

Lemma strip_decompose s : exists w1 w2,
  blank w1 = true /\ blank w2 = true /\ s = w1 +:+ strip s +:+ w2.
Proof.
  destruct (lstrip_decompose s) as (w1 & H1 & E1).
  destruct (rstrip_decompose (lstrip s)) as (w2 & H2 & E2).
  exists w1, w2. split; [exact H1|]. split; [exact H2|].
  unfold strip. now rewrite <- E2.
Qed.

Lemma strip_idempotent s : strip (strip s) = strip s.
Proof.
  destruct (strip_decompose s) as (w1 & w2 & H1 & H2 & E).
  rewrite E at 2. now rewrite strip_around.
Qed.

(** ** Lines *)

Lemma split_newline_cons s : exists x xs, split_newline s = x :: xs.
Proof.
  induction s as [|c s (x & xs & E)]; [now exists "", []|].
  cbn [split_newline]. destruct (Ascii.eqb c newline); [eauto|]. rewrite E. eauto.
Qed.

Lemma split_newline_app a b : split_newline (a +:+ b) = glue (split_newline a) (split_newline b).
Proof.
  induction a as [|c a IH].
  - rewrite string_app_nil_l. cbn. destruct (split_newline_cons b) as (y & ys & ->).
    reflexivity.
  - rewrite string_app_cons. cbn [split_newline].
    destruct (split_newline_cons a) as (x & xs & Ea).
    destruct (Ascii.eqb c newline).
    + rewrite IH, Ea. reflexivity.
    + rewrite IH, Ea.
      destruct (split_newline_cons b) as (y & ys & Eb). rewrite Eb.
      destruct xs as [|x' xs]; cbn [glue]; [now rewrite string_app_cons | reflexivity].
Qed.

Lemma split_newline_blank w : blank w = true ->
  Forall (fun l => blank l = true) (split_newline w).
Proof.
  induction w as [|c w IH]; [repeat constructor|]. unfold blank at 1. cbn [all_chars].
  intros [Hc Hw]%andb_true_iff. cbn [split_newline].
  specialize (IH Hw). destruct (Ascii.eqb c newline); [now constructor|].
  destruct (split_newline_cons w) as (x & xs & E). rewrite E in IH |- *.
  inversion IH; subst. constructor; [|assumption].
  unfold blank in *. cbn. now rewrite Hc.
Qed.

(** ** Functions of a line that strip it first *)

Section LineFunctions.
Context {A : Type} (g : string -> option A).
Hypothesis g_strip : forall l, g l = g (strip l).
Hypothesis g_empty : g "" = None.

Lemma line_blank l : blank l = true -> g l = None.
Proof. intros Hl. now rewrite g_strip, strip_blank. Qed.

Lemma line_around w1 l w2 : blank w1 = true -> blank w2 = true ->
  g (w1 +:+ l +:+ w2) = g l.
Proof. intros H1 H2. rewrite g_strip, strip_around by assumption. now rewrite <- g_strip. Qed.

Lemma omap_blank_lines L : Forall (fun l => blank l = true) L -> omap g L = [].
Proof.
  induction 1 as [|l L Hl _ IH]; [reflexivity|].
  cbn [omap list_omap]. rewrite (line_blank l Hl). exact IH.
Qed.

Lemma omap_glue_blank_l L1 L2 :
  Forall (fun l => blank l = true) L1 -> L2 <> [] ->
  omap g (glue L1 L2) = omap g L2.
Proof.
  intros H1 H2. destruct L2 as [|h tl]; [congruence|]. clear H2.
  induction H1 as [|v L1 Hv H1 IH]; [reflexivity|].
  destruct L1 as [|v' L1].
  - cbn [glue omap list_omap].
    rewrite <- (string_app_nil_r (v +:+ h)), string_app_assoc.
    now rewrite (line_around v h "" Hv eq_refl).
  - change (glue (v :: v' :: L1) (h :: tl)) with (v :: glue (v' :: L1) (h :: tl)).
    cbn [omap list_omap]. rewrite (line_blank v Hv). exact IH.
Qed.

Lemma omap_glue_blank_r L1 L2 :
  L1 <> [] -> Forall (fun l => blank l = true) L2 ->
  omap g (glue L1 L2) = omap g L1.
Proof.
  intros H1 H2. induction L1 as [|x L1 IH]; [congruence|]. clear H1.
  destruct L1 as [|x' L1].
  - destruct H2 as [|w L2 Hw H2]; [reflexivity|].
    cbn [glue omap list_omap].
    rewrite (line_around "" x w eq_refl Hw : g (x +:+ w) = g x).
    now rewrite (omap_blank_lines L2 H2).
  - change (glue (x :: x' :: L1) L2) with (x :: glue (x' :: L1) L2).
    cbn [omap list_omap]. rewrite IH by discriminate. reflexivity.
Qed.

Lemma split_newline_nonempty s : split_newline s <> [].
Proof. destruct (split_newline_cons s) as (x & xs & ->). discriminate. Qed.

Lemma omap_lines_blank_l w t : blank w = true ->
  omap g (split_newline (w +:+ t)) = omap g (split_newline t).
Proof.
  intros Hw. rewrite split_newline_app.
  apply omap_glue_blank_l; [now apply split_newline_blank | apply split_newline_nonempty].
Qed.

Lemma omap_lines_blank_r t w : blank w = true ->
  omap g (split_newline (t +:+ w)) = omap g (split_newline t).
Proof.
  intros Hw. rewrite split_newline_app.
  apply omap_glue_blank_r; [apply split_newline_nonempty | now apply split_newline_blank].
Qed.

(** Stripping the text first does not change what its lines give. *)
Lemma omap_lines_strip t : omap g (split_newline (strip t)) = omap g (split_newline t).
Proof.
  destruct (strip_decompose t) as (w1 & w2 & H1 & H2 & E).
  rewrite E at 2. rewrite omap_lines_blank_l by exact H1.
  now rewrite omap_lines_blank_r by exact H2.
Qed.

End LineFunctions.

Lemma split_one_line l : one_line l = true -> split_newline l = [l].
Proof.
  induction l as [|c l IH]; [reflexivity|]. unfold one_line. cbn [all_chars].
  intros [Hc Hl]%andb_true_iff. apply negb_true_iff in Hc.
  cbn [split_newline]. rewrite Hc, (IH Hl). reflexivity.
Qed.

Lemma split_join ls : ls <> [] -> Forall (fun l => one_line l = true) ls ->
  split_newline (join (String newline "") ls) = ls.
Proof.
  intros Hne Hls. induction Hls as [|x ls Hx Hls IH]; [congruence|]. clear Hne.
  destruct ls as [|y ls]; [now apply split_one_line|].
  change (join (String newline "") (x :: y :: ls))
    with (x +:+ String newline "" +:+ join (String newline "") (y :: ls)).
  rewrite split_newline_app, (split_one_line x Hx).
  change (String newline "" +:+ ?s) with (String newline s).
  cbn [split_newline]. rewrite Ascii.eqb_refl. cbn [glue].
  rewrite string_app_nil_r, IH by discriminate. reflexivity.
Qed.

Lemma split_crlf t : split_newline (crlf t) = add_cr (split_newline t).
Proof.
  induction t as [|c t IH]; [reflexivity|].
  cbn [crlf split_newline]. destruct (Ascii.eqb c newline) eqn:Hc.
  - cbn [split_newline]. change (Ascii.eqb (ascii_of_nat 13) newline) with false.
    rewrite Ascii.eqb_refl. cbv iota. rewrite IH.
    destruct (split_newline_cons t) as (x & xs & ->). reflexivity.
  - cbn [split_newline]. rewrite Hc, IH.
    destruct (split_newline_cons t) as (x & xs & ->).
    destruct xs as [|x' xs]; reflexivity.
Qed.

Section ParserLines.
Context {F : PyFloat}.

Lemma filter_of_line_strip l : filter_of_line l = filter_of_line (strip l).
Proof. unfold filter_of_line. now rewrite strip_idempotent. Qed.

Lemma preamp_of_line_strip l : preamp_of_line l = preamp_of_line (strip l).
Proof. unfold preamp_of_line. now rewrite strip_idempotent. Qed.

Lemma omap_add_cr {A : Type} (g : string -> option A) L :
  (forall l, g l = g (strip l)) -> omap g (add_cr L) = omap g L.
Proof.
  intros Hg. induction L as [|x L IH]; [reflexivity|].
  destruct L as [|y L]; [reflexivity|].
  change (add_cr (x :: y :: L)) with ((x +:+ String (ascii_of_nat 13) "") :: add_cr (y :: L)).
  cbn [omap list_omap]. fold (omap g (add_cr (y :: L))). fold (omap g (y :: L)).
  rewrite IH.
  now rewrite (line_around g Hg "" x (String (ascii_of_nat 13) "") eq_refl eq_refl
               : g (x +:+ String (ascii_of_nat 13) "") = g x).
Qed.

Lemma parse_text_preset_lines text :
  parse_text_preset text = Ok (preset_of_lines (split_newline text)).
Proof.
  rewrite parse_text_preset_spec. unfold preset_of_lines. rewrite foldl_default_last.
  rewrite (omap_lines_strip filter_of_line filter_of_line_strip eq_refl).
  now rewrite (omap_lines_strip preamp_of_line preamp_of_line_strip eq_refl).
Qed.

End ParserLines.

(** ** When the emitter fails *)

Lemma map_result_first_raise {A B : Type} (f : A -> pyresult B) l e :
  map_result f l = Raise e ->
  exists j x, l !! j = Some x /\ f x = Raise e
    /\ forall i y, i < j -> l !! i = Some y -> exists z, f y = Ok z.
Proof.
  induction l as [|x l IH]; [discriminate|]. cbn [map_result].
  destruct (f x) as [z|e'] eqn:Hx; cbn [mbind pyresult_bind].
  - destruct (map_result f l) as [zs|e'] eqn:Hl; [discriminate|].
    cbn [mbind pyresult_bind]. intros [= ->].
    destruct (IH eq_refl) as (j & x' & Hj & Hfx & Hbefore).
    exists (S j), x'. split; [exact Hj|]. split; [exact Hfx|].
    intros [|i] y Hi Hy.
    + cbn in Hy. injection Hy as <-. eauto.
    + apply (Hbefore i y); [lia | exact Hy].
  - intros [= ->]. exists 0, x. split; [reflexivity|]. split; [exact Hx|].
    intros i y Hi. lia.
Qed.

Section EmitterOutcome.
Context {F : PyFloat}.

Lemma band_params_transforms (preset : EQPreset F) j filt :
  filters preset !! j = Some filt ->
  band_params preset (S j)
  = (p ← transforms filt; Ok (filter_band_params (S j) filt p.1 p.2)).
Proof.
  intros Hf. unfold band_params, list_index, transforms.
  replace (S j - 1) with j by lia. rewrite Hf.
  pose proof (lookup_lt_Some _ _ _ Hf) as Hlt.
  destruct (Nat.leb_spec (S j) (length (filters preset))) as [_|Hgt]; [|lia].
  cbn [mbind pyresult_bind].
  destruct (frequency_to_proq4 (frequency filt)) as [fr|e]; [|reflexivity].
  cbn [mbind pyresult_bind].
  destruct (q_to_proq4 (q filt) (filter_type filt)) as [qv|e]; reflexivity.
Qed.

Lemma band_params_unused (preset : EQPreset F) j :
  filters preset !! j = None ->
  band_params preset (S j) = Ok (generate_default_band_params (S j) false).
Proof.
  intros Hf%lookup_ge_None. unfold band_params.
  destruct (Nat.leb_spec (S j) (length (filters preset))); [lia | reflexivity].
Qed.

End EmitterOutcome.

Lemma emitter_outcome {F : PyFloat} (preset : EQPreset F) :
  ((exists L, eq_preset_lines preset = Ok L) <->
   (forall j filt, j < 24 -> filters preset !! j = Some filt ->
      exists p, transforms filt = Ok p)
   /\ exists lvl, preamp_to_output_level (preamp preset) = Ok lvl)
  /\ (forall e, eq_preset_lines preset = Raise e ->
        (exists j filt,
            j < 24 /\ filters preset !! j = Some filt /\ transforms filt = Raise e
            /\ forall i filt', i < j -> filters preset !! i = Some filt' ->
                 exists p, transforms filt' = Ok p)
        \/ ((forall j filt, j < 24 -> filters preset !! j = Some filt ->
               exists p, transforms filt = Ok p)
            /\ preamp_to_output_level (preamp preset) = Raise e)).
Proof.
  assert (Hband : forall j, j < 24 ->
            (exists params, band_params preset (S j) = Ok params) <->
            (forall filt, filters preset !! j = Some filt -> exists p, transforms filt = Ok p)).
  { intros j Hj. destruct (filters preset !! j) as [filt|] eqn:Hf.
    - rewrite (band_params_transforms preset j filt Hf). split.
      + intros [params Hp] filt' [= <-].
        destruct (transforms filt) as [p|e]; [eauto | discriminate].
      + intros H. destruct (H filt eq_refl) as [p ->]. cbn. eauto.
    - rewrite (band_params_unused preset j Hf). split; [discriminate | eauto]. }
  assert (Hall : (exists pars, map_result (band_params preset) (seq 1 24) = Ok pars) <->
            (forall j filt, j < 24 -> filters preset !! j = Some filt ->
               exists p, transforms filt = Ok p)).
  { split.
    - intros [pars Hp] j filt Hj Hf.
      apply map_result_Forall2 in Hp.
      assert (Hl : seq 1 24 !! j = Some (S j)) by (rewrite lookup_seq; split; [f_equal|]; lia).
      destruct (Forall2_lookup_l _ _ _ _ _ Hp Hl) as (params & _ & Hpar).
      apply (proj1 (Hband j Hj)); eauto.
    - intros H. apply map_result_Ok. apply Forall_forall. intros i Hi%elem_of_seq.
      destruct i as [|j]; [lia|]. apply Hband; [lia|]. intros filt Hf. apply (H j); [lia | exact Hf]. }
  split.
  - rewrite eq_preset_lines_spec. split.
    + intros [L HL].
      destruct (map_result (band_params preset) (seq 1 24)) as [pars|e] eqn:Hp; [|discriminate].
      cbn [mbind pyresult_bind] in HL.
      destruct (preamp_to_output_level (preamp preset)) as [lvl|e]; [|discriminate].
      split; [apply Hall; eauto | eauto].
    + intros [H [lvl Hlvl]]. destruct (proj2 Hall H) as [pars ->]. rewrite Hlvl. cbn. eauto.
  - intros e He. rewrite eq_preset_lines_spec in He.
    destruct (map_result (band_params preset) (seq 1 24)) as [pars|e'] eqn:Hp.
    + cbn [mbind pyresult_bind] in He.
      destruct (preamp_to_output_level (preamp preset)) as [lvl|e']; [discriminate|].
      injection He as ->. right. split; [apply Hall; eauto | reflexivity].
    + injection He as ->. left.
      destruct (map_result_first_raise _ _ _ Hp) as (j & i & Hj & Hi & Hbefore).
      apply lookup_seq in Hj as [-> Hj]. cbn in Hi.
      destruct (filters preset !! j) as [filt|] eqn:Hf.
      2:{ rewrite (band_params_unused preset j Hf) in Hi. discriminate. }
      exists j, filt. split; [exact Hj|]. split; [exact Hf|].
      rewrite (band_params_transforms preset j filt Hf) in Hi.
      split; [destruct (transforms filt); [discriminate | cbn in Hi; now injection Hi as ->]|].
      intros i filt' Hij Hf'.
      destruct (Hbefore i (S i) Hij) as [params Hpar].
      { rewrite lookup_seq. split; [reflexivity | lia]. }
      apply (proj1 (Hband i ltac:(lia))); eauto.
Qed.

Lemma checked_log_raises f x e : Binary64.checked_log f x = Raise e -> e = ValueError.
Proof.
  unfold Binary64.checked_log.
  repeat match goal with
         | |- context [if ?b then _ else _] => destruct b
         end; cbv zeta; try discriminate; now intros [= <-].
Qed.

Lemma binary64_transforms_raise libm (filt : Filter (binary64 libm)) e :
  transforms filt = Raise e -> e = ValueError \/ e = ZeroDivisionError.
Proof.
  unfold transforms, frequency_to_proq4, q_to_proq4.
  generalize (py_max (@Q_MIN (binary64 libm)) (py_min (@Q_MAX (binary64 libm)) (q filt))).
  generalize (@Q_MIN (binary64 libm)), (@Q_MAX (binary64 libm)). intros lo hi c.
  cbn [math_log2 math_log float_div float_sub binary64].
  destruct (Binary64.checked_log _ (frequency filt)) as [fr|e1] eqn:H1.
  2:{ intros [= <-]. left. now apply checked_log_raises in H1. }
  cbn [mbind pyresult_bind].
  repeat match goal with
         | |- context [Binary64.checked_log ?f ?x] =>
             let H := fresh in
             destruct (Binary64.checked_log f x) eqn:H;
               [cbn [mbind pyresult_bind]
               |intros [= <-]; left; now apply checked_log_raises in H]
         end.
  destruct (PrimFloat.is_zero _); [|discriminate].
  intros [= <-]. now right.
Qed.

Lemma ideal_transforms_raise fmt (filt : Filter (ideal fmt)) e :
  transforms filt = Raise e -> e = ValueError.
Proof.
  unfold transforms, frequency_to_proq4. cbn [math_log2 ideal].
  destruct (decide _); [|now intros [= <-]].
  cbn [mbind pyresult_bind]. rewrite ideal_q_to_proq4. discriminate.
Qed.

Lemma ltb_leb x y : PrimFloat.ltb x y = true -> PrimFloat.leb x y = true.
Proof.
  rewrite FloatAxioms.ltb_spec, FloatAxioms.leb_spec. unfold SFltb, SFleb.
  now destruct (SFcompare _ _) as [[]|].
Qed.

(** ** The Q transform on doubles *)

(** A double strictly between the bounds of Q is finite and positive. *)
Lemma binary64_between libm q :
  PrimFloat.ltb (@Q_MIN (binary64 libm)) q = true ->
  PrimFloat.ltb q (@Q_MAX (binary64 libm)) = true ->
  PrimFloat.is_finite q = true /\ PrimFloat.ltb PrimFloat.zero q = true.
Proof.
  unfold PrimFloat.is_finite, PrimFloat.is_nan, PrimFloat.is_infinity.
  rewrite !FloatAxioms.ltb_spec, !FloatAxioms.eqb_spec, abs_spec.
  change (Prim2SF PrimFloat.zero) with (S754_zero false).
  change (Prim2SF PrimFloat.infinity) with (S754_infinity false).
  destruct (Prim2SF (@Q_MIN (binary64 libm))) as [| | |s1 m1 e1] eqn:E1;
    try (vm_compute in E1; discriminate E1).
  destruct (Prim2SF (@Q_MAX (binary64 libm))) as [| | |s2 m2 e2] eqn:E2;
    try (vm_compute in E2; discriminate E2).
  assert (Hs : s1 = false /\ s2 = false).
  { vm_compute in E1, E2. injection E1 as <- _ _. injection E2 as <- _ _. now split. }
  destruct Hs as [-> ->]. clear E1 E2.
  destruct (Prim2SF q) as [s|s| |s m e] eqn:Eq; try destruct s;
    unfold SFltb, SFeqb; cbn [SFcompare SFabs]; try discriminate.
  intros _ _. rewrite Z.compare_refl, Pos.compare_cont_refl.
  split; reflexivity.
Qed.

Lemma binary64_clamped_cases libm q :
  @clamped (binary64 libm) q = (@Q_MIN (binary64 libm)) \/ @clamped (binary64 libm) q = (@Q_MAX (binary64 libm))
  \/ (@clamped (binary64 libm) q = q
      /\ PrimFloat.ltb (@Q_MIN (binary64 libm)) q = true
      /\ PrimFloat.ltb q (@Q_MAX (binary64 libm)) = true).
Proof.
  unfold clamped, py_max, py_min. cbn [float_lt binary64].
  destruct (PrimFloat.ltb q (@Q_MAX (binary64 libm))) eqn:H1.
  - destruct (PrimFloat.ltb (@Q_MIN (binary64 libm)) q) eqn:H2; auto.
  - change (PrimFloat.ltb (@Q_MIN (binary64 libm)) (@Q_MAX (binary64 libm))) with true. auto.
Qed.

Lemma binary64_clamped_finite libm q :
  PrimFloat.is_finite (@clamped (binary64 libm) q) = true
  /\ PrimFloat.ltb PrimFloat.zero (@clamped (binary64 libm) q) = true
  /\ PrimFloat.leb (@Q_MIN (binary64 libm)) (@clamped (binary64 libm) q) = true
  /\ PrimFloat.leb (@clamped (binary64 libm) q) (@Q_MAX (binary64 libm)) = true.
Proof.
  destruct (binary64_clamped_cases libm q) as [->|[->|(-> & H1 & H2)]].
  - repeat split; reflexivity.
  - repeat split; reflexivity.
  - destruct (binary64_between libm q H1 H2) as [Hf Hp].
    split; [exact Hf|]. split; [exact Hp|]. split; now apply ltb_leb.
Qed.

Lemma checked_log_Ok libm x :
  finite_log libm -> PrimFloat.is_finite x = true -> PrimFloat.ltb PrimFloat.zero x = true ->
  Binary64.checked_log (Binary64.libm_log libm) x = Ok (Binary64.libm_log libm x).
Proof.
  intros Hlog Hf Hp. unfold Binary64.checked_log. rewrite Hf, Hp. cbv zeta.
  specialize (Hlog x Hf Hp). unfold PrimFloat.is_finite in Hlog.
  apply negb_true_iff in Hlog. now rewrite Hlog.
Qed.

(** ** The flags of a band *)

Lemma band_block_lookup (L : list string) N j : j < 23 ->
  band_block L N !! j = L !! (7 + 23 * (N - 1) + j).
Proof.
  intros Hj. unfold band_block. rewrite lookup_take_lt by exact Hj.
  now rewrite lookup_drop.
Qed.

Lemma block_lines_used i params :
  block_lines i params !! 22
  = Some (band_key i "Used" +:+ "=" +:+ default "" (params !! band_key i "Used")).
Proof. reflexivity. Qed.

(** ** Texts without a line feed *)

Lemma one_line_app a b : one_line (a +:+ b) = one_line a && one_line b.
Proof. apply all_chars_app. Qed.

Lemma digit_char_one_line k acc : k < 10 -> one_line acc = true ->
  one_line (String (digit_char k) acc) = true.
Proof.
  intros Hk Hacc. unfold one_line in *. cbn [all_chars]. rewrite Hacc, andb_true_r.
  do 10 (destruct k as [|k]; [reflexivity|]). lia.
Qed.

Lemma str_int_go_one_line fuel n acc : one_line acc = true ->
  one_line (str_int_go fuel n acc) = true.
Proof.
  revert n acc. induction fuel as [|fuel IH]; intros n acc Hacc; [exact Hacc|].
  cbn [str_int_go].
  assert (H : one_line (String (digit_char (n mod 10)) acc) = true).
  { apply digit_char_one_line; [|exact Hacc]. apply Nat.mod_upper_bound. lia. }
  destruct (n <? 10)%nat; [exact H | now apply IH].
Qed.

Lemma str_int_one_line n : one_line (str_int n) = true.
Proof. now apply str_int_go_one_line. Qed.

Lemma band_key_one_line i f : one_line f = true -> one_line (band_key i f) = true.
Proof.
  intros Hf. unfold band_key. rewrite !one_line_app, str_int_one_line, Hf. reflexivity.
Qed.

(** ** What [repr] writes *)

Lemma digits_go_one_line fuel n acc : one_line acc = true ->
  one_line (Binary64.digits_go fuel n acc) = true.
Proof.
  revert n acc. induction fuel as [|fuel IH]; intros n acc Hacc; [exact Hacc|].
  cbn [Binary64.digits_go].
  assert (H : one_line (String (digit_char (Z.to_nat (n mod 10))) acc) = true).
  { apply digit_char_one_line; [|exact Hacc].
    pose proof (Z.mod_pos_bound n 10 ltac:(lia)). lia. }
  destruct (n <? 10)%Z; [exact H | now apply IH].
Qed.

Lemma digits_of_one_line n : one_line (Binary64.digits_of n) = true.
Proof. now apply digits_go_one_line. Qed.

Lemma zeros_one_line n : one_line (Binary64.zeros n) = true.
Proof. induction n as [|n IH]; [reflexivity|]. exact IH. Qed.

Lemma substring_one_line n m s : one_line s = true -> one_line (String.substring n m s) = true.
Proof.
  revert n m. induction s as [|c s IH]; intros n m Hs.
  - destruct n, m; reflexivity.
  - unfold one_line in Hs. cbn [all_chars] in Hs. apply andb_true_iff in Hs as [Hc Hs].
    destruct n as [|n]; [destruct m as [|m]; [reflexivity|]|]; cbn [String.substring].
    + unfold one_line. cbn [all_chars]. rewrite Hc. now apply IH.
    + now apply IH.
Qed.

Lemma all_chars_of_list p l : all_chars p (string_of_list_ascii l) = forallb p l.
Proof. induction l as [|c l IH]; [reflexivity|]. cbn. now rewrite IH. Qed.

Lemma forallb_to_list p s : forallb p (list_ascii_of_string s) = all_chars p s.
Proof. induction s as [|c s IH]; [reflexivity|]. cbn. now rewrite IH. Qed.

Lemma forallb_rev {A : Type} (p : A -> bool) l : forallb p (rev l) = forallb p l.
Proof.
  induction l as [|x l IH]; [reflexivity|]. cbn [rev forallb].
  rewrite forallb_app, IH. cbn. rewrite andb_true_r. apply andb_comm.
Qed.

Lemma strip_zeros_rev_forallb p l : forallb p l = true ->
  forallb p (Binary64.strip_zeros_rev l) = true.
Proof.
  induction l as [|c l IH]; [reflexivity|]. intros H. cbn [Binary64.strip_zeros_rev].
  destruct (Ascii.eqb c "0"); [|exact H].
  cbn in H. apply andb_true_iff in H as [_ H]. now apply IH.
Qed.

Lemma strip_trailing_zeros_one_line s : one_line s = true ->
  one_line (Binary64.strip_trailing_zeros s) = true.
Proof.
  intros Hs. unfold Binary64.strip_trailing_zeros, one_line.
  rewrite all_chars_of_list, forallb_rev. apply strip_zeros_rev_forallb.
  unfold Binary64.string_rev. now rewrite forallb_rev, forallb_to_list.
Qed.

Lemma layout_one_line digits decpt : one_line digits = true ->
  one_line (Binary64.layout digits decpt) = true.
Proof.
  intros Hd. unfold Binary64.layout.
  repeat match goal with
         | |- context [if ?b then _ else _] => destruct b
         end;
    rewrite ?one_line_app, ?zeros_one_line, ?digits_of_one_line, ?substring_one_line, ?Hd
      by exact Hd; try reflexivity.
  all: destruct digits as [|c [|c' rest]]; try reflexivity;
    unfold one_line in *; cbn [all_chars] in *;
    repeat (apply andb_true_iff in Hd as [? Hd]);
    repeat (apply andb_true_iff; split); auto; try apply digits_of_one_line.
Qed.

Lemma repr_finite_one_line x m e : one_line (Binary64.repr_finite x m e) = true.
Proof.
  unfold Binary64.repr_finite.
  destruct (Binary64.scaled _ _ _) as [n d].
  destruct (Binary64.shortest _ _ _ _ _ _) as [c k].
  apply layout_one_line, strip_trailing_zeros_one_line, digits_of_one_line.
Qed.

Lemma repr_one_line x : one_line (Binary64.repr x) = true.
Proof.
  unfold Binary64.repr. destruct (Prim2SF x) as [[]|[]| |s m e]; try reflexivity.
  rewrite one_line_app, repr_finite_one_line. now destruct s.
Qed.

(** ** The lines of the output *)

Section OutputLines.
Context {F : PyFloat}.
Hypothesis float_str_one_line : forall x : float, one_line (float_str x) = true.

Lemma default_values_one_line i used :
  map_Forall (fun _ v => one_line v = true) (generate_default_band_params i used).
Proof.
  intros k v Hkv. unfold generate_default_band_params in Hkv.
  apply elem_of_list_to_map_2 in Hkv.
  repeat (apply elem_of_cons in Hkv as [[= -> ->]|Hkv]; [now destruct used|]).
  now apply elem_of_nil in Hkv.
Qed.

Lemma band_params_values_one_line (preset : EQPreset F) i params :
  band_params preset i = Ok params ->
  map_Forall (fun _ v => one_line v = true) params.
Proof.
  intros [(filt & fr & qv & _ & _ & _ & _ & ->)|[_ ->]]%band_params_spec.
  - unfold used_band_params.
    do 6 (apply map_Forall_insert_2;
          [first [apply float_str_one_line | apply str_int_one_line
                 | now destruct (enabled filt) | reflexivity]|]).
    apply default_values_one_line.
  - apply default_values_one_line.
Qed.

Lemma block_lines_one_line i params :
  map_Forall (fun _ v => one_line v = true) params ->
  Forall (fun l => one_line l = true) (block_lines i params).
Proof.
  intros Hp. unfold block_lines. apply Forall_fmap.
  assert (Hf : Forall (fun f => one_line f = true) band_fields)
    by (repeat constructor).
  eapply Forall_impl; [exact Hf|]. intros f Hone. unfold compose.
  rewrite !one_line_app, (band_key_one_line i f Hone).
  destruct (params !! band_key i f) as [v|] eqn:Hv; [|reflexivity].
  change (default "" (Some v)) with v. rewrite (Hp _ _ Hv). reflexivity.
Qed.

Lemma emitted_lines_one_line (preset : EQPreset F) L :
  one_line (author preset) = true -> one_line (tags preset) = true ->
  eq_preset_lines preset = Ok L -> Forall (fun l => one_line l = true) L.
Proof.
  intros Ha Ht (pars & lvl & Hp & _ & ->)%eq_preset_lines_Ok.
  repeat apply Forall_app_2.
  - unfold header_lines. repeat constructor; rewrite one_line_app; [now rewrite Ha | now rewrite Ht].
  - apply Forall_concat. apply Forall_forall. intros b Hb.
    apply list_elem_of_lookup in Hb as [j Hb].
    apply lookup_zip_with_Some in Hb as (i & params & -> & Hi & Hpar).
    apply block_lines_one_line.
    destruct (Forall2_lookup_l _ _ _ _ _ Hp Hi) as (params' & Hpar' & Hband).
    rewrite Hpar in Hpar'. injection Hpar' as <-.
    now apply band_params_values_one_line with preset i.
  - unfold global_lines. repeat constructor. rewrite one_line_app.
    now rewrite float_str_one_line.
  - apply Forall_fmap, Forall_forall. intros i _. unfold compose, tilt_line.
    rewrite !one_line_app, str_int_one_line. now destruct (_ <=? _)%nat.
  - repeat constructor.
Qed.

Lemma written_text_lines (preset : EQPreset F) text :
  one_line (author preset) = true -> one_line (tags preset) = true ->
  eq_preset_to_ffp preset = Ok text ->
  exists L, eq_preset_lines preset = Ok L /\ split_newline text = L /\ length L = 608.
Proof.
  intros Ha Ht Htext. unfold eq_preset_to_ffp in Htext.
  destruct (eq_preset_lines preset) as [L|e] eqn:HL; [|discriminate].
  cbn in Htext. apply Ok_inj in Htext. subst text.
  exists L. split; [reflexivity|].
  pose proof (emitted_length preset L HL) as Hlen.
  split; [|exact Hlen].
  apply split_join; [|now apply emitted_lines_one_line with preset].
  intros ->. discriminate Hlen.
Qed.

End OutputLines.

(** ** The names of the output files *)

Lemma rfind_dot_txt x : rfind_dot (x +:+ ".txt") = Some (String.length x).
Proof.
  induction x as [|c x IH]; [reflexivity|].
  rewrite string_app_cons. cbn [rfind_dot String.length]. now rewrite IH.
Qed.

Lemma stem_txt x : x <> "" -> stem (x +:+ ".txt") = x.
Proof.
  intros Hx. unfold stem. rewrite rfind_dot_txt, string_app_length.
  destruct x as [|c x]; [congruence|]. cbn [String.length].
  replace (0 <? S (String.length x))%nat with true by (symmetry; apply Nat.ltb_lt; lia).
  replace (S (String.length x) <? S (String.length x) + 4 - 1)%nat with true
    by (symmetry; apply Nat.ltb_lt; lia).
  cbn [andb]. apply (substring_0_app (String c x)).
Qed.

Lemma startswith_app_space u s p :
  all_chars (fun c => negb (Ascii.eqb c " ")) p = true ->
  startswith (u +:+ String " " s) p = startswith u p.
Proof.
  revert u. induction p as [|a p IH]; intros u Hp; [now destruct u|].
  cbn [all_chars] in Hp. apply andb_true_iff in Hp as [Ha Hp]. apply negb_true_iff in Ha.
  destruct u as [|b u].
  - rewrite string_app_nil_l. cbn [startswith]. now rewrite Ha.
  - rewrite string_app_cons. cbn [startswith]. now rewrite IH.
Qed.

Lemma replace_suffix base :
  occurs " ParametricEQ" base = false ->
  str_replace (base +:+ " ParametricEQ") " ParametricEQ" "" = base.
Proof.
  unfold str_replace. induction base as [|c base IH]; [reflexivity|].
  cbn [occurs]. intros [H0 Hocc]%orb_false_iff.
  rewrite string_app_cons. cbn [replace_go].
  replace (startswith (String c (base +:+ " ParametricEQ")) " ParametricEQ") with false.
  - now rewrite IH.
  - symmetry. cbn [startswith] in H0 |- *.
    destruct (Ascii.eqb " " c); [|reflexivity]. cbn [andb] in H0 |- *.
    change (base +:+ " ParametricEQ") with (base +:+ String " " "ParametricEQ").
    now rewrite startswith_app_space.
Qed.

(** ** What the loop writes *)

Section Driver.
Context {F : PyFloat}.

Lemma startswith_app_refl p x : startswith (p +:+ x) p = true.
Proof.
  induction p as [|c p IH]; [now destruct x|].
  rewrite string_app_cons. cbn [startswith]. now rewrite Ascii.eqb_refl.
Qed.

Lemma output_path_presets f : startswith (output_path f) "presets/" = true.
Proof. apply (startswith_app_refl "presets/"). Qed.

Lemma conversion_agree m fs f :
  agree m fs -> startswith (input_path f) "presets/" = false ->
  conversion m f = conversion fs f.
Proof. intros Hm Hf. unfold conversion. now rewrite (Hm _ Hf). Qed.

Lemma agree_insert m fs f c : agree m fs -> agree (<[output_path f := c]> m) fs.
Proof.
  intros Hm p Hp. rewrite lookup_insert_ne; [now apply Hm|].
  intros <-. rewrite output_path_presets in Hp. discriminate.
Qed.

Lemma write_all_cons fs g l m :
  write_all fs (g :: l) m
  = write_all fs l (match conversion fs g with
                    | Some c => <[output_path g := c]> m
                    | None => m
                    end).
Proof. reflexivity. Qed.

Lemma write_all_app fs l1 l2 m :
  write_all fs (l1 ++ l2) m = write_all fs l2 (write_all fs l1 m).
Proof. unfold write_all. apply foldl_app. Qed.

Lemma write_all_none fs l m p :
  (forall g, g ∈ l -> output_path g = p -> conversion fs g = None) ->
  write_all fs l m !! p = m !! p.
Proof.
  revert m. induction l as [|g l IH]; intros m Hl; [reflexivity|].
  rewrite write_all_cons.
  rewrite IH by (intros g' Hg'; apply Hl, elem_of_cons; now right).
  destruct (conversion fs g) as [c|] eqn:Hc; [|reflexivity].
  rewrite lookup_insert_ne; [reflexivity|].
  intros Hp. rewrite (Hl g) in Hc; [discriminate | apply elem_of_cons; now left | exact Hp].
Qed.

Lemma write_all_last fs l1 f l2 m c :
  conversion fs f = Some c ->
  (forall g, g ∈ l2 -> output_path g = output_path f -> conversion fs g = None) ->
  write_all fs (l1 ++ f :: l2) m !! output_path f = Some c.
Proof.
  intros Hc Hl2. rewrite write_all_app, write_all_cons, Hc.
  rewrite write_all_none by exact Hl2. apply lookup_insert_eq.
Qed.

End Driver.

Lemma binary64_frequency_Ok libm (x fr : PrimFloat.float) :
  @frequency_to_proq4 (binary64 libm) x = Ok fr -> PrimFloat.is_finite x = true ->
  PrimFloat.ltb PrimFloat.zero x = true /\ fr = Binary64.libm_log2 libm x.
Proof.
  unfold frequency_to_proq4. cbn [math_log2 binary64].
  unfold Binary64.checked_log. intros Hfr Hfin. rewrite Hfin in Hfr.
  destruct (PrimFloat.ltb PrimFloat.zero x); [|discriminate].
  cbv zeta in Hfr. destruct (_ || _); [discriminate|]. apply Ok_inj in Hfr.
  split; [reflexivity | now symmetry].
Qed.

(** ** The run of the script *)

Section RunFacts.
Context {F : PyFloat}.
Variable env : Run.io_env.

Lemma convert_file_step f s :
  file_step env f s (state_of (Run.convert_file env f s))
    (finished (Run.convert_file env f s)).
Proof.
  unfold file_step, Run.convert_file, Run.try_except, Run.convert_text_to_ffp,
    Run.read_file, Run.write_file, Run.print, Run.add_converted, Run.add_failed, Run.lift,
    mbind, Run.io_bind.
  destruct s as [d n c fl].
  cbn [Run.steps Run.disk Run.tick Run.set_disk Run.converted_count Run.failed_count].
  repeat match goal with
         | |- context [Run.fails env ?k] => destruct (Run.fails env k) eqn:?
         | |- context [match ?x with Some _ => _ | None => _ end] => destruct x eqn:?
         | |- context [match ?x with Ok _ => _ | Raise _ => _ end] => destruct x eqn:?
         | _ => progress cbn [Run.steps Run.disk Run.tick Run.set_disk Run.converted_count
                              Run.failed_count state_of finished]
         end.
  all: repeat split; intros; try lia; try tauto; try contradiction;
    rewrite ?lookup_insert_ne by congruence; try reflexivity; try eassumption.
  all: try (match goal with
            | |- is_Some (<[?p := _]> _ !! ?q) =>
                destruct (decide (q = p)) as [->|];
                [rewrite lookup_insert_eq; eauto | rewrite lookup_insert_ne by congruence; assumption]
            end).
  all: cbn [Run.steps Run.disk Run.tick Run.set_disk] in *;
    try (eexists; split; [|eassumption]; lia).
Qed.

Lemma for_loop_cons {A : Type} (x : A) xs body s :
  Run.for_loop (x :: xs) body s
  = match body x s with
    | Run.Returned _ s' => Run.for_loop xs body s'
    | Run.Raised e s' => Run.Raised e s'
    end.
Proof. reflexivity. Qed.

Lemma convert_all_facts files s :
  let r := Run.convert_all env files s in
  (forall p, p ∉ output_path <$> files -> Run.disk (state_of r) !! p = Run.disk s !! p)
  /\ (forall p, is_Some (Run.disk s !! p) -> is_Some (Run.disk (state_of r) !! p))
  /\ Run.converted_count s <= Run.converted_count (state_of r)
     <= Run.converted_count s + length files
  /\ Run.failed_count s <= Run.failed_count (state_of r) <= Run.failed_count s + length files
  /\ Run.steps s <= Run.steps (state_of r)
  /\ (finished r -> Run.converted_count s + Run.failed_count s + length files
                    <= Run.converted_count (state_of r) + Run.failed_count (state_of r))
  /\ (~ finished r ->
        exists k, Run.steps s <= k < Run.steps (state_of r) /\ Run.fails env k = true).
Proof.
  cbv zeta. unfold Run.convert_all. revert s.
  induction files as [|f files IH]; intros s.
  - cbn. repeat split; auto; try lia; tauto.
  - rewrite for_loop_cons.
    pose proof (convert_file_step f s) as (H1 & H2 & H3 & H4 & H5 & H6 & H7).
    destruct (Run.convert_file env f s) as [[] s1|e s1]; cbn [state_of finished] in *.
    + destruct (IH s1) as (I1 & I2 & I3 & I4 & I5 & I6 & I7).
      cbn [length]. rewrite fmap_cons.
      split.
      { intros p Hp. apply not_elem_of_cons in Hp as [Hp1 Hp2].
        rewrite I1 by exact Hp2. now apply H1. }
      split; [intros p Hp; now apply I2, H2|].
      split; [lia|]. split; [lia|]. split; [lia|].
      split; [intros Hf; specialize (I6 Hf); specialize (H6 I); lia|].
      intros Hf. destruct (I7 Hf) as (k & Hk & Hfail). exists k. split; [lia | exact Hfail].
    + cbn [length]. rewrite fmap_cons.
      split; [intros p Hp; apply not_elem_of_cons in Hp as [Hp1 _]; now apply H1|].
      split; [exact H2|]. split; [lia|]. split; [lia|]. split; [lia|].
      split; [contradiction|]. intros _. apply H7. tauto.
Qed.

Lemma convert_file_reliable f s :
  reliable env ->
  exists n,
    Run.convert_file env f s
    = Run.Returned tt
        (match conversion (Run.disk s) f with
         | Some c => {| Run.disk := <[output_path f := c]> (Run.disk s); Run.steps := n;
                        Run.converted_count := S (Run.converted_count s);
                        Run.failed_count := Run.failed_count s |}
         | None => {| Run.disk := Run.disk s; Run.steps := n;
                      Run.converted_count := Run.converted_count s;
                      Run.failed_count := S (Run.failed_count s) |}
         end).
Proof.
  intros Hio.
  unfold Run.convert_file, Run.try_except, Run.convert_text_to_ffp,
    Run.read_file, Run.write_file, Run.print, Run.add_converted, Run.add_failed, Run.lift,
    mbind, Run.io_bind, conversion.
  destruct s as [d n c fl].
  cbn [Run.steps Run.disk Run.tick Run.set_disk Run.converted_count Run.failed_count].
  rewrite !Hio.
  destruct (d !! input_path f) as [text|];
    [|cbn [Run.steps Run.disk Run.tick Run.set_disk Run.converted_count Run.failed_count];
      rewrite !Hio; eexists; reflexivity].
  destruct (parse_text_preset text) as [preset|e];
    [|cbn [Run.steps Run.disk Run.tick Run.set_disk Run.converted_count Run.failed_count];
      rewrite !Hio; eexists; reflexivity].
  destruct (eq_preset_to_ffp _) as [content|e];
    cbn [Run.steps Run.disk Run.tick Run.set_disk Run.converted_count Run.failed_count];
    rewrite !Hio; eexists; reflexivity.
Qed.

Lemma convert_all_reliable fs files s :
  reliable env -> agree (Run.disk s) fs ->
  Forall (fun f => startswith (input_path f) "presets/" = false) files ->
  exists s', Run.convert_all env files s = Run.Returned tt s'
    /\ Run.disk s' = write_all fs files (Run.disk s)
    /\ Run.converted_count s' = Run.converted_count s + length (omap (conversion fs) files)
    /\ Run.converted_count s' + Run.failed_count s'
       = Run.converted_count s + Run.failed_count s + length files.
Proof.
  intros Hio Hs Hl. unfold Run.convert_all. revert s Hs.
  induction Hl as [|f l Hf Hl IH]; intros s Hs.
  - exists s. cbn. repeat split; lia.
  - rewrite for_loop_cons.
    destruct (convert_file_reliable f s Hio) as [n ->].
    rewrite (conversion_agree _ fs f Hs Hf).
    rewrite write_all_cons. cbn [omap list_omap]. fold (omap (conversion fs) l).
    destruct (conversion fs f) as [c|].
    + destruct (IH {| Run.disk := <[output_path f := c]> (Run.disk s); Run.steps := n;
                     Run.converted_count := S (Run.converted_count s);
                     Run.failed_count := Run.failed_count s |})
        as (s' & -> & Hd & Hc & Hsum).
      { cbn [Run.disk]. now apply agree_insert. }
      cbn [Run.disk Run.converted_count Run.failed_count] in *.
      exists s'. split; [reflexivity|]. split; [exact Hd|]. cbn [length]. lia.
    + destruct (IH {| Run.disk := Run.disk s; Run.steps := n;
                     Run.converted_count := Run.converted_count s;
                     Run.failed_count := S (Run.failed_count s) |} Hs)
        as (s' & -> & Hd & Hc & Hsum).
      cbn [Run.disk Run.converted_count Run.failed_count] in *.
      exists s'. split; [reflexivity|]. split; [exact Hd|]. cbn [length]. lia.
Qed.

Lemma convert_all_reliable_counts files s :
  reliable env ->
  exists s', Run.convert_all env files s = Run.Returned tt s'
    /\ Run.converted_count s' + Run.failed_count s'
       = Run.converted_count s + Run.failed_count s + length files.
Proof.
  intros Hio. unfold Run.convert_all. revert s.
  induction files as [|f l IH]; intros s.
  - exists s. cbn. split; [reflexivity | lia].
  - rewrite for_loop_cons.
    destruct (convert_file_reliable f s Hio) as [n ->].
    destruct (conversion (Run.disk s) f) as [c|].
    + destruct (IH {| Run.disk := <[output_path f := c]> (Run.disk s); Run.steps := n;
                     Run.converted_count := S (Run.converted_count s);
                     Run.failed_count := Run.failed_count s |}) as (s' & -> & Hsum).
      cbn [Run.converted_count Run.failed_count] in *.
      exists s'. split; [reflexivity|]. cbn [length]. lia.
    + destruct (IH {| Run.disk := Run.disk s; Run.steps := n;
                     Run.converted_count := Run.converted_count s;
                     Run.failed_count := S (Run.failed_count s) |}) as (s' & -> & Hsum).
      cbn [Run.converted_count Run.failed_count] in *.
      exists s'. split; [reflexivity|]. cbn [length]. lia.
Qed.

(** A computation without input or output raises in the script what it
    raises on its own. *)
Lemma convert_text_to_ffp_raises text out a t e s :
  convert_text_to_ffp text out a t (Run.disk s) = Raise e ->
  Run.convert_text_to_ffp env text out a t s = Run.Raised (Run.Computation e) s.
Proof.
  unfold convert_text_to_ffp, Run.convert_text_to_ffp, Run.lift, mbind, Run.io_bind,
    pyresult_bind.
  destruct (parse_text_preset text) as [preset|e']; [|now intros [= ->]].
  destruct (eq_preset_to_ffp _) as [content|e']; [discriminate | now intros [= ->]].
Qed.

(** When no operation fails, the script writes what [convert_text_to_ffp]
    inserts. *)
Lemma convert_text_to_ffp_writes text out a t files s :
  reliable env ->
  convert_text_to_ffp text out a t (Run.disk s) = Ok files ->
  exists s', Run.convert_text_to_ffp env text out a t s = Run.Returned tt s'
    /\ Run.disk s' = files.
Proof.
  intros Hio.
  unfold convert_text_to_ffp, Run.convert_text_to_ffp, Run.lift, Run.write_file, Run.print,
    mbind, Run.io_bind, pyresult_bind.
  destruct (parse_text_preset text) as [preset|e']; [|discriminate].
  destruct (eq_preset_to_ffp _) as [content|e']; [|discriminate].
  intros [= <-]. destruct s as [d n c fl].
  cbn [Run.steps Run.disk Run.tick Run.set_disk]. rewrite !Hio.
  eexists. split; reflexivity.
Qed.

(** What the script raises: a failure of the write or of a print, or what
    the emitter raises, before anything is written. *)
Lemma run_convert_raised text out a t s ex s' :
  Run.convert_text_to_ffp env text out a t s = Run.Raised ex s' ->
  ex = Run.IOFailure
  \/ (s' = s /\ exists e preset,
        ex = Run.Computation e /\ parse_text_preset text = Ok preset
        /\ eq_preset_lines (with_metadata preset a t) = Raise e).
Proof.
  unfold Run.convert_text_to_ffp, Run.lift, Run.write_file, Run.print, mbind, Run.io_bind.
  destruct (parse_text_preset text) as [preset|e0] eqn:Hp;
    [|rewrite parse_text_preset_spec in Hp; discriminate].
  unfold eq_preset_to_ffp.
  destruct (eq_preset_lines (with_metadata preset a t)) as [L|e0] eqn:HL;
    cbn [mbind pyresult_bind].
  - repeat match goal with
           | |- context [Run.fails env ?k] => destruct (Run.fails env k)
           end; intros [= <- <-] || discriminate; now left.
  - intros [= <- <-]. right. split; [reflexivity|]. eauto.
Qed.

End RunFacts.

(** ** Doubles as real numbers: shifts and digits *)

Lemma b2_pos e : (0 < b2 e)%R.
Proof. apply powerRZ_lt. lra. Qed.

Lemma b2_add a b : b2 (a + b) = (b2 a * b2 b)%R.
Proof. apply powerRZ_add. lra. Qed.

Lemma b2_succ e : b2 (e + 1) = (2 * b2 e)%R.
Proof. rewrite b2_add. unfold b2 at 2. rewrite powerRZ_1. lra. Qed.

Lemma b2_IZR n : (0 <= n)%Z -> b2 n = IZR (2 ^ n).
Proof.
  intros Hn. unfold b2. rewrite <- (Z2Nat.id n) at 1 by exact Hn.
  rewrite <- pow_powerRZ. rewrite <- (Z2Nat.id n) at 2 by exact Hn.
  rewrite <- pow_IZR. reflexivity.
Qed.

Lemma b2_le a b : (a <= b)%Z -> (b2 a <= b2 b)%R.
Proof.
  intros H. replace b with (a + (b - a))%Z by lia. rewrite b2_add.
  rewrite (b2_IZR (b - a)) by lia.
  assert (1 <= IZR (2 ^ (b - a)))%R by (apply IZR_le; lia).
  pose proof (b2_pos a). nra.
Qed.

Lemma digits2_bounds p :
  (2 ^ (Zpos (digits2_pos p) - 1) <= Zpos p < 2 ^ Zpos (digits2_pos p))%Z.
Proof.
  induction p as [p IH|p IH|]; cbn [digits2_pos].
  - rewrite Pos2Z.inj_succ. replace (Z.succ (Z.pos (digits2_pos p)) - 1)%Z
      with (Z.succ (Z.pos (digits2_pos p) - 1))%Z by lia.
    rewrite !Z.pow_succ_r by lia. lia.
  - rewrite Pos2Z.inj_succ. replace (Z.succ (Z.pos (digits2_pos p)) - 1)%Z
      with (Z.succ (Z.pos (digits2_pos p) - 1))%Z by lia.
    rewrite !Z.pow_succ_r by lia. lia.
  - cbn. lia.
Qed.

Lemma shr_1_located X r e :
  (0 <= shr_m r)%Z ->
  located X (shr_m r) e (loc_of_shr_record r) ->
  located X (shr_m (shr_1 r)) (e + 1) (loc_of_shr_record (shr_1 r))
  /\ shr_m (shr_1 r) = (shr_m r / 2)%Z.
Proof.
  destruct r as [m r s]. cbn [shr_m]. intros Hm Hloc.
  pose proof (b2_pos e) as Hb. pose proof (b2_succ e) as E1.
  assert (Hcases : (m = 0 \/ m = 1 \/ (exists p, m = Zpos (xO p)) \/ exists p, m = Zpos (xI p))%Z).
  { destruct m as [|[p|p|]|]; try lia; eauto. }
  destruct Hcases as [->|[->|[[p ->]|[p ->]]]].
  - split; [|reflexivity].
    destruct r, s; cbn [shr_1 shr_m loc_of_shr_record located orb] in *; rewrite E1; lra.
  - split; [|reflexivity].
    destruct r, s; cbn [shr_1 shr_m loc_of_shr_record located orb] in *; rewrite E1; lra.
  - split.
    + assert (E : IZR (Zpos (xO p)) = (2 * IZR (Zpos p))%R).
      { rewrite <- mult_IZR. f_equal. }
      destruct r, s; cbn [shr_1 shr_m loc_of_shr_record located orb] in *;
        rewrite E in Hloc; rewrite E1; lra.
    + cbn [shr_1 shr_m]. destruct (r || s); cbn [shr_m];
        change (Zpos (xO p)) with (2 * Zpos p)%Z; now rewrite Z.mul_comm, Z.div_mul.
  - split.
    + assert (E : IZR (Zpos (xI p)) = (2 * IZR (Zpos p) + 1)%R).
      { rewrite <- mult_IZR, <- plus_IZR. f_equal. }
      destruct r, s; cbn [shr_1 shr_m loc_of_shr_record located orb] in *;
        rewrite E in Hloc; rewrite E1; lra.
    + cbn [shr_1 shr_m]. destruct (r || s); cbn [shr_m];
        change (Zpos (xI p)) with (2 * Zpos p + 1)%Z;
        rewrite Z.mul_comm, Z.div_add_l by lia; reflexivity.
Qed.

Lemma iter_pos_nat {A : Type} (f : A -> A) p x :
  SpecFloat.iter_pos f p x = Nat.iter (Pos.to_nat p) f x.
Proof.
  revert x. induction p as [p IH|p IH|]; intros x; cbn [SpecFloat.iter_pos].
  - rewrite !IH, Pos2Nat.inj_xI. rewrite <- Nat.iter_add.
    replace (S (2 * Pos.to_nat p)) with (Pos.to_nat p + Pos.to_nat p + 1) by lia.
    now rewrite (Nat.iter_add (Pos.to_nat p + Pos.to_nat p) 1).
  - rewrite !IH, Pos2Nat.inj_xO. rewrite <- Nat.iter_add. f_equal. lia.
  - reflexivity.
Qed.

Lemma shr_nat_located X r e n :
  (0 <= shr_m r)%Z ->
  located X (shr_m r) e (loc_of_shr_record r) ->
  located X (shr_m (Nat.iter n shr_1 r)) (e + Z.of_nat n)
    (loc_of_shr_record (Nat.iter n shr_1 r))
  /\ shr_m (Nat.iter n shr_1 r) = (shr_m r / 2 ^ Z.of_nat n)%Z.
Proof.
  intros Hm Hloc. induction n as [|n [IH1 IH2]].
  - cbn [Nat.iter]. rewrite Z.add_0_r. split; [exact Hloc|]. now rewrite Z.div_1_r.
  - rewrite Nat.iter_succ.
    assert (H0 : (0 <= shr_m (Nat.iter n shr_1 r))%Z).
    { rewrite IH2. apply Z.div_pos; lia. }
    destruct (shr_1_located X _ _ H0 IH1) as [H1 H2].
    replace (e + Z.of_nat (S n))%Z with (e + Z.of_nat n + 1)%Z by lia.
    split; [exact H1|]. rewrite H2, IH2, Z.div_div by lia.
    f_equal. rewrite Nat2Z.inj_succ, Z.pow_succ_r by lia. lia.
Qed.

Lemma fexp64_spec e : fexp64 e = Z.max (e - 53) (-1074).
Proof. reflexivity. Qed.

Lemma Zdigits2_nonneg m : (0 <= Zdigits2 m)%Z.
Proof. destruct m; cbn; lia. Qed.

Lemma Zdigits2_bounds m : (0 < m)%Z ->
  (2 ^ (Zdigits2 m - 1) <= m < 2 ^ Zdigits2 m)%Z.
Proof. destruct m as [|p|p]; try lia. intros _. apply digits2_bounds. Qed.

Lemma shr_fexp_located X m e l :
  (0 <= m)%Z -> (e <= fexp64 (Zdigits2 m + e))%Z -> located X m e l ->
  exists r, shr_fexp prec emax m e l = (r, fexp64 (Zdigits2 m + e))
    /\ located X (shr_m r) (fexp64 (Zdigits2 m + e)) (loc_of_shr_record r)
    /\ shr_m r = (m / 2 ^ (fexp64 (Zdigits2 m + e) - e))%Z.
Proof.
  intros Hm He Hloc. unfold shr_fexp. fold (fexp64 (Zdigits2 m + e)).
  set (et := fexp64 (Zdigits2 m + e)) in *.
  assert (Hr : shr_m (shr_record_of_loc m l) = m) by (destruct l as [|[]]; reflexivity).
  assert (Hl : loc_of_shr_record (shr_record_of_loc m l) = l) by (destruct l as [|[]]; reflexivity).
  destruct (et - e)%Z as [|p|p] eqn:En; [| |lia].
  - exists (shr_record_of_loc m l). cbn [shr].
    replace et with e by lia. rewrite Hr, Hl, Z.div_1_r. auto.
  - exists (SpecFloat.iter_pos shr_1 p (shr_record_of_loc m l)). cbn [shr].
    split; [f_equal; lia|].
    rewrite iter_pos_nat.
    destruct (shr_nat_located X (shr_record_of_loc m l) e (Pos.to_nat p)) as [H1 H2].
    + now rewrite Hr.
    + now rewrite Hr, Hl.
    + rewrite positive_nat_Z in H1, H2. replace (e + Z.pos p)%Z with et in H1 by lia.
      rewrite Hr in H2. auto.
Qed.

(** ** Rounding to nearest even does not decrease *)

Lemma located_bounds X m e l :
  located X m e l -> (IZR m * b2 e <= X < (IZR m + 1) * b2 e)%R.
Proof.
  pose proof (b2_pos e). destruct l as [|[]]; cbn [located]; intros; nra.
Qed.

Lemma round_nearest_even_bounds m l :
  (m <= round_nearest_even m l <= m + 1)%Z.
Proof.
  destruct l as [|[]]; cbn [round_nearest_even]; try lia. destruct (Z.even m); lia.
Qed.

Lemma round_nearest_even_mono X1 X2 m1 m2 e l1 l2 :
  located X1 m1 e l1 -> located X2 m2 e l2 -> (X1 <= X2)%R ->
  (round_nearest_even m1 l1 <= round_nearest_even m2 l2)%Z.
Proof.
  intros H1 H2 HX.
  pose proof (b2_pos e) as Hb.
  pose proof (located_bounds _ _ _ _ H1) as B1.
  pose proof (located_bounds _ _ _ _ H2) as B2.
  pose proof (round_nearest_even_bounds m1 l1).
  pose proof (round_nearest_even_bounds m2 l2).
  destruct (Z.lt_trichotomy m1 m2) as [Hlt|[->|Hgt]]; [lia| |].
  - destruct l1 as [|[]], l2 as [|[]]; cbn [located round_nearest_even] in *;
      try lia; try (destruct (Z.even m2); lia); exfalso; nra.
  - exfalso. assert (IZR m2 + 1 <= IZR m1)%R.
    { rewrite <- plus_IZR. apply IZR_le. lia. }
    nra.
Qed.

Lemma finish_nonneg m e : sf_nonneg (finish m e).
Proof.
  unfold finish.
  repeat match goal with |- context [if ?b then _ else _] => destruct b end; cbn; auto.
Qed.

Lemma finish_le m1 m2 e1 e2 :
  (0 <= m1 <= 2 ^ 53)%Z -> (0 <= m2 <= 2 ^ 53)%Z ->
  ((e1 = e2 /\ m1 <= m2) \/ (e1 < e2 /\ 2 ^ 52 <= m2))%Z ->
  SFleb (finish m1 e1) (finish m2 e2) = true.
Proof.
  intros H1 H2 H. unfold finish.
  assert (P52 : (0 < 2 ^ 52)%Z) by lia.
  destruct (Z.eqb_spec m1 0) as [->|N1].
  { repeat match goal with |- context [if ?b then _ else _] => destruct b end; reflexivity. }
  destruct (Z.eqb_spec m2 0) as [->|N2]; [lia|].
  destruct (Z.ltb_spec m1 (2 ^ 53)), (Z.ltb_spec m2 (2 ^ 53));
    repeat match goal with
           | |- context [Z.leb ?a ?b] => destruct (Z.leb_spec a b)
           end; try reflexivity; try lia;
    unfold SFleb, SFcompare;
    match goal with
    | |- context [Z.compare ?a ?b] =>
        destruct (Z.compare_spec a b); try reflexivity; try lia
    end;
    change (Pos.compare_cont Eq ?a ?b) with (Pos.compare a b);
    match goal with
    | |- context [Pos.compare ?a ?b] =>
        destruct (Pos.compare_spec a b) as [E|E|E]; try reflexivity;
        apply (f_equal Zpos) in E || apply Pos2Z.pos_lt_pos in E;
        rewrite ?Z2Pos.id in E by lia; lia
    end.
Qed.

(** The second shift of [binary_round_aux] and its answer. *)
Lemma shr_fexp_finish m e :
  (0 <= m <= 2 ^ 53)%Z -> (-1074 <= e)%Z ->
  (let '(mrs, e') := shr_fexp prec emax m e loc_Exact in
   match shr_m mrs with
   | Z0 => S754_zero false
   | Zpos p => if (e' <=? emax - prec)%Z then S754_finite false p e' else S754_infinity false
   | Zneg _ => S754_nan
   end) = finish m e.
Proof.
  intros Hm He. unfold finish, shr_fexp. fold (fexp64 (Zdigits2 m + e)).
  set (k := (fexp64 (Zdigits2 m + e) - e)%Z).
  destruct (Z.eqb_spec m 0) as [->|N0].
  { clearbody k. destruct k as [|p|p]; cbn [shr shr_record_of_loc shr_m]; try reflexivity.
    rewrite iter_pos_nat.
    assert (H : forall n, shr_m (Nat.iter n shr_1 {| shr_m := 0; shr_r := false; shr_s := false |}) = 0%Z).
    { intros n. destruct (shr_nat_located 0%R {| shr_m := 0; shr_r := false; shr_s := false |} e n)
        as [_ ->]; [cbn; lia | cbn; lra | reflexivity]. }
    now rewrite H. }
  assert (Hpos : (0 < m)%Z) by lia.
  pose proof (Zdigits2_bounds m Hpos) as Hd.
  destruct (Z.ltb_spec m (2 ^ 53)) as [Hlt|Hge].
  - assert (Hdig : (Zdigits2 m <= 53)%Z).
    { destruct (Z.le_gt_cases (Zdigits2 m) 53) as [|Hgt]; [assumption|].
      assert (2 ^ 53 <= 2 ^ (Zdigits2 m - 1))%Z by (apply Z.pow_le_mono_r; lia). lia. }
    assert (Hk : (k <= 0)%Z) by (unfold k; rewrite fexp64_spec; lia).
    clearbody k. change (emax - prec)%Z with 971%Z.
    destruct k as [|p|p]; [| lia |];
      cbn [shr shr_record_of_loc shr_m]; destruct m; try lia; reflexivity.
  - assert (m = 2 ^ 53)%Z by lia. subst m.
    assert (Hk : k = 1%Z).
    { unfold k. change (Zdigits2 (2 ^ 53)) with 54%Z. rewrite fexp64_spec. lia. }
    rewrite Hk. change (emax - prec)%Z with 971%Z.
    cbn [shr SpecFloat.iter_pos shr_record_of_loc]. reflexivity.
Qed.

Lemma round_aux_rounded X m e l :
  (0 <= m)%Z -> (e <= fexp64 (Zdigits2 m + e))%Z -> located X m e l ->
  rounded X (binary_round_aux prec emax false m e l).
Proof.
  intros Hm He Hloc.
  destruct (shr_fexp_located X m e l Hm He Hloc) as (r & Hr & Hlr & Hmr).
  set (et := fexp64 (Zdigits2 m + e)) in *.
  assert (Het : (-1074 <= et)%Z) by (unfold et; rewrite fexp64_spec; lia).
  assert (Hk : (0 <= et - e)%Z) by lia.
  assert (Hbounds : (0 <= shr_m r < 2 ^ 53)%Z /\ ((-1074 < et)%Z -> (2 ^ 52 <= shr_m r)%Z)).
  { rewrite Hmr. destruct (Z.eq_dec m 0%Z) as [->|N0].
    - rewrite Z.div_0_l by lia. split; [lia|].
      intros Hlt. exfalso. unfold et in *. cbn [Zdigits2] in *. rewrite fexp64_spec in *. lia.
    - pose proof (Zdigits2_bounds m ltac:(lia)) as Hd.
      pose proof (Zdigits2_nonneg m) as Hd0.
      assert (Hd1 : (1 <= Zdigits2 m)%Z).
      { destruct (Z.le_gt_cases 1 (Zdigits2 m)); [assumption|].
        replace (Zdigits2 m) with 0%Z in Hd by lia. cbn in Hd. lia. }
      assert (P : (0 < 2 ^ (et - e))%Z) by (apply Z.pow_pos_nonneg; lia).
      split; [split|].
      + apply Z.div_pos; lia.
      + apply Z.div_lt_upper_bound; [exact P|].
        rewrite <- Z.pow_add_r by lia.
        assert (2 ^ Zdigits2 m <= 2 ^ (et - e + 53))%Z.
        { apply Z.pow_le_mono_r; [lia|]. unfold et. rewrite fexp64_spec. lia. }
        lia.
      + intros Hlt. apply Z.div_le_lower_bound; [exact P|].
        rewrite <- Z.pow_add_r by lia.
        assert (2 ^ (et - e + 52) <= 2 ^ (Zdigits2 m - 1))%Z.
        { apply Z.pow_le_mono_r; [lia|]. unfold et in *. rewrite fexp64_spec in *. lia. }
        lia. }
  destruct Hbounds as [Hb1 Hb2].
  exists (shr_m r), (loc_of_shr_record r), et.
  split; [exact Het|]. split; [exact Hb1|]. split; [exact Hlr|]. split; [exact Hb2|].
  unfold binary_round_aux. rewrite Hr.
  apply shr_fexp_finish; [|exact Het].
  pose proof (round_nearest_even_bounds (shr_m r) (loc_of_shr_record r)). lia.
Qed.

Lemma rounded_mono X1 X2 f1 f2 :
  rounded X1 f1 -> rounded X2 f2 -> (X1 <= X2)%R -> SFleb f1 f2 = true.
Proof.
  intros (m1 & l1 & e1 & He1 & Hm1 & Hl1 & Hn1 & ->)
         (m2 & l2 & e2 & He2 & Hm2 & Hl2 & Hn2 & ->) HX.
  pose proof (round_nearest_even_bounds m1 l1).
  pose proof (round_nearest_even_bounds m2 l2).
  apply finish_le; [lia | lia |].
  destruct (Z.lt_trichotomy e1 e2) as [Hlt|[->|Hgt]].
  - right. split; [exact Hlt|]. specialize (Hn2 ltac:(lia)). lia.
  - left. split; [reflexivity|]. now apply (round_nearest_even_mono X1 X2 m1 m2 e2 l1 l2).
  - exfalso. specialize (Hn1 ltac:(lia)).
    pose proof (located_bounds _ _ _ _ Hl1) as B1.
    pose proof (located_bounds _ _ _ _ Hl2) as B2.
    pose proof (b2_pos e2) as Hb2.
    assert (Hb : (2 * b2 e2 <= b2 e1)%R).
    { rewrite <- b2_succ. apply b2_le. lia. }
    assert (IZR (2 ^ 52) <= IZR m1)%R by (apply IZR_le; lia).
    assert (IZR m2 + 1 <= IZR (2 ^ 53))%R by (rewrite <- plus_IZR; apply IZR_le; lia).
    change (2 ^ 52)%Z with 4503599627370496%Z in *.
    change (2 ^ 53)%Z with 9007199254740992%Z in *.
    pose proof (b2_pos e1). nra.
Qed.

Lemma approx_mono X1 X2 f1 f2 :
  approx X1 f1 -> approx X2 f2 -> (X1 <= X2)%R -> SFleb f1 f2 = true.
Proof.
  intros [[-> [s1 ->]]|[H1 R1]] [[-> [s2 ->]]|[H2 R2]] HX.
  - reflexivity.
  - destruct R2 as (m & l & e & _ & _ & _ & _ & ->).
    unfold finish.
    repeat match goal with |- context [if ?b then _ else _] => destruct b end; reflexivity.
  - lra.
  - now apply (rounded_mono X1 X2).
Qed.

Lemma approx_nonneg X f : approx X f -> sf_nonneg f.
Proof.
  intros [[_ [s ->]]|[_ (m & l & e & _ & _ & _ & _ & ->)]]; [exact I | apply finish_nonneg].
Qed.

(** ** The order of the doubles *)

Lemma bounded_spec m e :
  bounded prec emax m e = true ->
  (-1074 <= e <= 971)%Z /\ (Zpos m < 2 ^ 53)%Z /\ ((-1074 < e)%Z -> (2 ^ 52 <= Zpos m)%Z).
Proof.
  unfold bounded, canonical_mantissa. intros [Hc He]%andb_true_iff.
  apply Z.eqb_eq in Hc. apply Z.leb_le in He.
  fold (fexp64 (Zpos (digits2_pos m) + e)) in Hc. rewrite fexp64_spec in Hc.
  change (emax - prec)%Z with 971%Z in He.
  pose proof (digits2_bounds m) as Hd.
  split; [lia|]. split.
  - assert (2 ^ Zpos (digits2_pos m) <= 2 ^ 53)%Z by (apply Z.pow_le_mono_r; lia). lia.
  - intros Hlt. assert (2 ^ 52 <= 2 ^ (Zpos (digits2_pos m) - 1))%Z
      by (apply Z.pow_le_mono_r; lia). lia.
Qed.

Lemma finite_value_lt m1 e1 m2 e2 :
  bounded prec emax m1 e1 = true -> bounded prec emax m2 e2 = true ->
  (e1 < e2)%Z \/ (e1 = e2 /\ (m1 < m2)%positive) ->
  (IZR (Zpos m1) * b2 e1 < IZR (Zpos m2) * b2 e2)%R.
Proof.
  intros (He1 & Hm1 & _)%bounded_spec (He2 & _ & Hm2)%bounded_spec H.
  pose proof (b2_pos e1) as P1. pose proof (b2_pos e2) as P2.
  destruct H as [Hlt|[-> Hlt]].
  - specialize (Hm2 ltac:(lia)).
    assert (Hb : (2 * b2 e1 <= b2 e2)%R) by (rewrite <- b2_succ; apply b2_le; lia).
    assert (IZR (Zpos m1) < IZR (2 ^ 53))%R by (apply IZR_lt; exact Hm1).
    assert (IZR (2 ^ 52) <= IZR (Zpos m2))%R by (apply IZR_le; exact Hm2).
    change (2 ^ 52)%Z with 4503599627370496%Z in *.
    change (2 ^ 53)%Z with 9007199254740992%Z in *.
    assert (0 < IZR (Zpos m1))%R by (apply IZR_lt; lia).
    nra.
  - assert (IZR (Zpos m1) < IZR (Zpos m2))%R by (apply IZR_lt; exact Hlt). nra.
Qed.

Lemma finite_value_bounds m e :
  bounded prec emax m e = true -> (0 < IZR (Zpos m) * b2 e < b2 1024)%R.
Proof.
  intros (He & Hm & _)%bounded_spec.
  pose proof (b2_pos e) as P.
  assert (0 < IZR (Zpos m))%R by (apply IZR_lt; lia).
  assert (IZR (Zpos m) < IZR (2 ^ 53))%R by (apply IZR_lt; exact Hm).
  assert (Hb : (b2 e <= b2 971)%R) by (apply b2_le; lia).
  assert (E : b2 1024 = (IZR (2 ^ 53) * b2 971)%R).
  { change 1024%Z with (53 + 971)%Z. rewrite b2_add. f_equal. now apply b2_IZR. }
  rewrite E. pose proof (b2_pos 971). split; nra.
Qed.

Lemma SFcompare_spec a b :
  valid_binary a = true -> valid_binary b = true ->
  match SFcompare a b with
  | Some Lt => (SF2R a < SF2R b)%R
  | Some Eq => SF2R a = SF2R b
  | Some Gt => (SF2R b < SF2R a)%R
  | None => a = S754_nan \/ b = S754_nan
  end.
Proof.
  intros Va Vb. pose proof (b2_pos 1024) as P.
  unfold valid_binary in Va, Vb.
  destruct a as [sa|sa| |sa ma ea], b as [sb|sb| |sb mb eb];
    cbn [SFcompare SF2R SpecFloat.valid_binary] in *;
    auto;
    try pose proof (finite_value_bounds _ _ Va) as Ba;
    try pose proof (finite_value_bounds _ _ Vb) as Bb;
    try (destruct sa; lra); try (destruct sb; lra); try (destruct sa, sb; lra).
  change (Pos.compare_cont Eq ma mb) with (Pos.compare ma mb).
  destruct sa, sb; try lra;
    destruct (Z.compare_spec ea eb) as [->|Hlt|Hgt];
    try (pose proof (finite_value_lt ma ea mb eb Va Vb ltac:(auto)); lra);
    try (pose proof (finite_value_lt mb eb ma ea Vb Va ltac:(auto)); lra);
    destruct (Pos.compare_spec ma mb) as [->|Hlt|Hgt]; cbn [CompOpp]; try reflexivity;
    try (pose proof (finite_value_lt ma eb mb eb Va Vb ltac:(auto)); lra);
    try (pose proof (finite_value_lt mb eb ma eb Vb Va ltac:(auto)); lra).
Qed.

Lemma SFleb_iff a b :
  valid_binary a = true -> valid_binary b = true ->
  a <> S754_nan -> b <> S754_nan ->
  SFleb a b = true <-> (SF2R a <= SF2R b)%R.
Proof.
  intros Va Vb Na Nb. pose proof (SFcompare_spec a b Va Vb) as H. unfold SFleb.
  destruct (SFcompare a b) as [[]|]; [| | |tauto]; split; intros; try lra; try discriminate;
    reflexivity.
Qed.

Lemma SFltb_iff a b :
  valid_binary a = true -> valid_binary b = true ->
  a <> S754_nan -> b <> S754_nan ->
  SFltb a b = true <-> (SF2R a < SF2R b)%R.
Proof.
  intros Va Vb Na Nb. pose proof (SFcompare_spec a b Va Vb) as H. unfold SFltb.
  destruct (SFcompare a b) as [[]|]; [| | |tauto]; split; intros; try lra; try discriminate;
    reflexivity.
Qed.

Lemma SFleb_not_nan a b : SFleb a b = true -> a <> S754_nan /\ b <> S754_nan.
Proof. destruct a, b; cbn; intros H; split; congruence. Qed.

(** ** What the operations round *)

Lemma valid_rounded m e :
  bounded prec emax m e = true ->
  rounded (IZR (Zpos m) * b2 e) (S754_finite false m e).
Proof.
  intros (He & Hm & Hn)%bounded_spec.
  exists (Zpos m), loc_Exact, e.
  split; [lia|]. split; [lia|]. split; [reflexivity|]. split; [exact Hn|].
  cbn [round_nearest_even]. unfold finish. cbn [Z.eqb].
  destruct (Z.ltb_spec (Zpos m) (2 ^ 53)); [|lia].
  destruct (Z.leb_spec e 971); [|lia]. reflexivity.
Qed.

Lemma iter_xO_value m d : Zpos (Pos.iter xO m d) = (Zpos m * 2 ^ Zpos d)%Z.
Proof.
  induction d as [|d IH] using Pos.peano_ind.
  - cbn [Pos.iter]. lia.
  - rewrite Pos.iter_succ, Pos2Z.inj_succ, Z.pow_succ_r by lia.
    rewrite Pos2Z.inj_xO, IH. lia.
Qed.

Lemma shl_align_spec m e e' :
  snd (shl_align m e e') = Z.min e e'
  /\ Zpos (fst (shl_align m e e')) = (Zpos m * 2 ^ (e - Z.min e e'))%Z.
Proof.
  unfold shl_align. destruct (e' - e)%Z as [|d|d] eqn:E; cbn [fst snd].
  - replace (Z.min e e') with e by lia. rewrite Z.sub_diag. lia.
  - replace (Z.min e e') with e by lia. rewrite Z.sub_diag. lia.
  - replace (Z.min e e') with e' by lia. rewrite iter_xO_value.
    split; [reflexivity|]. do 2 f_equal. lia.
Qed.

Lemma shl_align_value m e e' :
  (IZR (Zpos (fst (shl_align m e e'))) * b2 (Z.min e e') = IZR (Zpos m) * b2 e)%R.
Proof.
  destruct (shl_align_spec m e e') as [_ ->].
  rewrite mult_IZR, <- b2_IZR by lia. rewrite Rmult_assoc, <- b2_add.
  do 2 f_equal. lia.
Qed.

Lemma Zdigits2_unique m d :
  (0 < m)%Z -> (2 ^ (d - 1) <= m < 2 ^ d)%Z -> Zdigits2 m = d.
Proof.
  intros Hm Hd. pose proof (Zdigits2_bounds m Hm) as HD.
  pose proof (Zdigits2_nonneg m) as H0.
  assert (Hd0 : (0 <= d)%Z).
  { destruct (Z.le_gt_cases 0 d); [assumption|]. rewrite (Z.pow_neg_r 2 d) in Hd by lia. lia. }
  destruct (Z.lt_trichotomy (Zdigits2 m) d) as [Hlt|[E|Hgt]]; [|exact E|].
  - assert (2 ^ Zdigits2 m <= 2 ^ (d - 1))%Z by (apply Z.pow_le_mono_r; lia). lia.
  - assert (2 ^ d <= 2 ^ (Zdigits2 m - 1))%Z by (apply Z.pow_le_mono_r; lia). lia.
Qed.

Lemma Zdigits2_shift m k :
  (0 < m)%Z -> (0 <= k)%Z -> Zdigits2 (m * 2 ^ k) = (Zdigits2 m + k)%Z.
Proof.
  intros Hm Hk. pose proof (Zdigits2_bounds m Hm) as Hd.
  assert (H1 : (1 <= Zdigits2 m)%Z).
  { pose proof (Zdigits2_nonneg m). destruct (Z.le_gt_cases 1 (Zdigits2 m)); [assumption|].
    replace (Zdigits2 m) with 0%Z in Hd by lia. cbn in Hd. lia. }
  assert (P : (0 < 2 ^ k)%Z) by (apply Z.pow_pos_nonneg; lia).
  apply Zdigits2_unique; [nia|].
  replace (Zdigits2 m + k - 1)%Z with ((Zdigits2 m - 1) + k)%Z by lia.
  rewrite !Z.pow_add_r by lia. nia.
Qed.

Lemma binary_round_rounded p e :
  rounded (IZR (Zpos p) * b2 e) (binary_round prec emax false p e).
Proof.
  unfold binary_round.
  fold (fexp64 (Zpos (digits2_pos p) + e)).
  set (et := fexp64 (Zpos (digits2_pos p) + e)).
  destruct (shl_align_spec p e et) as [H1 H2].
  pose proof (shl_align_value p e et) as H3.
  destruct (shl_align p e et) as [mz ez]. cbn [fst snd] in *. subst ez.
  apply round_aux_rounded; [lia | |].
  - rewrite H2, Zdigits2_shift by lia. cbn [Zdigits2].
    replace (Z.pos (digits2_pos p) + (e - e `min` et) + e `min` et)%Z
      with (Zpos (digits2_pos p) + e)%Z by lia.
    fold et. lia.
  - cbn [located]. now rewrite H3.
Qed.

Lemma SFsub_approx a b :
  valid_binary a = true -> valid_binary b = true -> sf_finite a -> sf_finite b ->
  (SF2R b <= SF2R a)%R -> approx (SF2R a - SF2R b) (SFsub prec emax a b).
Proof.
  intros Va Vb Fa Fb Hle. unfold valid_binary in Va, Vb.
  destruct a as [sa| | |sa ma ea], b as [sb| | |sb mb eb]; try contradiction;
    cbn [SFsub SF2R SpecFloat.valid_binary] in *.
  - left. split; [lra|]. destruct sa, sb; eauto.
  - pose proof (finite_value_bounds _ _ Vb) as Bb.
    destruct sb; [|lra]. right. split; [lra|]. cbn [negb].
    replace (0 - - IZR (Zpos mb) * b2 eb)%R with (IZR (Zpos mb) * b2 eb)%R by lra.
    now apply valid_rounded.
  - pose proof (finite_value_bounds _ _ Va) as Ba.
    destruct sa; [lra|]. right. split; [lra|].
    replace (IZR (Zpos ma) * b2 ea - 0)%R with (IZR (Zpos ma) * b2 ea)%R by lra.
    now apply valid_rounded.
  - pose proof (shl_align_value ma ea (Z.min ea eb)) as Ha.
    pose proof (shl_align_value mb eb (Z.min ea eb)) as Hb.
    replace (Z.min ea (Z.min ea eb)) with (Z.min ea eb) in Ha by lia.
    replace (Z.min eb (Z.min ea eb)) with (Z.min ea eb) in Hb by lia.
    set (ez := Z.min ea eb) in *.
    set (ma' := Zpos (fst (shl_align ma ea ez))) in *.
    set (mb' := Zpos (fst (shl_align mb eb ez))) in *.
    set (D := (cond_Zopp sa ma' - cond_Zopp sb mb')%Z).
    assert (HX : ((if sa then - IZR (Zpos ma) else IZR (Zpos ma)) * b2 ea
                  - (if sb then - IZR (Zpos mb) else IZR (Zpos mb)) * b2 eb
                  = IZR D * b2 ez)%R).
    { unfold D. rewrite minus_IZR. destruct sa, sb; cbn [cond_Zopp]; rewrite ?opp_IZR; lra. }
    rewrite HX. pose proof (b2_pos ez) as P.
    destruct D as [|p|p] eqn:ED; cbn [binary_normalize].
    + left. split; [lra | eauto].
    + right. split; [|apply binary_round_rounded].
      assert (0 < IZR (Zpos p))%R by (apply IZR_lt; lia). nra.
    + exfalso. assert (IZR (Zneg p) < 0)%R by (apply IZR_lt; lia). nra.
Qed.

(** ** What a division rounds *)

Lemma new_location_located X q e md r :
  (0 < md)%Z -> (0 <= r < md)%Z ->
  X = ((IZR q + IZR r / IZR md) * b2 e)%R ->
  located X q e (new_location md r).
Proof.
  intros Hmd Hr ->. pose proof (b2_pos e) as P.
  assert (HM : (0 < IZR md)%R) by (apply IZR_lt; lia).
  set (rho := (IZR r / IZR md)%R).
  assert (Hrho : (rho * IZR md = IZR r)%R) by (unfold rho; field; lra).
  assert (Hscale : forall c : R, (0 < c)%R -> (0 < c * b2 e)%R)
    by (intros c Hc; apply Rmult_lt_0_compat; assumption).
  assert (Hcmp : forall k : Z,
            ((k < md)%Z -> (IZR k < IZR md)%R) /\ ((md < k)%Z -> (IZR md < IZR k)%R)
            /\ (k = md -> IZR k = IZR md)).
  { intros k. split; [|split]; intros; [apply IZR_lt | apply IZR_lt | f_equal]; assumption. }
  assert (Hzero : r = 0%Z -> located ((IZR q + rho) * b2 e) q e loc_Exact).
  { intros ->. assert (E : (rho = 0)%R) by (unfold rho; field; lra).
    rewrite E. cbn [located]. ring. }
  assert (Hlt : (2 * r < md)%Z -> r <> 0%Z ->
                located ((IZR q + rho) * b2 e) q e (loc_Inexact Lt)).
  { intros E Hr0. apply (Hcmp (2 * r)%Z) in E. rewrite mult_IZR in E.
    assert (0 < IZR r)%R by (apply IZR_lt; lia).
    assert (0 < rho)%R by nra. assert (rho < /2)%R by nra.
    pose proof (Hscale rho ltac:(lra)). pose proof (Hscale (/2 - rho)%R ltac:(lra)).
    cbn [located]. lra. }
  assert (Hgt : (md < 2 * r)%Z ->
                located ((IZR q + rho) * b2 e) q e (loc_Inexact Gt)).
  { intros E. apply (Hcmp (2 * r)%Z) in E. rewrite mult_IZR in E.
    assert (/2 < rho)%R by nra. assert (rho < 1)%R.
    { assert (IZR r < IZR md)%R by (apply IZR_lt; lia). nra. }
    pose proof (Hscale (rho - /2)%R ltac:(lra)). pose proof (Hscale (1 - rho)%R ltac:(lra)).
    cbn [located]. lra. }
  assert (Heq : (2 * r = md)%Z ->
                located ((IZR q + rho) * b2 e) q e (loc_Inexact Eq)).
  { intros E. apply (Hcmp (2 * r)%Z) in E. rewrite mult_IZR in E.
    assert (E' : (rho = /2)%R) by nra. rewrite E'. reflexivity. }
  unfold new_location.
  destruct (Z.even md) eqn:Ev; unfold new_location_even, new_location_odd;
    destruct (Z.eqb_spec r 0) as [Hr0|Hr0]; auto.
  - destruct (Z.compare_spec (2 * r) md) as [E|E|E]; auto.
  - assert (Hodd : (2 * r <> md)%Z).
    { intros <-. rewrite Z.even_mul in Ev. discriminate. }
    destruct (Z.compare_spec (2 * r + 1) md) as [E|E|E];
      [apply Hlt | apply Hlt | apply Hgt]; lia.
Qed.

Lemma SFdiv_core_located mn en md ed :
  let X := ((IZR (Zpos mn) * b2 en) / (IZR (Zpos md) * b2 ed))%R in
  let '(q, e, l) := SFdiv_core_binary prec emax (Zpos mn) en (Zpos md) ed in
  (0 <= q)%Z /\ (e <= fexp64 (Zdigits2 q + e))%Z /\ located X q e l.
Proof.
  intros X. unfold SFdiv_core_binary.
  fold (fexp64 (Zdigits2 (Zpos mn) + en - (Zdigits2 (Zpos md) + ed))).
  set (d1 := Zdigits2 (Zpos mn)). set (d2 := Zdigits2 (Zpos md)).
  set (e' := Z.min (fexp64 (d1 + en - (d2 + ed))) (en - ed)).
  set (s := (en - ed - e')%Z).
  assert (Hs : (0 <= s)%Z) by (unfold s, e'; lia).
  set (m' := match s with Zpos _ => Z.shiftl (Zpos mn) s | Z0 => Zpos mn | Zneg _ => 0%Z end).
  assert (Hm' : m' = (Zpos mn * 2 ^ s)%Z).
  { unfold m'. destruct s as [|p|p] eqn:Es; [lia | | lia]. now rewrite Z.shiftl_mul_pow2 by lia. }
  clearbody m'.
  pose proof (Z_div_mod m' (Zpos md) ltac:(lia)) as Hdm.
  destruct (Z.div_eucl m' (Zpos md)) as [q r]. destruct Hdm as [Hq Hr].
  assert (P : (0 < 2 ^ s)%Z) by (apply Z.pow_pos_nonneg; lia).
  assert (Hq0 : (0 <= q)%Z) by nia.
  pose proof (Zdigits2_bounds (Zpos mn) ltac:(lia)) as B1. fold d1 in B1.
  pose proof (Zdigits2_bounds (Zpos md) ltac:(lia)) as B2. fold d2 in B2.
  assert (Hd1 : (1 <= d1)%Z) by (unfold d1; cbn; lia).
  assert (Hd2 : (1 <= d2)%Z) by (unfold d2; cbn; lia).
  split; [exact Hq0|]. split.
  - assert (Hdig : (d1 + s - d2 <= Zdigits2 q)%Z).
    { pose proof (Zdigits2_nonneg q) as Hn.
      destruct (Z.le_gt_cases (d1 + s - d2) 0) as [|Hk]; [lia|].
      assert (Hlow : (2 ^ (d1 + s - d2 - 1) <= q)%Z).
      { assert (E : (2 ^ (d1 - 1) * 2 ^ s = 2 ^ d2 * 2 ^ (d1 + s - d2 - 1))%Z).
        { rewrite <- !Z.pow_add_r by lia. f_equal. lia. }
        assert (P2 : (0 < 2 ^ (d1 + s - d2 - 1))%Z) by (apply Z.pow_pos_nonneg; lia).
        destruct (Z.le_gt_cases (2 ^ (d1 + s - d2 - 1)) q) as [|Hlt]; [assumption|].
        exfalso. nia. }
      assert (P2 : (0 < 2 ^ (d1 + s - d2 - 1))%Z) by (apply Z.pow_pos_nonneg; lia).
      pose proof (Zdigits2_bounds q ltac:(lia)) as Bq.
      destruct (Z.le_gt_cases (d1 + s - d2) (Zdigits2 q)) as [|Hlt]; [assumption|].
      assert (2 ^ Zdigits2 q <= 2 ^ (d1 + s - d2 - 1))%Z by (apply Z.pow_le_mono_r; lia).
      lia. }
    assert (Hmono : (fexp64 (d1 + en - (d2 + ed)) <= fexp64 (Zdigits2 q + e'))%Z).
    { rewrite !fexp64_spec. unfold s in Hdig. lia. }
    unfold e' at 1. lia.
  - apply (new_location_located X q e' (Zpos md) r); [lia | exact Hr |].
    unfold X. pose proof (b2_pos en). pose proof (b2_pos ed). pose proof (b2_pos e').
    assert (E1 : b2 en = (IZR (2 ^ s) * b2 e' * b2 ed)%R).
    { rewrite <- b2_IZR by lia. rewrite <- !b2_add. f_equal. unfold s. lia. }
    assert (E2 : (IZR (Zpos mn) * IZR (2 ^ s) = IZR (Zpos md) * IZR q + IZR r)%R).
    { rewrite <- !mult_IZR, <- plus_IZR. f_equal. lia. }
    assert (0 < IZR (Zpos md))%R by (apply IZR_lt; lia).
    rewrite E1.
    replace (IZR (Zpos mn) * (IZR (2 ^ s) * b2 e' * b2 ed))%R
      with ((IZR (Zpos md) * IZR q + IZR r) * b2 e' * b2 ed)%R by (rewrite <- E2; ring).
    field. split; lra.
Qed.

Lemma SFdiv_approx a b :
  valid_binary a = true -> valid_binary b = true ->
  sf_finite a -> sf_nonneg a -> (0 < SF2R b)%R -> sf_finite b ->
  approx (SF2R a / SF2R b) (SFdiv prec emax a b).
Proof.
  intros Va Vb Fa Na Hb Fb. unfold valid_binary in Va, Vb.
  destruct b as [sb| | |sb mb eb]; try contradiction; cbn [SF2R] in Hb; [lra|].
  cbn [SpecFloat.valid_binary] in Vb. pose proof (finite_value_bounds _ _ Vb) as Bb.
  destruct sb; [lra|].
  destruct a as [sa| | |sa ma ea]; try contradiction; cbn [SFdiv SF2R sf_nonneg] in *.
  - left. split; [unfold Rdiv; lra | eauto].
  - subst sa. cbn [xorb].
    pose proof (SFdiv_core_located ma ea mb eb) as H. cbv zeta in H.
    destruct (SFdiv_core_binary prec emax (Zpos ma) ea (Zpos mb) eb) as [[q e] l].
    destruct H as (Hq & He & Hl).
    pose proof (finite_value_bounds _ _ Va) as Ba.
    right. split.
    + apply Rdiv_lt_0_compat; lra.
    + now apply round_aux_rounded.
Qed.

(** ** Doubles in their order *)

Lemma not_nan_spec x : PrimFloat.is_nan x = false -> Prim2SF x <> S754_nan.
Proof.
  unfold PrimFloat.is_nan. rewrite FloatAxioms.eqb_spec. intros H E. rewrite E in H.
  discriminate.
Qed.

Lemma leb_not_nan x y :
  PrimFloat.leb x y = true -> PrimFloat.is_nan x = false /\ PrimFloat.is_nan y = false.
Proof.
  rewrite leb_spec. unfold PrimFloat.is_nan. rewrite !FloatAxioms.eqb_spec.
  destruct (Prim2SF x) as [| | |s m e] eqn:Ex, (Prim2SF y) as [| | |s' m' e'] eqn:Ey;
    cbn [SFleb SFcompare]; try discriminate; intros _;
    rewrite ?(SFcompare_refl (S754_finite s m e)), ?(SFcompare_refl (S754_finite s' m' e'))
      by discriminate; unfold SFeqb; rewrite ?SFcompare_refl by discriminate; auto.
Qed.

Lemma finite_not_nan x : PrimFloat.is_finite x = true -> PrimFloat.is_nan x = false.
Proof.
  unfold PrimFloat.is_finite. intros H%negb_true_iff. now apply orb_false_iff in H as [H _].
Qed.

Lemma finite_sf_finite x : PrimFloat.is_finite x = true -> sf_finite (Prim2SF x).
Proof.
  unfold PrimFloat.is_finite. intros H%negb_true_iff.
  destruct (finite_float x H) as [[s ->]|(s & m & e & ->)]; exact I.
Qed.

Lemma leb_iff x y :
  PrimFloat.is_nan x = false -> PrimFloat.is_nan y = false ->
  PrimFloat.leb x y = true <-> (float_value x <= float_value y)%R.
Proof.
  intros Hx Hy. rewrite leb_spec.
  apply SFleb_iff; auto using Prim2SF_valid, not_nan_spec.
Qed.

Lemma ltb_iff x y :
  PrimFloat.is_nan x = false -> PrimFloat.is_nan y = false ->
  PrimFloat.ltb x y = true <-> (float_value x < float_value y)%R.
Proof.
  intros Hx Hy. rewrite ltb_spec.
  apply SFltb_iff; auto using Prim2SF_valid, not_nan_spec.
Qed.

Lemma approx_leb X1 X2 (x y : PrimFloat.float) :
  approx X1 (Prim2SF x) -> approx X2 (Prim2SF y) -> (X1 <= X2)%R ->
  PrimFloat.leb x y = true.
Proof. intros H1 H2 HX. rewrite leb_spec. now apply (approx_mono X1 X2). Qed.

Lemma sub_approx x y :
  PrimFloat.is_finite x = true -> PrimFloat.is_finite y = true ->
  PrimFloat.leb y x = true ->
  approx (float_value x - float_value y) (Prim2SF (PrimFloat.sub x y)).
Proof.
  intros Fx Fy Hle. rewrite sub_spec.
  apply SFsub_approx; auto using Prim2SF_valid, finite_sf_finite.
  apply leb_iff; auto using finite_not_nan.
Qed.

Lemma div_approx x y :
  PrimFloat.is_finite x = true -> sf_nonneg (Prim2SF x) ->
  PrimFloat.is_finite y = true -> (0 < float_value y)%R ->
  approx (float_value x / float_value y) (Prim2SF (PrimFloat.div x y)).
Proof.
  intros Fx Nx Fy Hy. rewrite div_spec.
  apply SFdiv_approx; auto using Prim2SF_valid, finite_sf_finite.
Qed.

Lemma nonneg_finite_value x :
  sf_nonneg (Prim2SF x) -> PrimFloat.is_finite x = true -> PrimFloat.is_zero x = false ->
  (0 < float_value x)%R.
Proof.
  intros Hn Hf Hz. destruct (finite_nonzero_float x Hf Hz) as (s & m & e & E).
  pose proof (Prim2SF_valid x) as V. unfold float_value. rewrite E in *.
  cbn [sf_nonneg] in Hn. subst s. cbn [SF2R].
  apply (finite_value_bounds m e V).
Qed.

Lemma below_finite_is_finite x y :
  sf_nonneg (Prim2SF x) -> PrimFloat.is_finite y = true -> PrimFloat.leb x y = true ->
  PrimFloat.is_finite x = true.
Proof.
  intros Hn Fy Hle. pose proof (finite_sf_finite y Fy) as Sy.
  rewrite leb_spec in Hle.
  unfold PrimFloat.is_finite, PrimFloat.is_nan, PrimFloat.is_infinity.
  rewrite !FloatAxioms.eqb_spec, abs_spec.
  change (Prim2SF PrimFloat.infinity) with (S754_infinity false).
  destruct (Prim2SF x) as [s|s| |s m e]; cbn [sf_nonneg] in Hn; try contradiction;
    try reflexivity.
  - subst s. destruct (Prim2SF y) as [|s'| |]; try contradiction; discriminate.
  - subst s. cbn [SFabs]. unfold SFeqb.
    rewrite SFcompare_refl by discriminate. cbn [SFcompare]. reflexivity.
Qed.

(** ** The Q transform on doubles, in the order of the doubles *)

Lemma ltb_cases x y :
  PrimFloat.is_nan x = false -> PrimFloat.is_nan y = false ->
  (PrimFloat.ltb x y = true /\ (float_value x < float_value y)%R)
  \/ (PrimFloat.ltb x y = false /\ (float_value y <= float_value x)%R).
Proof.
  intros Nx Ny. pose proof (ltb_iff x y Nx Ny) as H.
  destruct (PrimFloat.ltb x y); [left; split; [reflexivity | now apply H]|].
  right. split; [reflexivity|]. apply Rnot_lt_le. intros Hc. apply H in Hc. discriminate.
Qed.

Lemma clamp_between (lo hi q : PrimFloat.float) :
  PrimFloat.is_nan lo = false -> PrimFloat.is_nan hi = false ->
  PrimFloat.is_nan q = false -> PrimFloat.ltb lo hi = true ->
  float_value (if PrimFloat.ltb lo (if PrimFloat.ltb q hi then q else hi)
               then (if PrimFloat.ltb q hi then q else hi) else lo)
  = Rmax (float_value lo) (Rmin (float_value hi) (float_value q)).
Proof.
  intros Nlo Nhi Nq Hlh. apply ltb_iff in Hlh; [|assumption..].
  unfold Rmax, Rmin.
  destruct (ltb_cases q hi Nq Nhi) as [[-> H1]|[-> H1]].
  - destruct (ltb_cases lo q Nlo Nq) as [[-> H2]|[-> H2]];
      repeat destruct (Rle_dec _ _); try lra; f_equal.
  - destruct (ltb_cases lo hi Nlo Nhi) as [[-> H2]|[-> H2]];
      repeat destruct (Rle_dec _ _); try lra; f_equal.
Qed.

Lemma binary64_clamped_value libm (q : PrimFloat.float) :
  PrimFloat.is_nan q = false ->
  float_value (@clamped (binary64 libm) q)
  = Rmax (float_value (@Q_MIN (binary64 libm)))
         (Rmin (float_value (@Q_MAX (binary64 libm))) (float_value q)).
Proof.
  intros Nq.
  exact (clamp_between (@Q_MIN (binary64 libm)) (@Q_MAX (binary64 libm)) q
           eq_refl eq_refl Nq eq_refl).
Qed.

Lemma binary64_clamped_mono libm (q1 q2 : PrimFloat.float) :
  PrimFloat.leb q1 q2 = true ->
  PrimFloat.leb (@clamped (binary64 libm) q1) (@clamped (binary64 libm) q2) = true.
Proof.
  intros Hle. destruct (leb_not_nan _ _ Hle) as [N1 N2].
  apply leb_iff in Hle; [|assumption..].
  destruct (binary64_clamped_finite libm q1) as (F1 & _ & _ & _).
  destruct (binary64_clamped_finite libm q2) as (F2 & _ & _ & _).
  apply leb_iff; [now apply finite_not_nan | now apply finite_not_nan |].
  rewrite !binary64_clamped_value by assumption.
  apply Rle_max_compat_l, Rle_min_compat_l, Hle.
Qed.

Section QOnDoubles.
Variable libm : Binary64.Libm.
Hypothesis Hfin : finite_log libm.
Hypothesis Hmono : monotone_log libm.
Hypothesis Hspan : PrimFloat.is_finite (PrimFloat.sub (Binary64.libm_log libm (@Q_MAX (binary64 libm))) (Binary64.libm_log libm (@Q_MIN (binary64 libm)))) = true.
Hypothesis Hnz : PrimFloat.is_zero (PrimFloat.sub (Binary64.libm_log libm (@Q_MAX (binary64 libm))) (Binary64.libm_log libm (@Q_MIN (binary64 libm)))) = false.

Lemma binary64_q_value (q : PrimFloat.float) t :
  @q_to_proq4 (binary64 libm) q t
  = Ok (PrimFloat.div
          (PrimFloat.sub (Binary64.libm_log libm (@clamped (binary64 libm) q)) (Binary64.libm_log libm (@Q_MIN (binary64 libm))))
          (PrimFloat.sub (Binary64.libm_log libm (@Q_MAX (binary64 libm))) (Binary64.libm_log libm (@Q_MIN (binary64 libm))))).
Proof.
  destruct (binary64_clamped_finite libm q) as (Hf & Hp & _ & _).
  unfold q_to_proq4. fold (@clamped (binary64 libm) q).
  cbn [math_log float_div float_sub binary64].
  rewrite (checked_log_Ok libm _ Hfin Hf Hp). cbn [mbind pyresult_bind].
  rewrite (checked_log_Ok libm (@Q_MIN (binary64 libm)) Hfin eq_refl eq_refl).
  cbn [mbind pyresult_bind].
  rewrite (checked_log_Ok libm (@Q_MAX (binary64 libm)) Hfin eq_refl eq_refl).
  cbn [mbind pyresult_bind]. rewrite Hnz. reflexivity.
Qed.

Lemma log_clamped_bounds (q : PrimFloat.float) :
  let x := Binary64.libm_log libm (@clamped (binary64 libm) q) in
  PrimFloat.is_finite x = true /\ PrimFloat.leb (Binary64.libm_log libm (@Q_MIN (binary64 libm))) x = true /\ PrimFloat.leb x (Binary64.libm_log libm (@Q_MAX (binary64 libm))) = true.
Proof.
  destruct (binary64_clamped_finite libm q) as (Hf & Hp & Hlo & Hhi). cbv zeta.
  split; [now apply Hfin|]. split.
  - apply Hmono; [reflexivity | reflexivity | exact Hf | exact Hlo].
  - apply Hmono; [exact Hf | exact Hp | reflexivity | exact Hhi].
Qed.

Lemma lo_hi_finite : PrimFloat.is_finite (Binary64.libm_log libm (@Q_MIN (binary64 libm))) = true /\ PrimFloat.is_finite (Binary64.libm_log libm (@Q_MAX (binary64 libm))) = true.
Proof. split; apply Hfin; reflexivity. Qed.

Lemma span_positive :
  approx (float_value (Binary64.libm_log libm (@Q_MAX (binary64 libm))) - float_value (Binary64.libm_log libm (@Q_MIN (binary64 libm)))) (Prim2SF (PrimFloat.sub (Binary64.libm_log libm (@Q_MAX (binary64 libm))) (Binary64.libm_log libm (@Q_MIN (binary64 libm)))))
  /\ (0 < float_value (PrimFloat.sub (Binary64.libm_log libm (@Q_MAX (binary64 libm))) (Binary64.libm_log libm (@Q_MIN (binary64 libm)))))%R.
Proof.
  destruct lo_hi_finite as [Flo Fhi].
  assert (Hle : PrimFloat.leb (Binary64.libm_log libm (@Q_MIN (binary64 libm))) (Binary64.libm_log libm (@Q_MAX (binary64 libm))) = true).
  { apply Hmono; reflexivity. }
  pose proof (sub_approx (Binary64.libm_log libm (@Q_MAX (binary64 libm))) (Binary64.libm_log libm (@Q_MIN (binary64 libm))) Fhi Flo Hle) as Ha.
  split; [exact Ha|].
  apply nonneg_finite_value; [now apply (approx_nonneg _ _ Ha) | exact Hspan | exact Hnz].
Qed.

Lemma numerator_facts (q : PrimFloat.float) :
  let n := PrimFloat.sub (Binary64.libm_log libm (@clamped (binary64 libm) q)) (Binary64.libm_log libm (@Q_MIN (binary64 libm))) in
  approx (float_value (Binary64.libm_log libm (@clamped (binary64 libm) q)) - float_value (Binary64.libm_log libm (@Q_MIN (binary64 libm))))
         (Prim2SF n)
  /\ sf_nonneg (Prim2SF n) /\ PrimFloat.is_finite n = true
  /\ PrimFloat.leb n (PrimFloat.sub (Binary64.libm_log libm (@Q_MAX (binary64 libm))) (Binary64.libm_log libm (@Q_MIN (binary64 libm)))) = true.
Proof.
  cbv zeta. destruct lo_hi_finite as [Flo Fhi].
  destruct (log_clamped_bounds q) as (Fx & Hlx & Hxh). cbv zeta in Fx, Hlx, Hxh.
  pose proof (sub_approx _ (Binary64.libm_log libm (@Q_MIN (binary64 libm))) Fx Flo Hlx) as Ha.
  destruct span_positive as [Hd _].
  assert (Hle : PrimFloat.leb (PrimFloat.sub (Binary64.libm_log libm (@clamped (binary64 libm) q)) (Binary64.libm_log libm (@Q_MIN (binary64 libm))))
                  (PrimFloat.sub (Binary64.libm_log libm (@Q_MAX (binary64 libm))) (Binary64.libm_log libm (@Q_MIN (binary64 libm)))) = true).
  { apply (approx_leb _ _ _ _ Ha Hd).
    apply leb_iff in Hxh; [lra | now apply finite_not_nan | now apply finite_not_nan]. }
  split; [exact Ha|]. split; [now apply (approx_nonneg _ _ Ha)|].
  split; [|exact Hle].
  apply (below_finite_is_finite _ _ (approx_nonneg _ _ Ha) Hspan Hle).
Qed.

Lemma binary64_q_range (q : PrimFloat.float) t :
  exists v, @q_to_proq4 (binary64 libm) q t = Ok v
    /\ PrimFloat.leb 0 v = true /\ PrimFloat.leb v 1 = true.
Proof.
  rewrite binary64_q_value. eexists. split; [reflexivity|].
  destruct (numerator_facts q) as (_ & Nn & Fn & Hle). cbv zeta in Nn, Fn, Hle.
  destruct span_positive as [Hd Hpos].
  pose proof (div_approx _ _ Fn Nn Hspan Hpos) as Hv.
  split.
  - apply sf_nonneg_leb. now apply (approx_nonneg _ _ Hv).
  - rewrite <- (div_diag (PrimFloat.sub (Binary64.libm_log libm (@Q_MAX (binary64 libm))) (Binary64.libm_log libm (@Q_MIN (binary64 libm)))) Hspan Hnz).
    assert (Nd : sf_nonneg (Prim2SF (PrimFloat.sub (Binary64.libm_log libm (@Q_MAX (binary64 libm))) (Binary64.libm_log libm (@Q_MIN (binary64 libm)))))) by now apply (approx_nonneg _ _ Hd).
    pose proof (div_approx _ _ Hspan Nd Hspan Hpos) as H1.
    apply (approx_leb _ _ _ _ Hv H1).
    apply leb_iff in Hle; [|now apply finite_not_nan..].
    apply Rmult_le_compat_r; [|exact Hle]. left. now apply Rinv_0_lt_compat.
Qed.

Lemma binary64_q_monotone (q1 q2 : PrimFloat.float) t v1 v2 :
  PrimFloat.leb q1 q2 = true ->
  @q_to_proq4 (binary64 libm) q1 t = Ok v1 ->
  @q_to_proq4 (binary64 libm) q2 t = Ok v2 ->
  PrimFloat.leb v1 v2 = true.
Proof.
  intros Hq. rewrite !binary64_q_value. intros E1%Ok_inj E2%Ok_inj. subst v1 v2.
  destruct (numerator_facts q1) as (A1 & N1 & F1 & _).
  destruct (numerator_facts q2) as (A2 & N2 & F2 & _). cbv zeta in *.
  destruct span_positive as [_ Hpos].
  destruct (binary64_clamped_finite libm q1) as (Fc1 & Pc1 & _ & _).
  destruct (binary64_clamped_finite libm q2) as (Fc2 & Pc2 & _ & _).
  pose proof (Hmono _ _ Fc1 Pc1 Fc2 (binary64_clamped_mono libm q1 q2 Hq)) as Hx.
  destruct (log_clamped_bounds q1) as (Fx1 & _ & _).
  destruct (log_clamped_bounds q2) as (Fx2 & _ & _). cbv zeta in Fx1, Fx2.
  apply leb_iff in Hx; [|now apply finite_not_nan..].
  assert (Hn : PrimFloat.leb
                 (PrimFloat.sub (Binary64.libm_log libm (@clamped (binary64 libm) q1)) (Binary64.libm_log libm (@Q_MIN (binary64 libm))))
                 (PrimFloat.sub (Binary64.libm_log libm (@clamped (binary64 libm) q2)) (Binary64.libm_log libm (@Q_MIN (binary64 libm)))) = true).
  { apply (approx_leb _ _ _ _ A1 A2). lra. }
  apply leb_iff in Hn; [|now apply finite_not_nan..].
  apply (approx_leb _ _ _ _ (div_approx _ _ F1 N1 Hspan Hpos) (div_approx _ _ F2 N2 Hspan Hpos)).
  apply Rmult_le_compat_r; [|exact Hn]. left. now apply Rinv_0_lt_compat.
Qed.

End QOnDoubles.

(** * The statements of the specification, one by one *)

(** C1.  Whatever the number of filters, the lines that are emitted are
    608: after the 7 header lines come 24 blocks of 23 lines, the block of
    band N holding exactly the parameter keys of band N; no other line is
    a band parameter line.  Exactly 24 lines are spectral tilt lines: those
    at positions 583 to 606, the one of band N saying 1 when N is at most
    the number of filters and 0 otherwise.  The filters after the 24th do
    not change the output. *)
Theorem emitted_bands_and_tilt_lines {F : PyFloat} (preset : EQPreset F) (L : list string) :
  eq_preset_lines preset = Ok L ->
  length L = 608
  /\ (forall N, 1 <= N <= 24 -> line_key <$> band_block L N = band_key N <$> band_fields)
  /\ length (List.filter is_band_parameter_line L) = 24 * 23
  /\ (forall N, 1 <= N <= 24 ->
        L !! (582 + N) = Some ("Band " +:+ str_int N +:+ " Spectral Tilt=" +:+
                               (if (N <=? length (filters preset))%nat then "1" else "0")))
  /\ length (List.filter is_tilt_line L) = 24
  /\ eq_preset_lines (drop_extra_filters preset) = Ok L.
Proof.
  intros HL. split; [now apply emitted_length with preset|].
  split.
  { intros N HN. destruct (emitted_band_block preset L N HL HN) as (params & _ & ->).
    now apply block_lines_keys. }
  split; [now apply (emitted_counts preset L)|].
  split.
  { intros N HN. pose proof (emitted_tilt_lines preset L HL) as Ht.
    assert (Hl : (tilt_line preset <$> seq 1 24) !! (N - 1) = Some (tilt_line preset N)).
    { rewrite list_lookup_fmap, lookup_seq_lt by lia. cbn. do 2 f_equal. lia. }
    rewrite <- Ht in Hl. rewrite lookup_take_lt in Hl by lia.
    rewrite lookup_drop in Hl. replace (582 + N) with (583 + (N - 1)) by lia. exact Hl. }
  split; [now apply (emitted_counts preset L)|].
  now rewrite eq_preset_lines_drop_extra.
Qed.

(** The witness of C1: the sample preset, with two filters. *)
Lemma emitted_bands_and_tilt_lines_witness :
  (forall fmt, exists L,
      @eq_preset_lines (ideal fmt) (with_metadata sample_preset "" "") = Ok L)
  /\ (forall fmt L,
        @eq_preset_lines (ideal fmt) (with_metadata sample_preset "" "") = Ok L ->
        length L = 608
        /\ L !! 584 = Some "Band 2 Spectral Tilt=1"
        /\ L !! 585 = Some "Band 3 Spectral Tilt=0"
        /\ length (List.filter is_tilt_line L) = 24).
Proof.
  split; [intros fmt; apply sample_emits|].
  intros fmt L HL.
  destruct (emitted_bands_and_tilt_lines _ L HL) as (Hlen & _ & _ & Htilt & Hcount & _).
  split; [exact Hlen|].
  split; [apply (Htilt 2); lia|]. split; [apply (Htilt 3); lia | exact Hcount].
Defined.

(** C2.  The filters of the parsed preset are those of the matching lines
    in the order of the lines, and the block of band N, for N up to the
    number of filters and 24, is written from the N-th of them: its
    Enabled, Frequency, Gain, Q and Shape lines hold the values of that
    filter.  The number written after [Filter] plays no part: two lines
    that differ only in it contribute the same record. *)
Theorem band_follows_scan_order {F : PyFloat} (text a t : string) (preset : EQPreset F)
    (L : list string) (N : nat) :
  parse_text_preset text = Ok preset ->
  eq_preset_lines (with_metadata preset a t) = Ok L ->
  1 <= N <= Nat.min (length (filters preset)) 24 ->
  filters preset = omap filter_of_line (split_newline (strip text))
  /\ (exists filt fr qv,
        filters preset !! (N - 1) = Some filt
        /\ frequency_to_proq4 (frequency filt) = Ok fr
        /\ q_to_proq4 (q filt) (filter_type filt) = Ok qv
        /\ band_block L N = block_lines N (filter_band_params N filt fr qv)
        /\ band_key N "Enabled" +:+ "=" +:+ (if enabled filt then "1" else "0") ∈ band_block L N
        /\ band_key N "Frequency" +:+ "=" +:+ float_str fr ∈ band_block L N
        /\ band_key N "Gain" +:+ "=" +:+ float_str (gain filt) ∈ band_block L N
        /\ band_key N "Q" +:+ "=" +:+ float_str qv ∈ band_block L N
        /\ band_key N "Shape" +:+ "=" +:+ str_int (filter_type_to_shape (filter_type filt))
             ∈ band_block L N)
  /\ (forall n1 n2 rest,
        n1 <> "" -> all_digits n1 = true -> n2 <> "" -> all_digits n2 = true ->
        @filter_of_line F ("Filter " +:+ n1 +:+ ":" +:+ rest)
        = @filter_of_line F ("Filter " +:+ n2 +:+ ":" +:+ rest)).
Proof.
  intros Hp HL HN. split.
  { rewrite parse_text_preset_spec in Hp. apply Ok_inj in Hp. now subst preset. }
  split; [|intros n1 n2 rest; apply filter_number_irrelevant].
  destruct (filters preset !! (N - 1)) as [filt|] eqn:Hf.
  2:{ apply lookup_ge_None in Hf. lia. }
  destruct (emitted_used_band (with_metadata preset a t) L N filt HL) as (fr & qv & Hfr & Hq & _ & Hb);
    [lia | exact Hf |].
  exists filt, fr, qv. split; [reflexivity|]. split; [exact Hfr|]. split; [exact Hq|].
  split; [exact Hb|]. rewrite Hb.
  pose proof (filter_band_lines N filt fr qv) as H. cbv zeta in H.
  destruct H as (_ & H2 & H3 & H4 & H5 & H6). auto.
Qed.

(** The witness of C2: the second filter of the sample, an OFF low shelf
    written as [Filter 2], fills band 2. *)
Lemma band_follows_scan_order_witness :
  (forall fmt, @parse_text_preset (ideal fmt) sample_text = Ok sample_preset)
  /\ (forall fmt, exists L,
        @eq_preset_lines (ideal fmt) (with_metadata sample_preset "" "") = Ok L)
  /\ 1 <= 2 <= Nat.min (length (filters (@sample_preset (ideal (fun _ => ""))))) 24
  /\ (forall fmt L,
        @eq_preset_lines (ideal fmt) (with_metadata sample_preset "" "") = Ok L ->
        band_key 2 "Enabled" +:+ "=0" ∈ band_block L 2
        /\ band_key 2 "Shape" +:+ "=1" ∈ band_block L 2).
Proof.
  split; [intros fmt; apply parse_sample_text|].
  split; [intros fmt; apply sample_emits|].
  split; [cbn; lia|].
  intros fmt L HL.
  destruct (band_follows_scan_order sample_text "" "" sample_preset L 2 parse_sample_text HL)
    as (_ & (filt & fr & qv & Hf & _ & _ & _ & Hen & _ & _ & _ & Hsh) & _).
  { cbn. lia. }
  cbn in Hf. apply (inj Some) in Hf. subst filt. split; [exact Hen | exact Hsh].
Defined.

(** C3.  On the ideal platform [q_to_proq4] clamps Q to [0.025, 40] and
    answers the logarithmic normalisation of the clamped value, a number
    between 0 and 1; it is non-decreasing in Q, is 0 at 0.025 and below,
    1 at 40 and above.  On binary64, with any C library, a Q below the
    double 0.025 or above the double 40.0 gives what the bound gives, and
    the bounds give a zero and 1.0 when the logarithms of the bounds are a
    finite distance apart.  On binary64, with a C library whose [log] is
    finite and does not decrease on the finite positive doubles and whose
    logarithms of the two bounds are a finite non-zero distance apart,
    [q_to_proq4] answers for every double: the clamped Q lies between the
    doubles 0.025 and 40.0, the answer is the rounded quotient of the
    rounded differences of line 77, it lies between 0.0 and 1.0, and it
    does not decrease when Q grows.  On every platform the filter type is
    not looked at. *)
Theorem q_to_proq4_log_normalization (fmt : R -> string) :
  (forall (q : R) t,
     @q_to_proq4 (ideal fmt) q t
     = Ok ((ln (Rmax 0.025 (Rmin 40 q)) - ln 0.025) / (ln 40 - ln 0.025))%R)
  /\ (forall q : R, 0.025 <= Rmax 0.025 (Rmin 40 q) <= 40)%R
  /\ (forall (q : R) t, exists v : R,
        @q_to_proq4 (ideal fmt) q t = Ok v /\ (0 <= v <= 1)%R)
  /\ (forall (q1 q2 : R) t (v1 v2 : R),
        (q1 <= q2)%R ->
        @q_to_proq4 (ideal fmt) q1 t = Ok v1 ->
        @q_to_proq4 (ideal fmt) q2 t = Ok v2 -> (v1 <= v2)%R)
  /\ (forall t, @q_to_proq4 (ideal fmt) 0.025%R t = Ok 0%R)
  /\ (forall t, @q_to_proq4 (ideal fmt) 40%R t = Ok 1%R)
  /\ (forall (q : R) t, (q <= 0.025)%R ->
        @q_to_proq4 (ideal fmt) q t = @q_to_proq4 (ideal fmt) 0.025%R t)
  /\ (forall (q : R) t, (40 <= q)%R ->
        @q_to_proq4 (ideal fmt) q t = @q_to_proq4 (ideal fmt) 40%R t)
  /\ (forall libm,
        float_str (@Q_MIN (binary64 libm)) = "0.025"
        /\ float_str (@Q_MAX (binary64 libm)) = "40.0")
  /\ (forall libm (q : PrimFloat.float) t,
        PrimFloat.ltb q (@Q_MIN (binary64 libm)) = true ->
        @q_to_proq4 (binary64 libm) q t = @q_to_proq4 (binary64 libm) Q_MIN t)
  /\ (forall libm (q : PrimFloat.float) t,
        PrimFloat.ltb (@Q_MAX (binary64 libm)) q = true ->
        @q_to_proq4 (binary64 libm) q t = @q_to_proq4 (binary64 libm) Q_MAX t)
  /\ (forall libm t lo hi,
        @math_log (binary64 libm) Q_MIN = Ok lo ->
        @math_log (binary64 libm) Q_MAX = Ok hi ->
        PrimFloat.is_finite (PrimFloat.sub hi lo) = true ->
        PrimFloat.is_zero (PrimFloat.sub hi lo) = false ->
        (exists z, @q_to_proq4 (binary64 libm) Q_MIN t = Ok z
                   /\ PrimFloat.eqb z PrimFloat.zero = true)
        /\ @q_to_proq4 (binary64 libm) Q_MAX t = Ok 1%float)
  /\ (forall (F : PyFloat) (q : float) t t', q_to_proq4 q t = q_to_proq4 q t')
  /\ (forall libm,
        finite_log libm -> monotone_log libm ->
        PrimFloat.is_finite
          (PrimFloat.sub (Binary64.libm_log libm (@Q_MAX (binary64 libm)))
                         (Binary64.libm_log libm (@Q_MIN (binary64 libm)))) = true ->
        PrimFloat.is_zero
          (PrimFloat.sub (Binary64.libm_log libm (@Q_MAX (binary64 libm)))
                         (Binary64.libm_log libm (@Q_MIN (binary64 libm)))) = false ->
        (forall (q : PrimFloat.float) t,
           PrimFloat.leb (@Q_MIN (binary64 libm)) (@clamped (binary64 libm) q) = true
           /\ PrimFloat.leb (@clamped (binary64 libm) q) (@Q_MAX (binary64 libm)) = true
           /\ exists v : PrimFloat.float,
                @q_to_proq4 (binary64 libm) q t = Ok v
                /\ v = PrimFloat.div
                         (PrimFloat.sub (Binary64.libm_log libm (@clamped (binary64 libm) q))
                                        (Binary64.libm_log libm (@Q_MIN (binary64 libm))))
                         (PrimFloat.sub (Binary64.libm_log libm (@Q_MAX (binary64 libm)))
                                        (Binary64.libm_log libm (@Q_MIN (binary64 libm))))
                /\ PrimFloat.leb 0 v = true /\ PrimFloat.leb v 1 = true)
        /\ (forall (q1 q2 : PrimFloat.float) t (v1 v2 : PrimFloat.float),
              PrimFloat.leb q1 q2 = true ->
              @q_to_proq4 (binary64 libm) q1 t = Ok v1 ->
              @q_to_proq4 (binary64 libm) q2 t = Ok v2 ->
              PrimFloat.leb v1 v2 = true)).
Proof.
  pose proof ln_span_pos as Hspan.
  assert (Hnorm : forall c : R, (0.025 <= c <= 40)%R ->
            (0 <= (ln c - ln 0.025) / (ln 40 - ln 0.025) <= 1)%R).
  { intros c [Hlo Hhi].
    assert (ln 0.025 <= ln c)%R by (apply ln_le_mono; lra).
    assert (ln c <= ln 40)%R by (apply ln_le_mono; lra).
    split.
    - apply Rmult_le_pos; [lra|]. left. now apply Rinv_0_lt_compat.
    - apply Rmult_le_reg_r with (ln 40 - ln 0.025)%R; [lra|].
      unfold Rdiv. rewrite Rmult_assoc, Rinv_l by lra. lra. }
  split; [intros q t; apply ideal_q_to_proq4|].
  split; [intros q; apply clamp_q_range|].
  split.
  { intros q t. eexists. split; [apply ideal_q_to_proq4|].
    apply Hnorm, clamp_q_range. }
  split.
  { intros q1 q2 t v1 v2 Hle H1 H2.
    rewrite ideal_q_to_proq4 in H1, H2. apply Ok_inj in H1, H2. subst v1 v2.
    pose proof (clamp_q_range q1). pose proof (clamp_q_mono q1 q2 Hle).
    assert (ln (clamp_q q1) <= ln (clamp_q q2))%R by (apply ln_le_mono; lra).
    apply Rmult_le_compat_r; [|lra]. left. now apply Rinv_0_lt_compat. }
  assert (Hlow : forall (q : R) t, (q <= 0.025)%R -> @q_to_proq4 (ideal fmt) q t = Ok 0%R).
  { intros q t Hq. rewrite ideal_q_to_proq4. f_equal.
    replace (clamp_q q) with 0.025%R.
    - unfold Rdiv. rewrite Rminus_diag. apply Rmult_0_l.
    - unfold clamp_q, Rmax, Rmin. repeat (destruct (Rle_dec _ _)); lra. }
  assert (Hhigh : forall (q : R) t, (40 <= q)%R -> @q_to_proq4 (ideal fmt) q t = Ok 1%R).
  { intros q t Hq. rewrite ideal_q_to_proq4. f_equal.
    replace (clamp_q q) with 40%R.
    - unfold Rdiv. apply Rinv_r. lra.
    - unfold clamp_q, Rmax, Rmin. repeat (destruct (Rle_dec _ _)); lra. }
  split; [intros t; apply Hlow; lra|].
  split; [intros t; apply Hhigh; lra|].
  split; [intros q t Hq; rewrite !Hlow by lra; reflexivity|].
  split; [intros q t Hq; rewrite !Hhigh by lra; reflexivity|].
  split; [intros libm; split; vm_compute; reflexivity|].
  split; [intros libm q t; apply binary64_q_below|].
  split; [intros libm q t; apply binary64_q_above|].
  split; [intros libm t lo hi; apply binary64_q_boundaries|].
  split; [intros F q t t'; reflexivity|].
  intros libm Hfin Hmono Hsp Hnz. split.
  - intros q t. destruct (binary64_clamped_finite libm q) as (_ & _ & Hlo & Hhi).
    split; [exact Hlo|]. split; [exact Hhi|].
    destruct (binary64_q_range libm Hfin Hmono Hsp Hnz q t) as (v & Hv & H0 & H1).
    exists v. split; [exact Hv|]. split; [|split; assumption].
    rewrite (binary64_q_value libm Hfin Hnz) in Hv. apply Ok_inj in Hv. now symmetry.
  - intros q1 q2 t v1 v2. apply (binary64_q_monotone libm Hfin Hmono Hsp Hnz).
Qed.

(** The witness of C3: a Q below the range, two inside it and one above;
    on binary64 with the stand-in C library, the doubles 100.0 and 40.0,
    and the doubles 0.5 and 1.0 in their order. *)
Lemma q_to_proq4_log_normalization_witness :
  (0.01 <= 0.025)%R /\ (0.7 <= 1)%R /\ (40 <= 100)%R
  /\ (forall fmt,
        @q_to_proq4 (ideal fmt) 0.01%R "PK" = Ok 0%R
        /\ @q_to_proq4 (ideal fmt) 100%R "PK" = Ok 1%R
        /\ exists v1 v2 : R,
             @q_to_proq4 (ideal fmt) 0.7%R "PK" = Ok v1
             /\ @q_to_proq4 (ideal fmt) 1%R "LSC" = Ok v2 /\ (v1 <= v2)%R)
  /\ @q_to_proq4 (binary64 table_libm) 100%float "PK" = Ok 1%float
  /\ finite_log table_libm /\ monotone_log table_libm
  /\ (exists v1 v2 : PrimFloat.float,
        @q_to_proq4 (binary64 table_libm) 0.5%float "PK" = Ok v1
        /\ @q_to_proq4 (binary64 table_libm) 1%float "LSC" = Ok v2
        /\ PrimFloat.leb 0 v1 = true /\ PrimFloat.leb v1 v2 = true
        /\ PrimFloat.leb v2 1 = true).
Proof.
  split; [lra|]. split; [lra|]. split; [lra|].
  destruct (q_to_proq4_log_normalization (fun _ => ""))
    as (_ & _ & _ & _ & _ & _ & _ & _ & _ & _ & Hover & Hends & _ & Hdoubles).
  assert (Hfin : finite_log table_libm) by (intros x Hf _; exact Hf).
  assert (Hml : monotone_log table_libm) by (intros x y _ _ _ Hle; exact Hle).
  split.
  - intros fmt.
    destruct (q_to_proq4_log_normalization fmt)
      as (Hval & _ & _ & Hmono & Hlo & Hhi & Hbelow & Habove & _).
    split; [rewrite Hbelow by lra; apply Hlo|].
    split; [rewrite Habove by lra; apply Hhi|].
    eexists _, _. split; [apply Hval|]. split; [apply Hval|].
    apply (Hmono 0.7%R 1%R "PK"); [lra | apply Hval |].
    rewrite (Hval 1%R "PK"). reflexivity.
  - split.
    { rewrite (Hover table_libm 100%float "PK") by reflexivity.
      apply (Hends table_libm "PK" (@Q_MIN (binary64 table_libm)) (@Q_MAX (binary64 table_libm)));
        reflexivity. }
    split; [exact Hfin|]. split; [exact Hml|].
    destruct (Hdoubles table_libm Hfin Hml eq_refl eq_refl) as [Hrange Horder].
    destruct (Hrange 0.5%float "PK") as (_ & _ & v1 & E1 & _ & H01 & _).
    destruct (Hrange 1%float "LSC") as (_ & _ & v2 & E2 & _ & _ & H12).
    exists v1, v2. split; [exact E1|]. split; [exact E2|]. split; [exact H01|].
    split; [|exact H12].
    apply (Horder 0.5%float 1%float "PK" v1 v2 eq_refl E1).
    rewrite <- E2. reflexivity.
Defined.

(** C4 (as amended).  In exact arithmetic, on the ideal platform,
    [frequency_to_proq4] is the logarithm to base 2 of a positive
    frequency: strictly increasing, and one more for twice the frequency. *)
Theorem frequency_to_proq4_octaves (fmt : R -> string) :
  (forall f : R, (0 < f)%R -> @frequency_to_proq4 (ideal fmt) f = Ok (ln f / ln 2)%R)
  /\ (forall (f g a b : R), (0 < f)%R -> (f < g)%R ->
        @frequency_to_proq4 (ideal fmt) f = Ok a ->
        @frequency_to_proq4 (ideal fmt) g = Ok b -> (a < b)%R)
  /\ (forall (f a : R), (0 < f)%R ->
        @frequency_to_proq4 (ideal fmt) f = Ok a ->
        @frequency_to_proq4 (ideal fmt) (2 * f)%R = Ok (a + 1)%R).
Proof.
  pose proof ln2_pos as H2.
  split; [intros f Hf; now apply ideal_frequency_pos|].
  split.
  - intros f g a b Hf Hfg Ha Hb.
    rewrite ideal_frequency_pos in Ha, Hb by lra. apply Ok_inj in Ha, Hb. subst a b.
    apply Rmult_lt_compat_r; [now apply Rinv_0_lt_compat|].
    now apply ln_increasing.
  - intros f a Hf Ha.
    rewrite ideal_frequency_pos in Ha by lra. apply Ok_inj in Ha. subst a.
    rewrite ideal_frequency_pos by lra. f_equal.
    rewrite ln_mult by lra. field. lra.
Qed.

(** The witness of C4: 440 Hz and its octave. *)
Lemma frequency_to_proq4_octaves_witness :
  (0 < 440)%R /\ (440 < 880)%R
  /\ (forall fmt, exists a : R,
        @frequency_to_proq4 (ideal fmt) 440%R = Ok a
        /\ @frequency_to_proq4 (ideal fmt) (2 * 440)%R = Ok (a + 1)%R).
Proof.
  split; [lra|]. split; [lra|]. intros fmt.
  destruct (frequency_to_proq4_octaves fmt) as (Hval & _ & Hoct).
  exists (ln 440 / ln 2)%R. split.
  - apply Hval. lra.
  - apply Hoct; [lra|]. apply Hval. lra.
Defined.

(** C4 as stated fails on binary64, where floats are doubles: twice the
    float 2^1023 is infinite and the logarithm of infinity is infinity,
    which is not one more than 1023.  This holds with every C library
    whose [log2] is exact at 2^1023. *)
Lemma doubling_overflows_at_2_pow_1023 :
  PrimFloat.ltb 0 0x1p+1023 = true
  /\ ~ (exists libm a,
          Binary64.libm_log2 libm 0x1p+1023%float = 1023%float
          /\ @frequency_to_proq4 (binary64 libm) 0x1p+1023%float = Ok a
          /\ @frequency_to_proq4 (binary64 libm) (PrimFloat.mul 2 0x1p+1023)
             = Ok (PrimFloat.add a 1)).
Proof.
  split; [reflexivity|].
  intros (libm & a & Hexact & Ha & Hb).
  unfold frequency_to_proq4 in Ha, Hb. cbn [math_log2 binary64] in Ha, Hb.
  unfold Binary64.checked_log in Ha.
  change (PrimFloat.is_finite 0x1p+1023) with true in Ha.
  change (PrimFloat.ltb PrimFloat.zero 0x1p+1023) with true in Ha.
  cbv iota zeta in Ha. rewrite Hexact in Ha.
  change (PrimFloat.is_nan 1023 || PrimFloat.is_infinity 1023) with false in Ha.
  cbv iota in Ha. apply Ok_inj in Ha. subst a.
  vm_compute in Hb. discriminate Hb.
Qed.

(** C5 (as amended).  A frequency that is zero or negative makes
    [frequency_to_proq4] raise [ValueError], on the ideal platform and on
    binary64 with any C library.  On every platform, when the frequency of
    one of the first 24 filters of an input cannot be transformed, the
    conversion of that input raises and returns no files; on the ideal
    platform what it raises is the [ValueError] of the transform. *)
Theorem nonpositive_frequency_aborts :
  (forall fmt (x : R), (x <= 0)%R -> @frequency_to_proq4 (ideal fmt) x = Raise ValueError)
  /\ (forall libm x, PrimFloat.leb x PrimFloat.zero = true ->
        @frequency_to_proq4 (binary64 libm) x = Raise ValueError)
  /\ (forall (F : PyFloat) text out a t files (preset : EQPreset F) j filt e,
        parse_text_preset text = Ok preset ->
        j < 24 -> filters preset !! j = Some filt ->
        frequency_to_proq4 (frequency filt) = Raise e ->
        exists e', convert_text_to_ffp text out a t files = Raise e')
  /\ (forall fmt text out a t files (preset : EQPreset (ideal fmt)) j filt,
        @parse_text_preset (ideal fmt) text = Ok preset ->
        j < 24 -> filters preset !! j = Some filt -> (frequency filt <= 0)%R ->
        @convert_text_to_ffp (ideal fmt) text out a t files = Raise ValueError).
Proof.
  split; [intros fmt x Hx; now apply ideal_math_log2_nonpos|].
  split; [intros libm x Hx; now apply binary64_checked_log_nonpositive|].
  split.
  { intros F text out a t files preset j filt e Hp Hj Hf He.
    rewrite convert_text_to_ffp_spec, Hp. cbn [mbind pyresult_bind].
    destruct (failing_band_raises (with_metadata preset a t) j filt e Hj Hf He) as [e' ->].
    eauto. }
  intros fmt text out a t files preset j filt Hp Hj Hf Hx.
  rewrite convert_text_to_ffp_spec, Hp. cbn [mbind pyresult_bind].
  rewrite (ideal_raises fmt (with_metadata preset a t) j filt Hj Hf Hx). reflexivity.
Qed.

(** The witness of C5: an input whose only filter is at 0 Hz. *)
Lemma nonpositive_frequency_aborts_witness :
  (0 <= 0)%R
  /\ (forall fmt,
        @convert_text_to_ffp (ideal fmt) silent_text "out.ffp" "" "" ∅ = Raise ValueError)
  /\ (forall libm, exists e,
        @convert_text_to_ffp (binary64 libm) silent_text "out.ffp" "" "" ∅ = Raise e).
Proof.
  destruct nonpositive_frequency_aborts as (_ & Hzero & Hany & Hideal).
  split; [lra|]. split.
  - intros fmt.
    apply (Hideal fmt silent_text "out.ffp" "" "" ∅ silent_preset 0 silent_filter).
    + apply parse_silent_text.
    + lia.
    + reflexivity.
    + cbn. unfold decimal_value. simpl. lra.
  - intros libm.
    apply (Hany (binary64 libm) silent_text "out.ffp" "" "" ∅ silent_preset 0 silent_filter
             ValueError).
    + apply parse_silent_text.
    + lia.
    + reflexivity.
    + apply Hzero. reflexivity.
Defined.

(** C5 as stated fails: a zero frequency in the 25th filter is not an
    error, the conversion writes its file. *)
Lemma zero_frequency_after_band_24_is_written :
  ~ (forall fmt text out a t files (preset : EQPreset (ideal fmt)) filt,
        @parse_text_preset (ideal fmt) text = Ok preset ->
        filt ∈ filters preset -> (frequency filt <= 0)%R ->
        @convert_text_to_ffp (ideal fmt) text out a t files = Raise ValueError).
Proof.
  intros H.
  destruct (ideal_emits (fun _ => "") (with_metadata crowded_preset "" "")) as [L HL].
  { intros j filt Hj Hf. now apply (crowded_frequencies_positive _ j). }
  pose proof (convert_of_parsed crowded_text crowded_preset "out.ffp" "" "" ∅ L
                parse_crowded_text HL) as Hok.
  rewrite (H (fun _ => "") crowded_text "out.ffp" "" "" ∅ crowded_preset
             (crowded_filter 0) parse_crowded_text) in Hok.
  - discriminate Hok.
  - unfold crowded_preset. cbn [filters]. apply elem_of_app. right.
    apply list_elem_of_singleton. reflexivity.
  - cbn. unfold decimal_value. simpl. lra.
Qed.

(** C6 (as amended).  The Output Level line holds the preamp divided by
    36, whatever its size: the real quotient on the ideal platform, the
    rounded quotient of the doubles on binary64.  For an input without a
    preamp line and without filters the line is [Output Level=0.0] on
    binary64. *)
Theorem output_level_is_preamp_over_36 {F : PyFloat} (preset : EQPreset F) (L : list string) :
  eq_preset_lines preset = Ok L ->
  (exists lvl, float_div (preamp preset) (float_of_decimal false 360 1) = Ok lvl
     /\ L !! 563 = Some ("Output Level=" +:+ float_str lvl)
     /\ "Output Level=" +:+ float_str lvl ∈ L)
  /\ (forall fmt (x : R), @preamp_to_output_level (ideal fmt) x = Ok (x / 36)%R)
  /\ (forall libm x, @preamp_to_output_level (binary64 libm) x = Ok (PrimFloat.div x 36%float))
  /\ (forall libm text a t,
        omap (@preamp_of_line (binary64 libm)) (split_newline (strip text)) = [] ->
        omap (@filter_of_line (binary64 libm)) (split_newline (strip text)) = [] ->
        exists p L0,
          @parse_text_preset (binary64 libm) text = Ok p
          /\ eq_preset_lines (with_metadata p a t) = Ok L0
          /\ L0 !! 563 = Some "Output Level=0.0"
          /\ "Output Level=0.0" ∈ L0).
Proof.
  intros HL. split.
  { destruct (emitted_output_level preset L HL) as (lvl & Hlvl & Hline).
    exists lvl. split; [exact Hlvl|]. split; [exact Hline|].
    now apply list_elem_of_lookup_2 in Hline. }
  split; [apply ideal_output_level|].
  split; [apply binary64_output_level|].
  intros libm text a t Hpre Hfil.
  destruct (binary64_empty_preset_lines libm a t) as (L0 & HL0 & Hline).
  exists empty_preset, L0. split; [now apply parse_unrecognised|].
  split; [exact HL0|]. split; [exact Hline|].
  now apply list_elem_of_lookup_2 in Hline.
Qed.

(** The witness of C6: the sample preset, whose preamp is -2.5 dB. *)
Lemma output_level_is_preamp_over_36_witness :
  (forall fmt, exists L,
      @eq_preset_lines (ideal fmt) (with_metadata sample_preset "" "") = Ok L)
  /\ (forall fmt L,
        @eq_preset_lines (ideal fmt) (with_metadata sample_preset "" "") = Ok L ->
        "Output Level=" +:+ fmt (decimal_value true 25 1 / 36)%R ∈ L).
Proof.
  split; [intros fmt; apply sample_emits|].
  intros fmt L HL.
  destruct (output_level_is_preamp_over_36 _ L HL) as ((lvl & Hlvl & _ & Hin) & Hideal & _).
  cbn [preamp with_metadata sample_preset] in Hlvl.
  change (float_div (float_of_decimal true 25 1) (float_of_decimal false 360 1))
    with (@preamp_to_output_level (ideal fmt) (decimal_value true 25 1)) in Hlvl.
  rewrite Hideal in Hlvl. apply Ok_inj in Hlvl. subst lvl. exact Hin.
Defined.

(** C6 as stated fails: the empty input has no preamp line and no filter,
    and on binary64 its Output Level line is [Output Level=0.0]; the line
    [Output Level=0] is not in the output. *)
Lemma output_level_of_empty_input_is_not_0 :
  (forall libm, @parse_text_preset (binary64 libm) "" = Ok empty_preset)
  /\ (forall libm, exists L,
        @eq_preset_lines (binary64 libm) empty_preset = Ok L
        /\ "Output Level=0.0" ∈ L /\ "Output Level=0" ∉ L).
Proof.
  split; [intros libm; apply parse_empty_text|].
  intros libm. eexists. split; [vm_compute; reflexivity|].
  split; [|apply (bool_decide_unpack _); vm_compute; exact I].
  apply (bool_decide_unpack _). vm_compute. exact I.
Qed.

(** C7 (as amended).  For every band index and both values of the flag,
    the default Frequency is the text 9.96578407287598, with gain 0, Q 0.5
    and shape 0. *)
Theorem default_band_frequency (N : nat) (used : bool) :
  let params := generate_default_band_params N used in
  params !! band_key N "Frequency" = Some "9.96578407287598"
  /\ params !! band_key N "Gain" = Some "0"
  /\ params !! band_key N "Q" = Some "0.5"
  /\ params !! band_key N "Shape" = Some "0".
Proof. cbv zeta. rewrite !lookup_default_field. destruct used; repeat split. Qed.

(** C7 as stated fails: the default Frequency of band 1 is not the text
    9.965784284662087, and the number it denotes is smaller than that one. *)
Lemma frequency_default_is_not_log2_of_1000 :
  generate_default_band_params 1 false !! band_key 1 "Frequency" = Some "9.96578407287598"
  /\ generate_default_band_params 1 false !! band_key 1 "Frequency"
       <> Some "9.965784284662087"
  /\ (decimal_value false 996578407287598 14 < decimal_value false 9965784284662087 15)%R.
Proof.
  assert (E : generate_default_band_params 1 false !! band_key 1 "Frequency"
              = Some "9.96578407287598").
  { rewrite lookup_default_field. reflexivity. }
  rewrite E. split; [reflexivity|]. split; [discriminate|].
  unfold decimal_value.
  apply Rmult_lt_reg_r with (10 ^ 15)%R; [apply pow_lt; lra|].
  replace (IZR (Z.of_N 996578407287598) / 10 ^ 14 * 10 ^ 15)%R
    with (IZR (Z.of_N 996578407287598) * 10)%R.
  2:{ change (10 ^ 15)%R with (10 * 10 ^ 14)%R. field. }
  replace (IZR (Z.of_N 9965784284662087) / 10 ^ 15 * 10 ^ 15)%R
    with (IZR (Z.of_N 9965784284662087)).
  2:{ field. }
  rewrite <- mult_IZR. apply IZR_lt. reflexivity.
Qed.

(** C8.  A band that has a filter gets the [used] default dict with the
    fields Used, Enabled, Frequency, Gain, Q and Shape assigned: every
    other key holds its [used] default, and the block that is written is
    this dict.  The [used] and [unused] default dicts differ in exactly
    four keys: Used, Threshold and the two side chain frequencies. *)
Theorem used_band_overwrites_six_fields {F : PyFloat} (preset : EQPreset F) (N : nat)
    (params : gmap string string) :
  1 <= N <= length (filters preset) ->
  band_params preset N = Ok params ->
  (forall k, k ∉ band_key N <$> overwritten_fields ->
     params !! k = generate_default_band_params N true !! k)
  /\ (forall f, f ∈ overwritten_fields -> is_Some (params !! band_key N f))
  /\ (forall L, N <= 24 -> eq_preset_lines preset = Ok L ->
        band_block L N = block_lines N params)
  /\ (forall M k,
        generate_default_band_params M true !! k <> generate_default_band_params M false !! k
        <-> k ∈ band_key M <$> flag_dependent_fields).
Proof.
  intros HN Hp. pose proof Hp as Hp'.
  apply band_params_spec in Hp
    as [(filt & fr & qv & _ & Hf & Hfr & Hq & ->)|[Hlt _]]; [|lia].
  split; [intros k Hk; now apply used_band_params_frame|].
  split.
  { intros f Hf'. unfold overwritten_fields in Hf'.
    pose proof (used_band_params_lookup N (if enabled filt then "1" else "0")
      (float_str fr) (float_str (gain filt)) (float_str qv)
      (str_int (filter_type_to_shape (filter_type filt)))) as H.
    cbv zeta in H. destruct H as (H1 & H2 & H3 & H4 & H5 & H6).
    repeat (apply elem_of_cons in Hf' as [->|Hf']; [eauto|]).
    now apply elem_of_nil in Hf'. }
  split.
  { intros L HN' HL.
    destruct (emitted_band_block preset L N HL) as (params' & Hp'' & Hb); [lia|].
    rewrite Hp' in Hp''. apply Ok_inj in Hp''. now subst. }
  apply default_sets_differ.
Qed.

(** The witness of C8: band 1 of the sample preset. *)
Lemma used_band_overwrites_six_fields_witness :
  1 <= 1 <= length (filters (@sample_preset (ideal (fun _ => ""))))
  /\ (forall fmt, exists params, @band_params (ideal fmt) sample_preset 1 = Ok params)
  /\ (forall fmt params,
        @band_params (ideal fmt) sample_preset 1 = Ok params ->
        params !! band_key 1 "Threshold" = Some "1"
        /\ params !! band_key 1 "Slope" = Some "2").
Proof.
  split; [cbn; lia|].
  assert (Hex : forall fmt, exists params, @band_params (ideal fmt) sample_preset 1 = Ok params).
  { intros fmt. pose proof (ideal_band_params fmt sample_preset 1 ltac:(lia)) as H.
    cbn [filters sample_preset lookup list_lookup Nat.sub] in H.
    change (1 <=? length _)%nat with true in H. cbv iota in H.
    destruct (decide _) as [|Hn]; [exact H|].
    exfalso. apply Hn. cbn. unfold decimal_value. simpl. lra. }
  split; [exact Hex|].
  intros fmt params Hp.
  destruct (@used_band_overwrites_six_fields (ideal fmt) sample_preset 1 params)
    as (Hframe & _);
    [cbn; lia | exact Hp |].
  rewrite !Hframe by (apply (bool_decide_unpack _); vm_compute; exact I).
  rewrite !lookup_default_field. split; reflexivity.
Defined.

(** C9.  A filter that is OFF still has its band written from its values:
    the block of band N holds Enabled=0 next to the transformed frequency
    and Q, the gain and the shape of the filter.  The shape is 0, 1, 2, 3,
    4 for PK, LSC, LP, HSC, HP and 0 for any other type. *)
Theorem disabled_filter_band {F : PyFloat} (preset : EQPreset F) (L : list string)
    (N : nat) (filt : Filter F) :
  eq_preset_lines preset = Ok L ->
  1 <= N <= 24 ->
  filters preset !! (N - 1) = Some filt ->
  enabled filt = false ->
  (exists fr qv,
      frequency_to_proq4 (frequency filt) = Ok fr
      /\ q_to_proq4 (q filt) (filter_type filt) = Ok qv
      /\ band_key N "Enabled" +:+ "=0" ∈ band_block L N
      /\ band_key N "Frequency" +:+ "=" +:+ float_str fr ∈ band_block L N
      /\ band_key N "Gain" +:+ "=" +:+ float_str (gain filt) ∈ band_block L N
      /\ band_key N "Q" +:+ "=" +:+ float_str qv ∈ band_block L N
      /\ band_key N "Shape" +:+ "=" +:+ str_int (filter_type_to_shape (filter_type filt))
           ∈ band_block L N)
  /\ filter_type_to_shape "PK" = 0 /\ filter_type_to_shape "LSC" = 1
  /\ filter_type_to_shape "LP" = 2 /\ filter_type_to_shape "HSC" = 3
  /\ filter_type_to_shape "HP" = 4
  /\ (forall t, t ∉ ["PK"; "LSC"; "LP"; "HSC"; "HP"] -> filter_type_to_shape t = 0).
Proof.
  intros HL HN Hf Hoff. split.
  - destruct (emitted_used_band preset L N filt HL HN Hf) as (fr & qv & Hfr & Hq & _ & ->).
    exists fr, qv. split; [exact Hfr|]. split; [exact Hq|].
    unfold filter_band_params. rewrite Hoff.
    pose proof (used_band_params_lookup N "0"
      (float_str fr) (float_str (gain filt)) (float_str qv)
      (str_int (filter_type_to_shape (filter_type filt)))) as H.
    cbv zeta in H. destruct H as (_ & H2 & H3 & H4 & H5 & H6).
    assert (Hin : Forall (fun f => f ∈ band_fields) overwritten_fields) by compute_done.
    rewrite Forall_forall in Hin.
    split; [apply (block_lines_elem N _ "Enabled" "0"); [apply Hin; compute_done | exact H2]|].
    split; [apply block_lines_elem; [apply Hin; compute_done | exact H3]|].
    split; [apply block_lines_elem; [apply Hin; compute_done | exact H4]|].
    split; [apply block_lines_elem; [apply Hin; compute_done | exact H5]|].
    apply block_lines_elem; [apply Hin; compute_done | exact H6].
  - do 5 (split; [reflexivity|]).
    intros t Ht. unfold filter_type_to_shape, shape_mapping.
    rewrite (not_elem_of_list_to_map_1 _ t); [reflexivity|].
    exact Ht.
Qed.

(** The witness of C9: the OFF filter of the sample preset, in band 2. *)
Lemma disabled_filter_band_witness :
  1 <= 2 <= 24
  /\ (forall fmt, exists L,
        @eq_preset_lines (ideal fmt) (with_metadata sample_preset "" "") = Ok L)
  /\ (forall fmt L,
        @eq_preset_lines (ideal fmt) (with_metadata sample_preset "" "") = Ok L ->
        band_key 2 "Enabled" +:+ "=0" ∈ band_block L 2
        /\ band_key 2 "Gain" +:+ "=" +:+ fmt (decimal_value true 82 1) ∈ band_block L 2
        /\ band_key 2 "Shape" +:+ "=1" ∈ band_block L 2).
Proof.
  split; [lia|]. split; [intros fmt; apply sample_emits|].
  intros fmt L HL.
  destruct (disabled_filter_band (with_metadata sample_preset "" "") L 2
              {| enabled := false; filter_type := "LSC";
                 frequency := float_of_decimal false 105 0;
                 gain := float_of_decimal true 82 1;
                 q := float_of_decimal false 70 2 |} HL)
    as ((fr & qv & _ & _ & Hen & _ & Hga & _ & Hsh) & _); [lia | reflexivity | reflexivity |].
  split; [exact Hen|]. split; [exact Hga | exact Hsh].
Defined.

(** C10.  The parser never raises: every input has a preset, whose filters
    are what the lines contribute one by one, each with numbers read from
    numerals of the pattern; a line that contributes nothing leaves the
    state as it is.  The frequency and Q of every parsed filter are not
    negative, on the ideal platform and on binary64, so the frequency
    transform can fail on a parsed frequency only when it is exactly 0,
    which does occur (on binary64: unless the C library answers [nan] or
    an infinity for a positive finite double); a gain can be negative. *)
Theorem parse_text_preset_total :
  (forall (F : PyFloat) text, exists preset,
      @parse_text_preset F text = Ok preset
      /\ filters preset = omap filter_of_line (split_newline (strip text))
      /\ Forall parsed_filter (filters preset))
  /\ (forall (F : PyFloat) (st : parse_state) line,
        @preamp_of_line F line = None -> @filter_of_line F line = None ->
        parse_line st line = Ok st)
  /\ (forall fmt text (preset : EQPreset (ideal fmt)) filt,
        @parse_text_preset (ideal fmt) text = Ok preset -> filt ∈ filters preset ->
        (0 <= frequency filt)%R /\ (0 <= q filt)%R
        /\ (forall e, frequency_to_proq4 (frequency filt) = Raise e ->
              frequency filt = 0%R))
  /\ (forall libm text (preset : EQPreset (binary64 libm)) filt,
        @parse_text_preset (binary64 libm) text = Ok preset -> filt ∈ filters preset ->
        PrimFloat.leb PrimFloat.zero (frequency filt) = true
        /\ PrimFloat.leb PrimFloat.zero (q filt) = true
        /\ (forall e, frequency_to_proq4 (frequency filt) = Raise e ->
              PrimFloat.eqb (frequency filt) PrimFloat.zero = true
              \/ (PrimFloat.ltb PrimFloat.zero (frequency filt) = true
                  /\ PrimFloat.is_nan (Binary64.libm_log2 libm (frequency filt))
                     || PrimFloat.is_infinity (Binary64.libm_log2 libm (frequency filt))
                     = true)))
  /\ (forall fmt,
        @parse_text_preset (ideal fmt) silent_text = Ok silent_preset
        /\ filters (@silent_preset (ideal fmt)) = [silent_filter]
        /\ (gain (@silent_filter (ideal fmt)) < 0)%R
        /\ frequency (@silent_filter (ideal fmt)) = 0%R
        /\ frequency_to_proq4 (frequency (@silent_filter (ideal fmt))) = Raise ValueError).
Proof.
  split.
  { intros F text. eexists. split; [apply parse_text_preset_spec|]. cbn [filters].
    split; [reflexivity|]. apply Forall_forall. intros filt Hf.
    apply list_elem_of_omap in Hf as (line & _ & Hline).
    now apply filter_of_line_parsed with line. }
  split.
  { intros F [pre fs] line Hpre Hfil. rewrite parse_line_spec, Hpre, Hfil.
    cbn. now rewrite app_nil_r. }
  split.
  { intros fmt text preset filt Hp Hf.
    rewrite parse_text_preset_spec in Hp. apply Ok_inj in Hp. subst preset.
    cbn [filters] in Hf. apply list_elem_of_omap in Hf as (line & _ & Hline).
    apply filter_of_line_parsed in Hline as ((m & k & Hfr) & _ & (m' & k' & Hq)).
    assert (Hfr0 : (0 <= frequency filt)%R) by (rewrite Hfr; apply decimal_value_nonneg).
    split; [exact Hfr0|]. split; [rewrite Hq; apply decimal_value_nonneg|].
    intros e He. destruct (Rle_lt_or_eq_dec _ _ Hfr0) as [Hpos|Heq]; [|now symmetry].
    unfold frequency_to_proq4 in He. rewrite ideal_math_log2_pos in He by exact Hpos.
    discriminate. }
  split.
  { intros libm text preset filt Hp Hf.
    rewrite parse_text_preset_spec in Hp. apply Ok_inj in Hp. subst preset.
    cbn [filters] in Hf. apply list_elem_of_omap in Hf as (line & _ & Hline).
    apply filter_of_line_parsed in Hline as ((m & k & Hfr) & _ & (m' & k' & Hq)).
    assert (Hfr0 : PrimFloat.leb PrimFloat.zero (frequency filt) = true)
      by (rewrite Hfr; apply binary64_of_decimal_nonneg).
    split; [exact Hfr0|]. split; [rewrite Hq; apply binary64_of_decimal_nonneg|].
    intros e He. now apply binary64_frequency_raises with e. }
  intros fmt. split; [apply parse_silent_text|]. split; [reflexivity|].
  cbn [gain frequency silent_filter]. unfold frequency_to_proq4.
  change (@float_of_decimal (ideal fmt)) with decimal_value.
  assert (E : decimal_value false 0 0 = 0%R) by (unfold decimal_value; simpl; lra).
  rewrite E. split; [unfold decimal_value; simpl; lra|]. split; [reflexivity|].
  apply ideal_math_log2_nonpos. lra.
Qed.

(** The witness of C10: the sample input. *)
Lemma parse_text_preset_total_witness :
  (forall fmt, @parse_text_preset (ideal fmt) sample_text = Ok sample_preset)
  /\ (forall fmt filt, filt ∈ filters (@sample_preset (ideal fmt)) ->
        (0 <= frequency filt)%R /\ (0 <= q filt)%R).
Proof.
  split; [intros fmt; apply parse_sample_text|].
  intros fmt filt Hf.
  destruct parse_text_preset_total as (_ & _ & Hsign & _ & _).
  destruct (Hsign fmt sample_text sample_preset filt parse_sample_text Hf) as (H1 & H2 & _).
  split; assumption.
Defined.

(** * Further properties of the code *)

(** X1.  A filter on IEEE doubles, written out.  When the emitter succeeds
    and filter N of the first 24 has a finite frequency, that frequency is
    positive and the output holds for band N: Used=1, the Enabled flag of
    the filter, the [repr] of the C library's [log2] of the frequency, the
    [repr] of the gain as it was parsed, the [repr] of the transformed Q,
    and the shape code.  The Output Level line holds the [repr] of
    preamp / 36. *)
Theorem binary64_band_lines (libm : Binary64.Libm) (preset : EQPreset (binary64 libm))
    (L : list string) (N : nat) (filt : Filter (binary64 libm)) :
  eq_preset_lines preset = Ok L -> 1 <= N <= 24 ->
  filters preset !! (N - 1) = Some filt ->
  PrimFloat.is_finite (frequency filt) = true ->
  PrimFloat.ltb PrimFloat.zero (frequency filt) = true
  /\ band_key N "Used" +:+ "=1" ∈ L
  /\ band_key N "Enabled" +:+ "=" +:+ (if enabled filt then "1" else "0") ∈ L
  /\ band_key N "Frequency" +:+ "="
       +:+ Binary64.repr (Binary64.libm_log2 libm (frequency filt)) ∈ L
  /\ band_key N "Gain" +:+ "=" +:+ Binary64.repr (gain filt) ∈ L
  /\ (exists qv, q_to_proq4 (q filt) (filter_type filt) = Ok qv
        /\ band_key N "Q" +:+ "=" +:+ Binary64.repr qv ∈ L)
  /\ band_key N "Shape" +:+ "=" +:+ str_int (filter_type_to_shape (filter_type filt)) ∈ L
  /\ "Output Level=" +:+ Binary64.repr (PrimFloat.div (preamp preset) 36) ∈ L.
Proof.
  intros HL HN Hf Hfin.
  destruct (emitted_used_band preset L N filt HL HN Hf) as (fr & qv & Hfr & Hq & _ & Hb).
  destruct (binary64_frequency_Ok libm _ fr Hfr Hfin) as [Hpos ->].
  split; [exact Hpos|].
  pose proof (filter_band_lines N filt (Binary64.libm_log2 libm (frequency filt)) qv) as H.
  cbv zeta in H. rewrite <- Hb in H. destruct H as (H1 & H2 & H3 & H4 & H5 & H6).
  pose proof (band_block_subseteq L N) as Hsub.
  split; [exact (Hsub _ H1)|]. split; [exact (Hsub _ H2)|].
  split; [exact (Hsub _ H3)|]. split; [exact (Hsub _ H4)|].
  split; [exists qv; split; [exact Hq | exact (Hsub _ H5)]|].
  split; [exact (Hsub _ H6)|].
  destruct (emitted_output_level _ L HL) as (lvl & Hlvl & Hin).
  rewrite binary64_output_level in Hlvl. apply Ok_inj in Hlvl. subst lvl.
  now apply list_elem_of_lookup_2 in Hin.
Qed.

(** The witness of X1: the round trip input with the stand-in C library. *)
Lemma binary64_band_lines_witness :
  1 <= 1 <= 24
  /\ exists L,
       @eq_preset_lines (binary64 table_libm) (with_metadata round_trip_preset "" "") = Ok L
       /\ "Band 1 Used=1" ∈ L
       /\ "Band 1 Enabled=1" ∈ L
       /\ "Band 1 Frequency=9.965784284662087" ∈ L
       /\ "Band 1 Gain=3.0" ∈ L
       /\ "Band 1 Shape=0" ∈ L
       /\ "Output Level=-0.06944444444444445" ∈ L.
Proof.
  split; [lia|].
  assert (HL : exists L,
    @eq_preset_lines (binary64 table_libm) (with_metadata round_trip_preset "" "") = Ok L).
  { eexists. vm_compute. reflexivity. }
  destruct HL as [L HL]. exists L. split; [exact HL|].
  destruct (binary64_band_lines table_libm (with_metadata round_trip_preset "" "") L 1
              {| enabled := true; filter_type := "PK";
                 frequency := float_of_decimal false 1000 0;
                 gain := float_of_decimal false 30 1;
                 q := float_of_decimal false 10 1 |}
              HL ltac:(lia) eq_refl eq_refl)
    as (_ & H1 & H2 & H3 & H4 & _ & H6 & H7).
  split; [exact H1|]. split; [exact H2|]. split; [exact H3|]. split; [exact H4|].
  split; [exact H6 | exact H7].
Defined.

(** X2.  The preamp of the parsed preset is the number of the last line
    that matches the preamp pattern, and 0.0 when no line does; a line
    such as [Preamp: -6.5 dB] gives -6.5, blanks around the number are
    optional, and a line that does not start with [Preamp:] gives
    nothing. *)
Theorem preamp_is_last_matching_line {F : PyFloat} (text : string) :
  (exists preset,
     parse_text_preset text = Ok preset
     /\ preamp preset = default (float_of_decimal false 0 1)
                          (last (omap preamp_of_line (split_newline (strip text)))))
  /\ @preamp_of_line F "Preamp: -6.5 dB" = Some (float_of_decimal true 65 1)
  /\ @preamp_of_line F "  Preamp:3dB" = Some (float_of_decimal false 3 0)
  /\ @preamp_of_line F "Preamp: six dB" = None
  /\ (forall line, startswith (strip line) "Preamp:" = false -> @preamp_of_line F line = None)
  /\ (exists preset,
        @parse_text_preset F ("Preamp: -1 dB" +:+ String newline "Preamp: -2.5 dB") = Ok preset
        /\ preamp preset = float_of_decimal true 25 1).
Proof.
  split.
  { eexists. split; [apply parse_text_preset_spec|]. cbn [preamp]. apply foldl_default_last. }
  split; [vm_compute; reflexivity|]. split; [vm_compute; reflexivity|].
  split; [vm_compute; reflexivity|].
  split; [intros line H; unfold preamp_of_line; cbv zeta; now rewrite H|].
  eexists. split; [vm_compute; reflexivity | reflexivity].
Qed.

(** X3.  The keys of the block of a band are written in ascending order of
    their text: they are the keys of the dict of the band, sorted. *)
Theorem band_fields_ascending {F : PyFloat} (preset : EQPreset F) (L : list string) (N : nat) :
  eq_preset_lines preset = Ok L -> 1 <= N <= 24 ->
  ascending (line_key <$> band_block L N) = true
  /\ (exists params, band_params preset N = Ok params
        /\ sorted_keys params = Ok (line_key <$> band_block L N)).
Proof.
  intros HL HN.
  destruct (emitted_band_block preset L N HL HN) as (params & Hp & Hb).
  rewrite Hb, block_lines_keys by exact HN. split.
  - each_band N.
  - exists params. split; [exact Hp|].
    apply band_params_spec in Hp
      as [(filt & fr & qv & _ & _ & _ & _ & ->)|[_ ->]].
    + unfold filter_band_params, used_band_params. each_band N.
    + each_band N.
Qed.

(** The witness of X3: band 2 of the sample preset. *)
Lemma band_fields_ascending_witness :
  1 <= 2 <= 24
  /\ (forall fmt, exists L,
        @eq_preset_lines (ideal fmt) (with_metadata sample_preset "" "") = Ok L
        /\ ascending (line_key <$> band_block L 2) = true).
Proof.
  split; [lia|]. intros fmt.
  destruct (sample_emits fmt "" "") as [L HL]. exists L. split; [exact HL|].
  now destruct (band_fields_ascending _ L 2 HL ltac:(lia)) as [H _].
Defined.

(** X4.  The output starts with the seven header lines, which carry the
    author and the tags; the 24 lines after the band blocks are the global
    parameters with the output level; the last line is empty; and the text
    returned is these lines joined by newlines. *)
Theorem output_frame {F : PyFloat} (preset : EQPreset F) (L : list string) :
  eq_preset_lines preset = Ok L ->
  take 7 L = ["[Preset]"; "Signature=FQ4p"; "Version=4";
              "Author=" +:+ author preset; "Tags=" +:+ tags preset; ""; "[Parameters]"]
  /\ (exists lvl, preamp_to_output_level (preamp preset) = Ok lvl
        /\ take 24 (drop 559 L) = global_lines lvl)
  /\ L !! 607 = Some ""
  /\ eq_preset_to_ffp preset = Ok (join (String newline "") L).
Proof.
  intros HL. pose proof HL as (pars & lvl & Hp & Hlvl & ->)%eq_preset_lines_Ok.
  pose proof (Forall2_length _ _ _ Hp) as Hlen. cbn in Hlen. symmetry in Hlen.
  split_24 pars Hlen.
  split; [reflexivity|]. split; [exists lvl; split; [exact Hlvl | reflexivity]|].
  split; [reflexivity|].
  unfold eq_preset_to_ffp. rewrite HL. reflexivity.
Qed.

(** The witness of X4: the sample preset with the metadata of the driver. *)
Lemma output_frame_witness :
  exists L,
    @eq_preset_lines (ideal (fun _ => "")) (with_metadata sample_preset "JRoot3D" "Calibration")
    = Ok L
    /\ L !! 3 = Some "Author=JRoot3D" /\ L !! 4 = Some "Tags=Calibration"
    /\ L !! 607 = Some "".
Proof.
  destruct (sample_emits (fun _ => "") "JRoot3D" "Calibration") as [L HL].
  exists L. split; [exact HL|].
  destruct (output_frame _ L HL) as (Hhead & _ & Hlast & _).
  split; [|split; [|exact Hlast]].
  - rewrite <- (lookup_take_lt L 7 3) by lia. rewrite Hhead. reflexivity.
  - rewrite <- (lookup_take_lt L 7 4) by lia. rewrite Hhead. reflexivity.
Defined.

(** X5.  A band beyond the number of filters is written from the defaults
    of an unused band, and its spectral tilt line says 0. *)
Theorem unused_bands_hold_defaults {F : PyFloat} (preset : EQPreset F) (L : list string)
    (N : nat) :
  eq_preset_lines preset = Ok L -> 1 <= N <= 24 -> length (filters preset) < N ->
  band_params preset N = Ok (generate_default_band_params N false)
  /\ band_block L N = block_lines N (generate_default_band_params N false)
  /\ band_key N "Used" +:+ "=0" ∈ band_block L N
  /\ band_key N "Enabled" +:+ "=1" ∈ band_block L N
  /\ band_key N "Frequency" +:+ "=9.96578407287598" ∈ band_block L N
  /\ band_key N "Threshold" +:+ "=0.666666686534882" ∈ band_block L N
  /\ L !! (582 + N) = Some (band_key N "Spectral Tilt" +:+ "=0").
Proof.
  intros HL HN Hlen.
  assert (Hp : band_params preset N = Ok (generate_default_band_params N false)).
  { unfold band_params. destruct (Nat.leb_spec N (length (filters preset))); [lia | reflexivity]. }
  split; [exact Hp|].
  rewrite (emitted_unused_band preset L N HL HN Hlen).
  split; [reflexivity|].
  assert (Hin : forall f v, f ∈ band_fields ->
            generate_default_band_params N false !! band_key N f = Some v ->
            band_key N f +:+ "=" +:+ v ∈ block_lines N (generate_default_band_params N false)).
  { intros f v Hf Hv. now apply block_lines_elem. }
  split; [apply (Hin "Used" "0"); [compute_done | now rewrite lookup_default_field]|].
  split; [apply (Hin "Enabled" "1"); [compute_done | now rewrite lookup_default_field]|].
  split; [apply (Hin "Frequency" "9.96578407287598"); [compute_done | now rewrite lookup_default_field]|].
  split; [apply (Hin "Threshold" "0.666666686534882"); [compute_done | now rewrite lookup_default_field]|].
  pose proof (emitted_tilt_lines preset L HL) as Ht.
  assert (Hl : (tilt_line preset <$> seq 1 24) !! (N - 1) = Some (tilt_line preset N)).
  { rewrite list_lookup_fmap, lookup_seq_lt by lia. cbn. do 2 f_equal. lia. }
  rewrite <- Ht in Hl. rewrite lookup_take_lt in Hl by lia.
  rewrite lookup_drop in Hl. replace (583 + (N - 1)) with (582 + N) in Hl by lia.
  rewrite Hl. f_equal. unfold tilt_line.
  destruct (Nat.leb_spec N (length (filters preset))); [lia|].
  unfold band_key. now rewrite !string_app_assoc.
Qed.

(** The witness of X5: band 3 of the sample preset, which has two filters. *)
Lemma unused_bands_hold_defaults_witness :
  1 <= 3 <= 24
  /\ length (filters (@sample_preset (ideal (fun _ => "")))) < 3
  /\ (forall fmt, exists L,
        @eq_preset_lines (ideal fmt) (with_metadata sample_preset "" "") = Ok L
        /\ "Band 3 Used=0" ∈ band_block L 3
        /\ L !! 585 = Some "Band 3 Spectral Tilt=0").
Proof.
  split; [lia|]. split; [cbn; lia|]. intros fmt.
  destruct (sample_emits fmt "" "") as [L HL]. exists L. split; [exact HL|].
  destruct (unused_bands_hold_defaults _ L 3 HL ltac:(lia) ltac:(cbn; lia))
    as (_ & _ & Hused & _ & _ & _ & Htilt).
  split; [exact Hused | exact Htilt].
Defined.

(** X6.  A well-formed filter line is read whole.  The line
    [Filter n: ON T Fc f Hz Gain g dB Q q] (or [OFF]), followed by any text
    that does not start with a digit or a point, where [n] is a non-empty
    run of digits, [T] a non-empty run of word characters, [f] and [q]
    unsigned numerals and [g] a numeral with an optional minus sign, gives
    on every platform exactly one filter, with the flag, the type and the
    three numbers of the line.  It never sets the preamp and the parser's
    step on it never raises. *)
Theorem well_formed_filter_line {F : PyFloat} (n : string) (on : bool)
    (T f g q rest : string) :
  n <> "" -> all_digits n = true ->
  T <> "" -> all_chars py_isword T = true ->
  lang unsigned_number f -> lang signed_number g -> lang unsigned_number q ->
  no_start numeral_char rest ->
  exists xf xg xq,
    py_float f = Ok xf /\ py_float g = Ok xg /\ py_float q = Ok xq
    /\ filter_of_line (filter_line n on T f g q rest)
       = Some {| enabled := on; filter_type := T; frequency := xf; gain := xg; q := xq |}
    /\ preamp_of_line (filter_line n on T f g q rest) = None
    /\ forall st : parse_state,
         parse_line st (filter_line n on T f g q rest)
         = Ok (st.1, st.2 ++ [{| enabled := on; filter_type := T; frequency := xf;
                                 gain := xg; q := xq |}]).
Proof.
  intros Hn Dn HT HTw Hf Hg Hq Hrest.
  destruct (py_float_unsigned f Hf) as (mf & kf & Ef).
  destruct (py_float_signed g Hg) as (sg & mg & kg & Eg).
  destruct (py_float_unsigned q Hq) as (mq & kq & Eq).
  eexists _, _, _. split; [exact Ef|]. split; [exact Eg|]. split; [exact Eq|].
  assert (Hstart : forall s, startswith ("Filter " +:+ s) "Preamp:" = false
                             /\ startswith ("Filter " +:+ s) "Filter" = true)
    by (intros s; split; reflexivity).
  assert (Hfil : filter_of_line (filter_line n on T f g q rest)
                 = Some {| enabled := on; filter_type := T;
                           frequency := float_of_decimal false mf kf;
                           gain := float_of_decimal sg mg kg;
                           q := float_of_decimal false mq kq |}).
  { unfold filter_of_line. rewrite (strip_filter_line_fields n on T f g q rest Hq).
    cbv zeta. destruct (Hstart (n +:+ ":" +:+
      (" " +:+ (if on then "ON" else "OFF") +:+ " " +:+ T +:+ " " +:+ "Fc" +:+ " " +:+ f
       +:+ " " +:+ "Hz" +:+ " " +:+ "Gain" +:+ " " +:+ g +:+ " " +:+ "dB" +:+ " " +:+ "Q"
       +:+ " " +:+ q +:+ rstrip rest))) as [-> ->].
    destruct n as [|c n]; [congruence|].
    unfold all_digits in Dn. cbn [all_chars] in Dn. apply andb_true_iff in Dn as [Hc Dn].
    change (":" +:+ ?s) with (String ":" s).
    rewrite (filter_search_numbered c n _ Hc Dn).
    rewrite (filter_tail_match on T f g q (rstrip rest) HT HTw Hf Hg Hq
               (no_start_rstrip _ _ Hrest)).
    unfold filter_of_match.
    destruct (group_filter_captures (if on then "ON" else "OFF") T f g q)
      as (-> & -> & -> & -> & ->).
    cbn [mbind pyresult_bind]. rewrite Ef. cbn [mbind pyresult_bind].
    rewrite Eg. cbn [mbind pyresult_bind]. rewrite Eq. cbn [mbind pyresult_bind].
    now destruct on. }
  assert (Hpre : preamp_of_line (filter_line n on T f g q rest) = None).
  { unfold preamp_of_line. rewrite (strip_filter_line_fields n on T f g q rest Hq).
    cbv zeta. now destruct (Hstart (n +:+ ":" +:+
      (" " +:+ (if on then "ON" else "OFF") +:+ " " +:+ T +:+ " " +:+ "Fc" +:+ " " +:+ f
       +:+ " " +:+ "Hz" +:+ " " +:+ "Gain" +:+ " " +:+ g +:+ " " +:+ "dB" +:+ " " +:+ "Q"
       +:+ " " +:+ q +:+ rstrip rest))) as [-> _]. }
  split; [exact Hfil|]. split; [exact Hpre|].
  intros st. rewrite parse_line_spec, Hfil, Hpre. reflexivity.
Qed.

(** The witness of X6: a disabled low shelf with a comment behind it. *)
Lemma well_formed_filter_line_witness :
  "12" <> "" /\ all_digits "12" = true
  /\ (forall F : PyFloat,
        @filter_of_line F (filter_line "12" false "LSC" "105" "-8.2" "0.70" " # shelf")
        = Some {| enabled := false; filter_type := "LSC";
                  frequency := float_of_decimal false 105 0;
                  gain := float_of_decimal true 82 1;
                  q := float_of_decimal false 70 2 |}).
Proof.
  split; [discriminate|]. split; [reflexivity|]. intros F.
  assert (Hf : lang unsigned_number "105") by now apply unsigned_digits.
  assert (Hg : lang signed_number "-8.2")
    by (apply signed_minus; now apply (unsigned_point "8" "2")).
  assert (Hq : lang unsigned_number "0.70") by now apply (unsigned_point "0" "70").
  destruct (@well_formed_filter_line F "12" false "LSC" "105" "-8.2" "0.70" " # shelf"
              ltac:(discriminate) eq_refl ltac:(discriminate) eq_refl Hf Hg Hq eq_refl)
    as (xf & xg & xq & Ef & Eg & Eq & Hline & _).
  rewrite Hline. vm_compute in Ef, Eg, Eq.
  apply Ok_inj in Ef, Eg, Eq. now subst.
Defined.

(** X7.  The parser works line by line.  The preset depends on the lines
    of the text only, whether or not the text is stripped first: the
    filters are those of the lines that give one, in order, and the preamp
    is that of the last line that gives one, 0.0 when there is none.  Lines
    without a line feed, joined by line feeds, are read back as these
    lines.  Blanks around a line do not change what it gives, and a blank
    line gives nothing. *)
Theorem parser_reads_lines {F : PyFloat} :
  (forall text, parse_text_preset text = Ok (preset_of_lines (split_newline text)))
  /\ (forall ls, Forall (fun l => one_line l = true) ls ->
        parse_text_preset (join (String newline "") ls) = Ok (preset_of_lines ls))
  /\ (forall w1 l w2, blank w1 = true -> blank w2 = true ->
        filter_of_line (w1 +:+ l +:+ w2) = filter_of_line l
        /\ preamp_of_line (w1 +:+ l +:+ w2) = preamp_of_line l)
  /\ (forall l, blank l = true -> filter_of_line l = None /\ preamp_of_line l = None).
Proof.
  split; [apply parse_text_preset_lines|].
  split.
  { intros ls Hls. rewrite parse_text_preset_lines.
    destruct ls as [|x ls]; [reflexivity|]. now rewrite split_join. }
  split.
  { intros w1 l w2 H1 H2.
    split; [now apply (line_around filter_of_line filter_of_line_strip)
           | now apply (line_around preamp_of_line preamp_of_line_strip)]. }
  intros l Hl.
  split; [now apply (line_blank filter_of_line filter_of_line_strip eq_refl)
         | now apply (line_blank preamp_of_line preamp_of_line_strip eq_refl)].
Qed.

(** X8.  Line endings.  A carriage return before every line feed does not
    change the parsed preset. *)
Theorem crlf_line_endings {F : PyFloat} (text : string) :
  parse_text_preset (crlf text) = parse_text_preset text.
Proof.
  rewrite !parse_text_preset_lines, split_crlf. unfold preset_of_lines.
  rewrite (omap_add_cr filter_of_line _ filter_of_line_strip).
  now rewrite (omap_add_cr preamp_of_line _ preamp_of_line_strip).
Qed.

(** X9.  Where a conversion can fail.  The emitter succeeds exactly when
    the two transforms succeed on each of the first 24 filters and the
    output level can be computed; the filters beyond the 24th are never
    looked at.  When it fails, the exception is that of the first filter,
    in file order, whose transforms fail, the frequency before Q, or that
    of the output level when no filter fails.  So what
    [convert_text_to_ffp] raises is a failure of its write or of one of
    its prints, or, before anything is written or printed, ValueError on
    the ideal platform, ValueError or ZeroDivisionError on doubles. *)
Theorem emitter_fails_only_in_transforms :
  (forall (F : PyFloat) (preset : EQPreset F),
      (exists L, eq_preset_lines preset = Ok L) <->
      (forall j filt, j < 24 -> filters preset !! j = Some filt ->
         exists p, transforms filt = Ok p)
      /\ exists lvl, preamp_to_output_level (preamp preset) = Ok lvl)
  /\ (forall (F : PyFloat) (preset : EQPreset F) e,
        eq_preset_lines preset = Raise e ->
        (exists j filt,
            j < 24 /\ filters preset !! j = Some filt /\ transforms filt = Raise e
            /\ forall i filt', i < j -> filters preset !! i = Some filt' ->
                 exists p, transforms filt' = Ok p)
        \/ ((forall j filt, j < 24 -> filters preset !! j = Some filt ->
               exists p, transforms filt = Ok p)
            /\ preamp_to_output_level (preamp preset) = Raise e))
  /\ (forall fmt env text out a t s ex s',
        @Run.convert_text_to_ffp (ideal fmt) env text out a t s = Run.Raised ex s' ->
        ex = Run.IOFailure \/ (ex = Run.Computation ValueError /\ s' = s))
  /\ (forall libm env text out a t s ex s',
        @Run.convert_text_to_ffp (binary64 libm) env text out a t s = Run.Raised ex s' ->
        ex = Run.IOFailure
        \/ ((ex = Run.Computation ValueError \/ ex = Run.Computation ZeroDivisionError)
            /\ s' = s)).
Proof.
  split; [intros F preset; apply emitter_outcome|].
  split; [intros F preset; apply emitter_outcome|].
  split.
  - intros fmt env text out a t s ex s' Hr.
    destruct (run_convert_raised env _ _ _ _ _ _ _ Hr)
      as [->|(-> & e & preset & -> & _ & HL)]; [now left|].
    right. split; [|reflexivity]. f_equal.
    destruct (proj2 (emitter_outcome _) e HL) as [(j & filt & _ & _ & Ht & _)|[_ Hl]].
    + now apply ideal_transforms_raise in Ht.
    + rewrite ideal_output_level in Hl. discriminate.
  - intros libm env text out a t s ex s' Hr.
    destruct (run_convert_raised env _ _ _ _ _ _ _ Hr)
      as [->|(-> & e & preset & -> & _ & HL)]; [now left|].
    right. split; [|reflexivity].
    destruct (proj2 (emitter_outcome _) e HL) as [(j & filt & _ & _ & Ht & _)|[_ Hl]].
    + apply binary64_transforms_raise in Ht as [->| ->]; auto.
    + rewrite binary64_output_level in Hl. discriminate.
Qed.

(** X10.  The Q transform never fails on doubles.  With a C library whose
    [log] is finite on the finite positive doubles and whose
    [log 40 - log 0.025] is not zero, [q_to_proq4] returns for every
    double, zero, the negatives, the infinities and NaN included: the
    clamped Q lies between 0.025 and 40, and the result is the quotient of
    line 77 at the clamped Q. *)
Theorem q_to_proq4_total_on_doubles (libm : Binary64.Libm) :
  finite_log libm ->
  PrimFloat.is_zero
    (PrimFloat.sub (Binary64.libm_log libm (@Q_MAX (binary64 libm))) (Binary64.libm_log libm (@Q_MIN (binary64 libm)))) = false ->
  forall (q : PrimFloat.float) t,
    PrimFloat.leb (@Q_MIN (binary64 libm)) (@clamped (binary64 libm) q) = true
    /\ PrimFloat.leb (@clamped (binary64 libm) q) (@Q_MAX (binary64 libm)) = true
    /\ @q_to_proq4 (binary64 libm) q t
       = Ok (PrimFloat.div
               (PrimFloat.sub (Binary64.libm_log libm (@clamped (binary64 libm) q)) (Binary64.libm_log libm (@Q_MIN (binary64 libm))))
               (PrimFloat.sub (Binary64.libm_log libm (@Q_MAX (binary64 libm))) (Binary64.libm_log libm (@Q_MIN (binary64 libm))))).
Proof.
  intros Hlog Hz q t.
  destruct (binary64_clamped_finite libm q) as (Hf & Hp & Hlo & Hhi).
  split; [exact Hlo|]. split; [exact Hhi|].
  unfold q_to_proq4. fold (@clamped (binary64 libm) q).
  cbn [math_log float_div float_sub binary64].
  rewrite (checked_log_Ok libm _ Hlog Hf Hp). cbn [mbind pyresult_bind].
  rewrite (checked_log_Ok libm (@Q_MIN (binary64 libm)) Hlog eq_refl eq_refl). cbn [mbind pyresult_bind].
  rewrite (checked_log_Ok libm (@Q_MAX (binary64 libm)) Hlog eq_refl eq_refl). cbn [mbind pyresult_bind].
  rewrite Hz. reflexivity.
Qed.

(** The witness of X10: the stand-in C library, at 0, NaN and minus
    infinity. *)
Lemma q_to_proq4_total_on_doubles_witness :
  finite_log table_libm
  /\ (exists v, @q_to_proq4 (binary64 table_libm) 0%float "PK" = Ok v)
  /\ (exists v, @q_to_proq4 (binary64 table_libm) PrimFloat.nan "PK" = Ok v)
  /\ (exists v, @q_to_proq4 (binary64 table_libm) PrimFloat.neg_infinity "PK" = Ok v).
Proof.
  assert (Hlog : finite_log table_libm) by (intros x Hf _; exact Hf).
  split; [exact Hlog|].
  pose proof (q_to_proq4_total_on_doubles table_libm Hlog eq_refl) as H.
  split; [|split].
  - destruct (H 0%float "PK") as (_ & _ & ->). eauto.
  - destruct (H PrimFloat.nan "PK") as (_ & _ & ->). eauto.
  - destruct (H PrimFloat.neg_infinity "PK") as (_ & _ & ->). eauto.
Defined.

(** X11.  The two flags of a band agree.  For every band N of 1..24 the
    line [Band N Used] stands at index 6 + 23 N and the line
    [Band N Spectral Tilt] at index 582 + N of the output, and both hold 1
    when the preset has at least N filters and 0 otherwise, whether the
    filter is ON or OFF. *)
Theorem used_flag_matches_spectral_tilt {F : PyFloat} (preset : EQPreset F)
    (L : list string) (N : nat) :
  eq_preset_lines preset = Ok L -> 1 <= N <= 24 ->
  let flag := if (N <=? length (filters preset))%nat then "1" else "0" in
  L !! (6 + 23 * N) = Some (band_key N "Used" +:+ "=" +:+ flag)
  /\ L !! (582 + N) = Some (band_key N "Spectral Tilt" +:+ "=" +:+ flag).
Proof.
  intros HL HN flag. split.
  - destruct (emitted_band_block preset L N HL HN) as (params & Hp & Hb).
    replace (6 + 23 * N) with (7 + 23 * (N - 1) + 22) by lia.
    rewrite <- band_block_lookup by lia. rewrite Hb, block_lines_used.
    do 3 f_equal. unfold flag.
    apply band_params_spec in Hp as [(filt & fr & qv & Hle & _ & _ & _ & ->)|[Hlt ->]].
    + destruct (Nat.leb_spec N (length (filters preset))); [|lia].
      pose proof (used_band_params_lookup N (if enabled filt then "1" else "0")
        (float_str fr) (float_str (gain filt)) (float_str qv)
        (str_int (filter_type_to_shape (filter_type filt)))) as Hup.
      cbv zeta in Hup. destruct Hup as (-> & _). reflexivity.
    + destruct (Nat.leb_spec N (length (filters preset))); [lia|].
      now rewrite lookup_default_field.
  - pose proof (emitted_tilt_lines preset L HL) as Ht.
    assert (Hl : (tilt_line preset <$> seq 1 24) !! (N - 1) = Some (tilt_line preset N)).
    { rewrite list_lookup_fmap, lookup_seq_lt by lia. cbn. do 2 f_equal. lia. }
    rewrite <- Ht in Hl. rewrite lookup_take_lt in Hl by lia.
    rewrite lookup_drop in Hl. replace (583 + (N - 1)) with (582 + N) in Hl by lia.
    rewrite Hl. f_equal. unfold tilt_line, band_key, flag. now rewrite !string_app_assoc.
Qed.

(** The witness of X11: bands 2 and 3 of the sample input, which has two
    filters. *)
Lemma used_flag_matches_spectral_tilt_witness :
  1 <= 2 <= 24 /\ 1 <= 3 <= 24
  /\ (forall fmt, exists L,
        @eq_preset_lines (ideal fmt) (with_metadata sample_preset "" "") = Ok L
        /\ L !! 52 = Some "Band 2 Used=1" /\ L !! 584 = Some "Band 2 Spectral Tilt=1"
        /\ L !! 75 = Some "Band 3 Used=0" /\ L !! 585 = Some "Band 3 Spectral Tilt=0").
Proof.
  split; [lia|]. split; [lia|]. intros fmt.
  destruct (sample_emits fmt "" "") as [L HL]. exists L. split; [exact HL|].
  destruct (used_flag_matches_spectral_tilt _ L 2 HL ltac:(lia)) as [H1 H2].
  destruct (used_flag_matches_spectral_tilt _ L 3 HL ltac:(lia)) as [H3 H4].
  repeat split; assumption.
Defined.

(** X12.  Shape codes.  A shape code is at most 4; it is 0 exactly for
    [PK] and for every type that is not one of the five known ones, which
    is thereby written as a bell; and the five known types have five
    different codes. *)
Theorem shape_codes :
  (forall t, filter_type_to_shape t <= 4)
  /\ (forall t, filter_type_to_shape t = 0 <-> (t = "PK" \/ t ∉ known_types))
  /\ (forall t u, t ∈ known_types -> u ∈ known_types ->
        filter_type_to_shape t = filter_type_to_shape u -> t = u).
Proof.
  assert (Hknown : forall t, t ∈ known_types ->
            t = "PK" \/ t = "LSC" \/ t = "LP" \/ t = "HSC" \/ t = "HP").
  { intros t Ht. unfold known_types in Ht.
    repeat (apply elem_of_cons in Ht as [->|Ht]; [auto 6|]). now apply elem_of_nil in Ht. }
  assert (Hunknown : forall t, t ∉ known_types -> filter_type_to_shape t = 0).
  { intros t Ht. unfold filter_type_to_shape, shape_mapping.
    now rewrite (not_elem_of_list_to_map_1 _ t). }
  split.
  { intros t. destruct (decide (t ∈ known_types)) as [Ht|Ht].
    - destruct (Hknown t Ht) as [->|[->|[->|[->| ->]]]]; vm_compute; lia.
    - rewrite (Hunknown t Ht). lia. }
  split.
  { intros t. split.
    - intros H0. destruct (decide (t ∈ known_types)) as [Ht|Ht]; [|auto].
      destruct (Hknown t Ht) as [->|[->|[->|[->| ->]]]]; auto; vm_compute in H0; discriminate.
    - intros [->|Ht]; [reflexivity | now apply Hunknown]. }
  intros t u Ht Hu.
  destruct (Hknown t Ht) as [->|[->|[->|[->| ->]]]];
    destruct (Hknown u Hu) as [->|[->|[->|[->| ->]]]];
    vm_compute; congruence.
Qed.

(** X13.  The written text, read back.  On doubles, when author and tags
    hold no line feed, the text that [eq_preset_to_ffp] returns splits at
    the line feeds into exactly the 608 lines the emitter built: no
    number, key or default value holds a line feed. *)
Theorem written_text_splits_into_lines (libm : Binary64.Libm)
    (preset : EQPreset (binary64 libm)) (text : string) :
  one_line (author preset) = true -> one_line (tags preset) = true ->
  eq_preset_to_ffp preset = Ok text ->
  exists L, eq_preset_lines preset = Ok L
    /\ split_newline text = L /\ length L = 608
    /\ text = join (String newline "") L.
Proof.
  intros Ha Ht Htext.
  destruct (written_text_lines (F := binary64 libm) repr_one_line preset text Ha Ht Htext)
    as (L & HL & Hsplit & Hlen).
  exists L. split; [exact HL|]. split; [exact Hsplit|]. split; [exact Hlen|].
  unfold eq_preset_to_ffp in Htext. rewrite HL in Htext. cbn in Htext.
  apply Ok_inj in Htext. now symmetry.
Qed.

(** The witness of X13: the round trip input with the metadata of the
    driver. *)
Lemma written_text_splits_into_lines_witness :
  one_line "JRoot3D" = true /\ one_line "Calibration" = true
  /\ exists text L,
       @eq_preset_to_ffp (binary64 table_libm)
         (with_metadata round_trip_preset "JRoot3D" "Calibration") = Ok text
       /\ split_newline text = L /\ length L = 608.
Proof.
  split; [reflexivity|]. split; [reflexivity|].
  assert (Ht : exists text,
    @eq_preset_to_ffp (binary64 table_libm)
      (with_metadata round_trip_preset "JRoot3D" "Calibration") = Ok text).
  { eexists. vm_compute. reflexivity. }
  destruct Ht as [text Ht].
  destruct (written_text_splits_into_lines table_libm
              (with_metadata round_trip_preset "JRoot3D" "Calibration") text
              eq_refl eq_refl Ht)
    as (L & _ & Hsplit & Hlen & _).
  exists text, L. auto.
Defined.

(** X14.  The name of the output file.  For a found file
    [<base> ParametricEQ.txt], where [base] does not hold [ ParametricEQ]
    itself, the output path is [presets/<base>.ffp], whatever the
    directory of the input: two inputs of the same name in different
    directories share their output path. *)
Theorem output_path_of_name (d base : string) :
  occurs " ParametricEQ" base = false ->
  output_path {| file_dir := d; file_name := base +:+ " ParametricEQ.txt" |}
  = "presets/" +:+ base +:+ ".ffp"
  /\ forall d', output_path {| file_dir := d'; file_name := base +:+ " ParametricEQ.txt" |}
                = output_path {| file_dir := d; file_name := base +:+ " ParametricEQ.txt" |}.
Proof.
  intros Hocc. split; [|reflexivity].
  unfold output_path. cbn [file_name]. cbv zeta.
  replace (base +:+ " ParametricEQ.txt") with ((base +:+ " ParametricEQ") +:+ ".txt")
    by (now rewrite string_app_assoc).
  rewrite stem_txt by (destruct base; discriminate).
  now rewrite replace_suffix.
Qed.

(** The witness of X14. *)
Lemma output_path_of_name_witness :
  occurs " ParametricEQ" "Sennheiser HD 650" = false
  /\ output_path {| file_dir := "results/over-ear/Sennheiser HD 650";
                    file_name := "Sennheiser HD 650 ParametricEQ.txt" |}
     = "presets/Sennheiser HD 650.ffp".
Proof.
  split; [reflexivity|].
  now destruct (output_path_of_name "results/over-ear/Sennheiser HD 650"
                  "Sennheiser HD 650" eq_refl) as [-> _].
Defined.

(** X15.  The counters and the frame of the driver, whatever fails.  A
    path whose content changed is the output path of a found file, so a
    path outside [presets/] holds what it held; no file is removed.  Each
    counter is at most the number of found files; when the loop comes to
    its end every found file was counted, and an exception escapes the
    loop only when an operation failed.  When no operation fails the loop
    comes to its end and every found file is counted once.  When the read
    of the first file and the print of the handler fail, the exception
    escapes and no file is handled.  When only the [print()] after the
    count fails, the file is written and counted twice, as converted and
    as failed. *)
Theorem driver_counts_and_frame {F : PyFloat} (env : Run.io_env) (found : list found_file)
    (fs : gmap string string) :
  let r := Run.convert_all env found (Run.initial fs) in
  (forall p, Run.disk (state_of r) !! p <> fs !! p -> p ∈ output_path <$> found)
  /\ (forall p, startswith p "presets/" = false -> Run.disk (state_of r) !! p = fs !! p)
  /\ (forall p, is_Some (fs !! p) -> is_Some (Run.disk (state_of r) !! p))
  /\ Run.converted_count (state_of r) <= length found
  /\ Run.failed_count (state_of r) <= length found
  /\ (finished r ->
      length found <= Run.converted_count (state_of r) + Run.failed_count (state_of r))
  /\ (~ finished r -> exists k, Run.fails env k = true)
  /\ (reliable env ->
      finished r
      /\ Run.converted_count (state_of r) + Run.failed_count (state_of r) = length found)
  /\ (forall f rest,
        found = f :: rest -> Run.fails env 0 = true -> Run.fails env 1 = true ->
        r = Run.Raised Run.IOFailure
              {| Run.disk := fs; Run.steps := 2;
                 Run.converted_count := 0; Run.failed_count := 0 |})
  /\ (forall f c,
        conversion fs f = Some c ->
        (forall k, k < 5 -> Run.fails env k = false) ->
        Run.fails env 5 = true -> Run.fails env 6 = false ->
        Run.convert_file env f (Run.initial fs)
        = Run.Returned tt
            {| Run.disk := <[output_path f := c]> fs; Run.steps := 7;
               Run.converted_count := 1; Run.failed_count := 1 |}).
Proof.
  intros r.
  destruct (convert_all_facts env found (Run.initial fs)) as (H1 & H2 & H3 & H4 & _ & H6 & H7).
  fold r in H1, H2, H3, H4, H6, H7. cbn [Run.initial Run.disk Run.converted_count
    Run.failed_count Run.steps] in *.
  split.
  { intros p Hp. destruct (decide (p ∈ output_path <$> found)) as [Hin|Hout]; [exact Hin|].
    now rewrite H1 in Hp. }
  split.
  { intros p Hp. apply H1. intros Hin. apply list_elem_of_fmap in Hin as (f & -> & _).
    rewrite output_path_presets in Hp. discriminate. }
  split; [exact H2|]. split; [lia|]. split; [lia|]. split; [intros Hf; specialize (H6 Hf); lia|].
  split; [intros Hf; destruct (H7 Hf) as (k & _ & Hk); eauto|].
  split.
  { intros Hio.
    destruct (convert_all_reliable_counts env found (Run.initial fs) Hio) as (s' & Hr & Hsum).
    fold r in Hr. rewrite Hr. cbn [finished state_of]. split; [exact I|].
    cbn [Run.initial Run.converted_count Run.failed_count] in Hsum. lia. }
  split.
  { intros f rest -> E0 E1. unfold r, Run.convert_all. rewrite for_loop_cons.
    unfold Run.convert_file, Run.try_except, Run.read_file, Run.print, mbind, Run.io_bind.
    cbn [Run.initial Run.steps Run.tick]. rewrite E0.
    cbn [Run.initial Run.steps Run.tick]. rewrite E1. reflexivity. }
  intros f c Hc Hok E5 E6.
  unfold Run.convert_file, Run.try_except, Run.convert_text_to_ffp,
    Run.read_file, Run.write_file, Run.print, Run.add_converted, Run.add_failed, Run.lift,
    mbind, Run.io_bind.
  unfold conversion in Hc.
  cbn [Run.initial Run.steps Run.disk Run.tick Run.set_disk Run.converted_count
       Run.failed_count].
  rewrite (Hok 0) by lia.
  destruct (fs !! input_path f) as [text|]; [|discriminate].
  destruct (parse_text_preset text) as [preset|]; [|discriminate].
  destruct (eq_preset_to_ffp _) as [content|]; [|discriminate].
  injection Hc as ->.
  repeat (cbn [Run.initial Run.steps Run.disk Run.tick Run.set_disk Run.converted_count
               Run.failed_count];
          first [rewrite (Hok 1) by lia | rewrite (Hok 2) by lia | rewrite (Hok 3) by lia
                | rewrite (Hok 4) by lia | rewrite E5 | rewrite E6]).
  reflexivity.
Qed.

(** X16.  A file that fails does not stop the others.  When no operation
    of the run fails other than the read of a file that is not there, and
    no input lies under [presets/], the loop comes to its end, the
    converted files are exactly the found files that can be read and
    converted, each on its own, and the others are counted as failed.  An
    output path holds the conversion of the last found file with this
    path that converts, and a path for which no found file converts keeps
    its content. *)
Theorem driver_isolates_failures {F : PyFloat} (env : Run.io_env) (found : list found_file)
    (fs : gmap string string) :
  reliable env ->
  Forall (fun f => startswith (input_path f) "presets/" = false) found ->
  let r := Run.convert_all env found (Run.initial fs) in
  finished r
  /\ Run.converted_count (state_of r) = length (omap (conversion fs) found)
  /\ Run.failed_count (state_of r) = length found - length (omap (conversion fs) found)
  /\ (forall l1 f l2 c,
        found = l1 ++ f :: l2 -> conversion fs f = Some c ->
        (forall g, g ∈ l2 -> output_path g = output_path f -> conversion fs g = None) ->
        Run.disk (state_of r) !! output_path f = Some c)
  /\ (forall p,
        (forall g, g ∈ found -> output_path g = p -> conversion fs g = None) ->
        Run.disk (state_of r) !! p = fs !! p).
Proof.
  intros Hio Hfound r.
  destruct (convert_all_reliable env fs found (Run.initial fs) Hio) as (s' & Hr & Hd & Hc & Hsum);
    [intros p _; reflexivity | exact Hfound |].
  fold r in Hr. rewrite Hr. cbn [finished state_of].
  cbn [Run.initial Run.disk Run.converted_count Run.failed_count] in Hd, Hc, Hsum.
  split; [exact I|]. split; [lia|]. split; [lia|]. rewrite Hd. split.
  - intros l1 f l2 c -> Hconv Hl2. now apply write_all_last.
  - intros p Hp. now apply write_all_none.
Qed.

(** The witness of X16: the first input fails at 0 Hz, the second is
    written. *)
Lemma driver_isolates_failures_witness :
  reliable reliable_env
  /\ Forall (fun f => startswith (input_path f) "presets/" = false) sample_found
  /\ exists s,
       @Run.convert_all (binary64 table_libm) reliable_env sample_found (Run.initial sample_disk)
       = Run.Returned tt s
       /\ Run.converted_count s = 1 /\ Run.failed_count s = 1
       /\ is_Some (Run.disk s !! "presets/B.ffp")
       /\ Run.disk s !! "presets/A.ffp" = None.
Proof.
  assert (Hio : reliable reliable_env) by (intros k; reflexivity).
  assert (Hfound : Forall (fun f => startswith (input_path f) "presets/" = false) sample_found)
    by (repeat constructor).
  split; [exact Hio|]. split; [exact Hfound|].
  destruct (@driver_isolates_failures (binary64 table_libm) reliable_env sample_found
              sample_disk Hio Hfound) as (Hfin & Hc & Hf & Hlast & Hnone).
  destruct (@Run.convert_all (binary64 table_libm) reliable_env sample_found
              (Run.initial sample_disk)) as [[] s|e s]; [|destruct Hfin].
  cbn [state_of] in *. exists s. split; [reflexivity|].
  assert (HA : @conversion (binary64 table_libm) sample_disk
                 {| file_dir := "results/a"; file_name := "A ParametricEQ.txt" |} = None)
    by (vm_compute; reflexivity).
  assert (HB : exists c, @conversion (binary64 table_libm) sample_disk
                 {| file_dir := "results/b"; file_name := "B ParametricEQ.txt" |} = Some c)
    by (eexists; vm_compute; reflexivity).
  destruct HB as [c HB].
  assert (Hlen : length (omap (@conversion (binary64 table_libm) sample_disk) sample_found) = 1).
  { unfold sample_found. cbn [omap list_omap]. rewrite HA, HB. reflexivity. }
  split; [rewrite Hc; exact Hlen|]. split; [rewrite Hf, Hlen; reflexivity|].
  split.
  - exists c.
    apply (Hlast [ {| file_dir := "results/a"; file_name := "A ParametricEQ.txt" |} ]
                 {| file_dir := "results/b"; file_name := "B ParametricEQ.txt" |} [] c
                 eq_refl HB).
    intros g Hg. destruct (not_elem_of_nil g Hg).
  - rewrite (Hnone "presets/A.ffp"); [reflexivity|].
    intros g Hg Hp. unfold sample_found in Hg.
    apply elem_of_cons in Hg as [->|Hg]; [exact HA|].
    apply list_elem_of_singleton in Hg. subst g. vm_compute in Hp. discriminate Hp.
Defined.
